(** * dirsearch-go: the scanning engine, embedded and checked against its specification

    The development follows the layout of the Go repository:

    - [gostrings], [goregexp], [gourl], [gohttp]: the parts of the Go 1.21
      standard library (the version pinned by the release workflow) that the
      scanner calls, written over byte strings;
    - [config]: pkg/config, the configuration records;
    - [scanner]: pkg/scanner, [makeRequest], [shouldIncludeResult],
      [ExtractPaths], [ScanURL] and the token bucket of the rate limiter;
    - [output]: pkg/output, the writers;
    - [logger]: pkg/logger, levels and the text of a log line;
    - [app]: cmd/main.go, the dispatcher, the workers, recursion, the output
      manager and shutdown.

    Go strings are byte strings and are modelled by [string] (one [ascii] per
    byte).  Go's [int] and [int64] are 64-bit; they are modelled in [Z], and
    [goint.wrap] is written out where the code does arithmetic on them.
    Calls to the logger have no effect on any value computed here and are
    left out. *)

From Stdlib Require Import ZArith Ascii String List Bool Lia DecimalString.
From stdpp Require Import base option list gmap strings.

Local Open Scope string_scope.
Local Open Scope Z_scope.
Local Open Scope list_scope.

#[local] Set Warnings "-register-all".

(** [s1 +:+ s2] is [String.append]; let [simpl] unfold it on a constructor. *)
#[local] Arguments String.append !s1 s2 / : simpl nomatch.

(* ===================================================================== *)
(** * Machine integers *)
(* ===================================================================== *)

Module goint.

(** Two's complement wrap-around of a 64-bit signed integer. *)
Definition wrap (z : Z) : Z := (z + 2 ^ 63) mod 2 ^ 64 - 2 ^ 63.

Definition max_int : Z := 2 ^ 63 - 1.
Definition min_int : Z := - 2 ^ 63.

(** [a + b] on Go's [int]. *)
Definition add (a b : Z) : Z := wrap (a + b).

Definition in_range (z : Z) : Prop := min_int <= z <= max_int.

End goint.

(* ===================================================================== *)
(** * package strings *)
(* ===================================================================== *)

Module gostrings.

(** [len(s)] as a Go [int]. *)
Definition len (s : string) : Z := Z.of_nat (String.length s).

(** [s[n:]] for [n <= len(s)]. *)
Fixpoint drop (n : nat) (s : string) : string :=
  match n, s with
  | O, _ => s
  | S n', String _ s' => drop n' s'
  | S _, EmptyString => EmptyString
  end.

(** [strings.HasPrefix(s, prefix)]. *)
Fixpoint HasPrefix (s prefix : string) : bool :=
  match prefix with
  | EmptyString => true
  | String p prefix' =>
      match s with
      | EmptyString => false
      | String c s' => Ascii.eqb c p && HasPrefix s' prefix'
      end
  end.

(** [strings.TrimPrefix(s, prefix)]. *)
Definition TrimPrefix (s prefix : string) : string :=
  if HasPrefix s prefix then drop (String.length prefix) s else s.

(** [strings.Contains(s, substr)]: [substr] starts at some offset of [s]. *)
Fixpoint Contains (s substr : string) : bool :=
  if HasPrefix s substr then true
  else match s with
       | EmptyString => false
       | String _ s' => Contains s' substr
       end.

(** [strings.HasSuffix(s, suffix)]. *)
Definition HasSuffix (s suffix : string) : bool :=
  let n := String.length s in
  let m := String.length suffix in
  (m <=? n)%nat && String.eqb (drop (n - m) s) suffix.

(** [strings.Cut(s, sep)]: the text before and after the first [sep];
    [None] stands for [found == false], where Go returns [(s, "")]. *)
Fixpoint Cut (s sep : string) : option (string * string) :=
  if HasPrefix s sep then Some (EmptyString, drop (String.length sep) s)
  else match s with
       | EmptyString => None
       | String c s' =>
           match Cut s' sep with
           | Some (before, after) => Some (String c before, after)
           | None => None
           end
       end.

(** The first two results of [strings.Cut]. *)
Definition Cut_before (s sep : string) : string :=
  match Cut s sep with Some (b, _) => b | None => s end.

Definition Cut_after (s sep : string) : string :=
  match Cut s sep with Some (_, a) => a | None => EmptyString end.

(** [strings.LastIndex(s, sep) >= 0] together with the split it determines:
    the text before the last [sep] and the text from it on ([s[:i]], [s[i:]]). *)
Fixpoint cutLast (s sep : string) : option (string * string) :=
  match s with
  | EmptyString => if HasPrefix s sep then Some (EmptyString, s) else None
  | String c s' =>
      match cutLast s' sep with
      | Some (before, from) => Some (String c before, from)
      | None => if HasPrefix s sep then Some (EmptyString, s) else None
      end
  end.

(** Non-overlapping scan used by [Count] and [ReplaceAll]; [skip] counts the
    bytes of the current occurrence of [old] still to be passed over. *)
Fixpoint count_from (skip : nat) (s old : string) : nat :=
  match s with
  | EmptyString => O
  | String _ s' =>
      match skip with
      | S k => count_from k s' old
      | O => if HasPrefix s old
             then S (count_from (String.length old - 1) s' old)
             else count_from O s' old
      end
  end.

(** [strings.Count(s, substr)] for a non-empty [substr] (every call here). *)
Definition Count (s substr : string) : Z := Z.of_nat (count_from O s substr).

Fixpoint replace_from (skip : nat) (s old new : string) : string :=
  match s with
  | EmptyString => EmptyString
  | String c s' =>
      match skip with
      | S k => replace_from k s' old new
      | O => if HasPrefix s old
             then new +:+ replace_from (String.length old - 1) s' old new
             else String c (replace_from O s' old new)
      end
  end.

(** [strings.ReplaceAll(s, old, new)] for a non-empty [old] (the only call
    passes the literal placeholder): leftmost non-overlapping occurrences. *)
Definition ReplaceAll (s old new : string) : string := replace_from O s old new.

(** Membership of a byte in a cutset. *)
Fixpoint in_cutset (c : ascii) (cutset : string) : bool :=
  match cutset with
  | EmptyString => false
  | String d rest => Ascii.eqb c d || in_cutset c rest
  end.

(** [strings.TrimLeft(s, cutset)] for an ASCII cutset. *)
Fixpoint TrimLeft (s cutset : string) : string :=
  match s with
  | EmptyString => EmptyString
  | String c s' => if in_cutset c cutset then TrimLeft s' cutset else s
  end.

(** [strings.TrimRight(s, cutset)] for an ASCII cutset. *)
Fixpoint TrimRight (s cutset : string) : string :=
  match s with
  | EmptyString => EmptyString
  | String c s' =>
      match TrimRight s' cutset with
      | EmptyString => if in_cutset c cutset then EmptyString else String c EmptyString
      | rest => String c rest
      end
  end.

(** [strings.Join(elems, sep)]. *)
Fixpoint Join (elems : list string) (sep : string) : string :=
  match elems with
  | [] => EmptyString
  | [e] => e
  | e :: rest => e +:+ sep +:+ Join rest sep
  end.

(** ASCII lower-casing, as [strings.ToLower] does on an ASCII string. *)
Definition lower_byte (c : ascii) : ascii :=
  let n := N_of_ascii c in
  if ((65 <=? n) && (n <=? 90))%N then ascii_of_N (n + 32) else c.

Fixpoint ToLower (s : string) : string :=
  match s with
  | EmptyString => EmptyString
  | String c s' => String (lower_byte c) (ToLower s')
  end.

(** [strings.Split(s, sep)] for a separator of one byte: the fields between
    the occurrences of the byte, one more than there are occurrences. *)
Fixpoint Split (s : string) (sep : ascii) : list string :=
  match s with
  | EmptyString => [EmptyString]
  | String c s' =>
      if Ascii.eqb c sep then EmptyString :: Split s' sep
      else match Split s' sep with
           | [] => [String c EmptyString]
           | field :: fields => String c field :: fields
           end
  end.

(** The bytes of the table [asciiSpace]: tab, line feed, vertical tab, form
    feed, carriage return and space. *)
Definition asciiSpace : string :=
  String "009" (String "010" (String "011" (String "012" (String "013" " ")))).

(** [strings.TrimSpace(s)] for a string of ASCII bytes: the loop from the
    start, then the loop from the end.  (With a byte from 128 on at either
    end Go goes on with the Unicode definition of white space.) *)
Definition TrimSpace (s : string) : string :=
  TrimRight (TrimLeft s asciiSpace) asciiSpace.

End gostrings.

(* ===================================================================== *)
(** * package strconv *)
(* ===================================================================== *)

Module gostrconv.

(** [strconv.Itoa(i)], and [strconv.FormatInt(i, 10)]: decimal digits, with
    a minus sign for a negative number. *)
Definition Itoa (i : Z) : string := NilZero.string_of_int (Z.to_int i).

End gostrconv.

(* ===================================================================== *)
(** * package regexp *)
(* ===================================================================== *)

Module goregexp.

(** A compiled [*regexp.Regexp].  The scanner only ever asks a compiled
    expression whether it matches a string, so a compiled expression is
    modelled by that predicate; parsing of the pattern syntax
    ([regexp.Compile]) is not modelled. *)
Record Regexp : Type := mkRegexp { MatchString : string -> bool }.

(** Regular expressions over bytes, to build compiled expressions from. *)
Inductive Syntax : Type :=
| Fail_ : Syntax                          (* matches nothing *)
| Eps : Syntax                            (* the empty string *)
| Byte : ascii -> Syntax                  (* one given byte *)
| AnyByte : Syntax                        (* [(?s).] *)
| Cat : Syntax -> Syntax -> Syntax
| Alt : Syntax -> Syntax -> Syntax
| Star : Syntax -> Syntax.

Fixpoint nullable (r : Syntax) : bool :=
  match r with
  | Fail_ => false
  | Eps => true
  | Byte _ => false
  | AnyByte => false
  | Cat a b => nullable a && nullable b
  | Alt a b => nullable a || nullable b
  | Star _ => true
  end.

(** Brzozowski derivative: what remains of [r] after reading [c]. *)
Fixpoint deriv (c : ascii) (r : Syntax) : Syntax :=
  match r with
  | Fail_ => Fail_
  | Eps => Fail_
  | Byte d => if Ascii.eqb c d then Eps else Fail_
  | AnyByte => Eps
  | Cat a b =>
      if nullable a then Alt (Cat (deriv c a) b) (deriv c b)
      else Cat (deriv c a) b
  | Alt a b => Alt (deriv c a) (deriv c b)
  | Star a => Cat (deriv c a) (Star a)
  end.

(** Some prefix of [s] is in the language of [r]. *)
Fixpoint matchesPrefix (r : Syntax) (s : string) : bool :=
  nullable r ||
  match s with
  | EmptyString => false
  | String c s' => matchesPrefix (deriv c r) s'
  end.

(** Some substring of [s] is in the language of [r]: an unanchored match. *)
Fixpoint search (r : Syntax) (s : string) : bool :=
  matchesPrefix r s ||
  match s with
  | EmptyString => false
  | String _ s' => search r s'
  end.

Definition compile (r : Syntax) : Regexp := mkRegexp (search r).

(** The literal string [s] as an expression. *)
Fixpoint literal (s : string) : Syntax :=
  match s with
  | EmptyString => Eps
  | String c s' => Cat (Byte c) (literal s')
  end.

End goregexp.

(* ===================================================================== *)
(** * package net/url (Go 1.21): [url.Parse] *)
(* ===================================================================== *)

Module gourl.

(** The fields of [url.URL] that [Parse] fills in, [User] and [RawPath]
    apart: the scanner reads [Path] only. *)
Record URL : Type := mkURL {
  Scheme : string;
  Opaque : string;
  Host : string;
  Path : string;
  ForceQuery : bool;
  RawQuery : string;
  Fragment : string
}.

Definition emptyURL : URL :=
  mkURL EmptyString EmptyString EmptyString EmptyString false EmptyString EmptyString.

(** The escaping modes of net/url that parsing goes through. *)
Inductive encoding : Type :=
| encodePath | encodeHost | encodeZone | encodeUserPassword | encodeFragment.

Definition byte_in (lo hi : N) (c : ascii) : bool :=
  ((lo <=? N_of_ascii c) && (N_of_ascii c <=? hi))%N.

Definition isAlpha (c : ascii) : bool := byte_in 97 122 c || byte_in 65 90 c.
Definition isDigit (c : ascii) : bool := byte_in 48 57 c.

Definition ishex (c : ascii) : bool :=
  isDigit c || byte_in 97 102 c || byte_in 65 70 c.

Definition unhex (c : ascii) : N :=
  let n := N_of_ascii c in
  if isDigit c then (n - 48)%N
  else if byte_in 97 102 c then (n - 97 + 10)%N
  else if byte_in 65 70 c then (n - 65 + 10)%N
  else 0%N.

(** [shouldEscape(c, encodeHost)]. *)
Definition shouldEscapeHost (c : ascii) : bool :=
  if isAlpha c || isDigit c then false
  else if gostrings.in_cutset c "!$&'()*+,;=:[]<>" || Ascii.eqb c "034"%char then false
  else if gostrings.in_cutset c "-_.~" then false
  else true.

Definition isHostMode (mode : encoding) : bool :=
  match mode with encodeHost | encodeZone => true | _ => false end.

(** The checking pass of [unescape]: [true] when it returns an error. *)
Fixpoint unescape_fails (s : string) (mode : encoding) : bool :=
  match s with
  | EmptyString => false
  | String c s' =>
      if Ascii.eqb c "%" then
        match s' with
        | String h1 (String h2 rest) =>
            if negb (ishex h1 && ishex h2) then true
            else if match mode with encodeHost => true | _ => false end
                    && (unhex h1 <? 8)%N
                    && negb (Ascii.eqb h1 "2" && Ascii.eqb h2 "5") then true
            else if match mode with encodeZone => true | _ => false end
                    && negb (Ascii.eqb h1 "2" && Ascii.eqb h2 "5")
                    && negb (unhex h1 * 16 + unhex h2 =? 32)%N
                    && shouldEscapeHost (ascii_of_N (unhex h1 * 16 + unhex h2)) then true
            else unescape_fails rest mode
        | _ => true
        end
      else if Ascii.eqb c "+" then unescape_fails s' mode
      else if isHostMode mode && (N_of_ascii c <? 128)%N && shouldEscapeHost c then true
      else unescape_fails s' mode
  end.

(** The decoding pass of [unescape], run on a string that passed the check;
    none of the modes used by [Parse] turns [+] into a space. *)
Fixpoint unescape_decode (s : string) : string :=
  match s with
  | EmptyString => EmptyString
  | String c s' =>
      if Ascii.eqb c "%" then
        match s' with
        | String h1 (String h2 rest) =>
            String (ascii_of_N (unhex h1 * 16 + unhex h2)) (unescape_decode rest)
        | _ => EmptyString
        end
      else String c (unescape_decode s')
  end.

(** [unescape(s, mode)]: [None] for an error. *)
Definition unescape (s : string) (mode : encoding) : option string :=
  if unescape_fails s mode then None else Some (unescape_decode s).

(** [stringContainsCTLByte]. *)
Fixpoint stringContainsCTLByte (s : string) : bool :=
  match s with
  | EmptyString => false
  | String c s' =>
      (N_of_ascii c <? 32)%N || (N_of_ascii c =? 127)%N || stringContainsCTLByte s'
  end.

(** The three ways [getScheme] ends. *)
Inductive schemeResult : Type :=
| SchemeErr : schemeResult                        (* missing protocol scheme *)
| SchemeNone : schemeResult                       (* ("", rawURL, nil) *)
| SchemeFound : string -> string -> schemeResult. (* (scheme, rest, nil) *)

(** The loop of [getScheme] from byte [i] on; [first] says [i == 0]. *)
Fixpoint getScheme_loop (first : bool) (s : string) : schemeResult :=
  match s with
  | EmptyString => SchemeNone
  | String c s' =>
      if isAlpha c then
        match getScheme_loop false s' with
        | SchemeFound sch rest => SchemeFound (String c sch) rest
        | r => r
        end
      else if isDigit c || gostrings.in_cutset c "+-." then
        if first then SchemeNone
        else match getScheme_loop false s' with
             | SchemeFound sch rest => SchemeFound (String c sch) rest
             | r => r
             end
      else if Ascii.eqb c ":" then
        if first then SchemeErr else SchemeFound EmptyString s'
      else SchemeNone
  end.

Definition getScheme (rawURL : string) : schemeResult := getScheme_loop true rawURL.

(** [validOptionalPort]. *)
Fixpoint allDigits (s : string) : bool :=
  match s with
  | EmptyString => true
  | String c s' => isDigit c && allDigits s'
  end.

Definition validOptionalPort (port : string) : bool :=
  match port with
  | EmptyString => true
  | String c rest => Ascii.eqb c ":" && allDigits rest
  end.

(** [validUserinfo]. *)
Fixpoint validUserinfo (s : string) : bool :=
  match s with
  | EmptyString => true
  | String c s' =>
      (isAlpha c || isDigit c || gostrings.in_cutset c "-._:~!$&'()*+,;=%@")
      && validUserinfo s'
  end.

(** [parseHost]: [true] when it returns an error. *)
Definition parseHost_fails (host : string) : bool :=
  if gostrings.HasPrefix host "[" then
    match gostrings.cutLast host "]" with
    | None => true
    | Some (before, from) =>
        if negb (validOptionalPort (gostrings.drop 1 from)) then true
        else match gostrings.Cut before "%25" with
             | Some (h1, zoneRest) =>
                 unescape_fails h1 encodeHost
                 || unescape_fails ("%25" +:+ zoneRest) encodeZone
                 || unescape_fails from encodeHost
             | None => unescape_fails host encodeHost
             end
    end
  else
    match gostrings.cutLast host ":" with
    | Some (_, colonPort) =>
        if negb (validOptionalPort colonPort) then true
        else unescape_fails host encodeHost
    | None => unescape_fails host encodeHost
    end.

(** [parseAuthority]: [true] when it returns an error. *)
Definition parseAuthority_fails (authority : string) : bool :=
  match gostrings.cutLast authority "@" with
  | None => parseHost_fails authority
  | Some (userinfo, atHost) =>
      if parseHost_fails (gostrings.drop 1 atHost) then true
      else if negb (validUserinfo userinfo) then true
      else if negb (gostrings.Contains userinfo ":")
           then unescape_fails userinfo encodeUserPassword
           else unescape_fails (gostrings.Cut_before userinfo ":") encodeUserPassword
                || unescape_fails (gostrings.Cut_after userinfo ":") encodeUserPassword
  end.

(** [parse(rawURL, false)]: [None] for an error. *)
Definition parse (rawURL : string) : option URL :=
  if stringContainsCTLByte rawURL then None
  else if String.eqb rawURL "*" then
    Some (mkURL EmptyString EmptyString EmptyString "*" false EmptyString EmptyString)
  else
    match getScheme rawURL with
    | SchemeErr => None
    | sr =>
        let scheme := match sr with
                      | SchemeFound sch _ => gostrings.ToLower sch
                      | _ => EmptyString
                      end in
        let rest0 := match sr with SchemeFound _ r => r | _ => rawURL end in
        let force := gostrings.HasSuffix rest0 "?" && (gostrings.Count rest0 "?" =? 1) in
        let rest := if force then String.substring 0 (String.length rest0 - 1) rest0
                    else gostrings.Cut_before rest0 "?" in
        let query := if force then EmptyString else gostrings.Cut_after rest0 "?" in
        if negb (gostrings.HasPrefix rest "/") && negb (String.eqb scheme EmptyString) then
          (* rootless path after a scheme: opaque *)
          Some (mkURL scheme rest EmptyString EmptyString force query EmptyString)
        else if negb (gostrings.HasPrefix rest "/")
                && gostrings.Contains (gostrings.Cut_before rest "/") ":" then
          (* first path segment in URL cannot contain colon *)
          None
        else
          let hasAuthority :=
            (negb (String.eqb scheme EmptyString) || negb (gostrings.HasPrefix rest "///"))
            && gostrings.HasPrefix rest "//" in
          let authFull := gostrings.drop 2 rest in
          let authority := if hasAuthority then gostrings.Cut_before authFull "/"
                           else EmptyString in
          let pathPart :=
            if hasAuthority
            then match gostrings.Cut authFull "/" with
                 | Some (_, after) => "/" +:+ after
                 | None => EmptyString
                 end
            else rest in
          if hasAuthority && parseAuthority_fails authority then None
          else
            match unescape pathPart encodePath with
            | None => None
            | Some path =>
                let host := if hasAuthority
                            then match gostrings.cutLast authority "@" with
                                 | Some (_, atHost) => gostrings.drop 1 atHost
                                 | None => authority
                                 end
                            else EmptyString in
                Some (mkURL scheme EmptyString host path force query EmptyString)
            end
    end.

(** [url.Parse(rawURL)]: [None] for an error.  [Host] is kept as written. *)
Definition Parse (rawURL : string) : option URL :=
  let u := gostrings.Cut_before rawURL "#" in
  let frag := gostrings.Cut_after rawURL "#" in
  match parse u with
  | None => None
  | Some url =>
      if String.eqb frag EmptyString then Some url
      else match unescape frag encodeFragment with
           | None => None
           | Some f =>
               Some (mkURL (Scheme url) (Opaque url) (Host url) (Path url)
                           (ForceQuery url) (RawQuery url) f)
           end
  end.

End gourl.

(* ===================================================================== *)
(** * package net/http, as far as the scanner sees it *)
(* ===================================================================== *)

Module gohttp.

(** An [*http.Response]: the status code, the header and what
    [io.ReadAll(resp.Body)] gives ([BodyReadErr] when it returns an error,
    as it does on the closed body of a failed redirect). *)
Record Response : Type := mkResponse {
  RespStatusCode : Z;
  Header : gmap string (list string);
  BodyBytes : string;
  BodyReadErr : bool
}.

(** The two results [(resp, err)] of [client.Do]: [err == nil] comes with a
    response; an error comes without one, except when a redirect policy
    fails, where the last response is returned next to the error. *)
Inductive DoOutcome : Type :=
| DoOk : Response -> DoOutcome
| DoErr : option Response -> string -> DoOutcome.

Definition outcome_resp (o : DoOutcome) : option Response :=
  match o with DoOk r => Some r | DoErr r _ => r end.

Definition outcome_err (o : DoOutcome) : option string :=
  match o with DoOk _ => None | DoErr _ e => Some e end.

End gohttp.

(* ===================================================================== *)
(** * pkg/logger *)
(* ===================================================================== *)

Module logger.

(** [Level] is an [int]; the constants are [iota] from 0. *)
Definition LevelDebug : Z := 0.
Definition LevelInfo : Z := 1.
Definition LevelWarn : Z := 2.
Definition LevelError : Z := 3.

Definition levelNames : gmap Z string :=
  <[LevelDebug := "DEBUG"]> (<[LevelInfo := "INFO"]>
    (<[LevelWarn := "WARN"]> (<[LevelError := "ERROR"]> ∅))).

(** The [Logger] struct, as far as what is logged depends on it. *)
Record Logger : Type := mkLogger { level : Z }.

(** The loop of [log] over the key-value arguments, each already printed as
    the verb [%v] prints it: pairs are appended, a last key without a value
    is passed over. *)
Fixpoint formatKeyvals (keyvals : list string) : string :=
  match keyvals with
  | k :: v :: rest => " " +:+ k +:+ "=" +:+ v +:+ formatKeyvals rest
  | _ => EmptyString
  end.

(** The line that [log] prints; [timestamp] is the formatted [time.Now()].
    A level that is not a key of [levelNames] has the empty name. *)
Definition log (timestamp : string) (lvl : Z) (msg : string) (keyvals : list string)
  : string :=
  let levelName := default EmptyString (levelNames !! lvl) in
  "[" +:+ timestamp +:+ "] [" +:+ levelName +:+ "] " +:+ msg +:+ formatKeyvals keyvals.

(** The four methods: the lines printed, none when the logger's level is
    above the level of the method. *)
Definition Debug (l : Logger) (timestamp msg : string) (keyvals : list string)
  : list string :=
  if level l <=? LevelDebug then [log timestamp LevelDebug msg keyvals] else [].

Definition Info (l : Logger) (timestamp msg : string) (keyvals : list string)
  : list string :=
  if level l <=? LevelInfo then [log timestamp LevelInfo msg keyvals] else [].

Definition Warn (l : Logger) (timestamp msg : string) (keyvals : list string)
  : list string :=
  if level l <=? LevelWarn then [log timestamp LevelWarn msg keyvals] else [].

Definition Error (l : Logger) (timestamp msg : string) (keyvals : list string)
  : list string :=
  if level l <=? LevelError then [log timestamp LevelError msg keyvals] else [].

Definition SetLevel (l : Logger) (lvl : Z) : Logger := mkLogger lvl.

End logger.

(* ===================================================================== *)
(** * pkg/config *)
(* ===================================================================== *)

Module config.

Record OutputConfig : Type := mkOutputConfig {
  Format : string;
  File : string;
  Verbose : bool;
  ShowErrors : bool
}.

Record ScannerConfig : Type := mkScannerConfig {
  Methods : list string;
  Extensions : list string;
  SkipSSLVerify : bool;
  FollowRedirects : bool;
  MaxRedirects : Z
}.

Record RateLimitConfig : Type := mkRateLimitConfig {
  Enabled : bool;
  RequestsPerSecond : Z;
  Delay : Z
}.

Record FilterConfig : Type := mkFilterConfig {
  StatusCodes : list Z;
  ExcludeStatus : list Z;
  MinSize : Z;
  MaxSize : Z;
  IncludeRegex : string;
  ExcludeRegex : string;
  IncludeWords : list string;
  ExcludeWords : list string
}.

(** Durations are counted in nanoseconds, as [time.Duration] does. *)
Record Config : Type := mkConfig {
  Target : string;
  Wordlist : string;
  Threads : Z;
  Timeout : Z;
  Output : OutputConfig;
  Scanner : ScannerConfig;
  RateLimit : RateLimitConfig;
  Filters : FilterConfig;
  Headers : gmap string string;
  UserAgent : string;
  Recursive : bool;
  MaxDepth : Z;
  RetryCount : Z;
  RetryDelay : Z
}.

Definition second : Z := 1000000000.

Definition DefaultConfig : Config := {|
  Target := EmptyString;
  Wordlist := "dicc.txt";
  Threads := 20;
  Timeout := 10 * second;
  Output := {| Format := "console"; File := EmptyString; Verbose := false; ShowErrors := false |};
  Scanner := {| Methods := ["GET"]; Extensions := ["php"; "html"; "js"; "txt"];
                SkipSSLVerify := true; FollowRedirects := false; MaxRedirects := 3 |};
  RateLimit := {| Enabled := false; RequestsPerSecond := 10; Delay := 0 |};
  Filters := {| StatusCodes := []; ExcludeStatus := [404; 400; 403];
                MinSize := 0; MaxSize := 0;
                IncludeRegex := EmptyString; ExcludeRegex := EmptyString;
                IncludeWords := []; ExcludeWords := [] |};
  Headers := ∅;
  UserAgent := "dirsearch-go/0.01";
  Recursive := false;
  MaxDepth := 3;
  RetryCount := 3;
  RetryDelay := 1 * second
|}.

(** [Validate]: [None] for [nil], otherwise the error text. *)
Definition Validate (c : Config) : option string :=
  if String.eqb (Target c) EmptyString then Some "目标URL不能为空"
  else if Threads c <=? 0 then Some "线程数必须大于0"
  else if Timeout c <=? 0 then Some "超时时间必须大于0"
  else if MaxDepth c <? 0 then Some "递归深度不能为负数"
  else if RetryCount c <? 0 then Some "重试次数不能为负数"
  else None.

(** The body of the loop of [ParseFlags] over the extensions. *)
Definition normalizeExtension (ext : string) : string :=
  let ext := gostrings.TrimSpace ext in
  if gostrings.HasPrefix ext "." then gostrings.drop 1 ext else ext.

(** What [ParseFlags] makes of the flag [-e]: the extensions of the
    configuration, [defaults] being those of [DefaultConfig]. *)
Definition ParseFlags_extensions (extensions : string) (defaults : list string)
  : list string :=
  if negb (String.eqb extensions EmptyString)
  then map normalizeExtension (gostrings.Split extensions ","%char)
  else defaults.

End config.

(* ===================================================================== *)
(** * pkg/scanner *)
(* ===================================================================== *)

Module scanner.

Record Result : Type := mkResult {
  URL : string;
  StatusCode : Z;
  Size : Z;
  Headers : gmap string string;      (* [∅] also stands for a nil map *)
  Body : string;
  Error : string;
  Depth : Z;
  Method : string;
  Timestamp : Z
}.

(** The [Scanner] struct.  The HTTP client is part of the environment below.
    [rateLimiter] is [None] for a nil channel and otherwise holds the
    capacity the channel was made with; what the channel buffers is shared
    with the refilling goroutine and lives in [bucket] states. *)
Record Scanner : Type := mkScanner {
  config : config.Config;
  includeRegex : option goregexp.Regexp;
  excludeRegex : option goregexp.Regexp;
  rateLimiter : option Z
}.

(** ** The environment of a worker

    Everything a goroutine running the scanner observes from outside: the
    network, the cancellation of its context and the scheduling of its
    [select] on the rate limiter.  Each is an oracle indexed by how many
    observations of its kind came before, so that quantifying over
    environments covers every behaviour of the outside world. *)

(** Which case of the [select] in [ScanURL] fired. *)
Inductive selectOutcome : Type :=
| recvToken : selectOutcome     (* [case <-s.rateLimiter] *)
| recvDone : selectOutcome.     (* [case <-ctx.Done()] *)

Record Env : Type := mkEnv {
  (** the error of [http.NewRequestWithContext(ctx, method, url, nil)], if any *)
  NewRequestWithContext_err : string -> string -> option string;
  (** the outcome of the k-th call of [s.client.Do], for a method and URL *)
  client_Do : nat -> string -> string -> gohttp.DoOutcome;
  (** what the k-th non-blocking poll of [ctx.Done()] finds *)
  ctx_Done : nat -> bool;
  (** which case the k-th [select] on the rate limiter ends with *)
  rateLimiter_select : nat -> selectOutcome
}.

(** What a goroutine has done so far. *)
Record World : Type := mkWorld {
  requests : nat;      (* calls of [client.Do] *)
  polls : nat;         (* polls of [ctx.Done()] *)
  selects : nat;       (* completed selects on the rate limiter *)
  clock : Z            (* the time, in nanoseconds; [time.Sleep] advances it *)
}.

Definition world0 : World := mkWorld 0 0 0 0.

(** [s.client.Do(req)]. *)
Definition Do (env : Env) (method url : string) (w : World) : gohttp.DoOutcome * World :=
  (client_Do env (requests w) method url,
   mkWorld (S (requests w)) (polls w) (selects w) (clock w)).

(** [time.Sleep(d)]: returns at once for [d <= 0]. *)
Definition Sleep (d : Z) (w : World) : World :=
  mkWorld (requests w) (polls w) (selects w) (clock w + Z.max 0 d).

(** [select { case <-ctx.Done(): ...; default: ... }]. *)
Definition pollDone (env : Env) (w : World) : bool * World :=
  (ctx_Done env (polls w),
   mkWorld (requests w) (S (polls w)) (selects w) (clock w)).

(** [select { case <-s.rateLimiter: ; case <-ctx.Done(): ... }]. *)
Definition selectLimiter (env : Env) (w : World) : selectOutcome * World :=
  (rateLimiter_select env (selects w),
   mkWorld (requests w) (polls w) (S (selects w)) (clock w)).

(** [ctx.Err().Error()] of a cancelled context. *)
Definition Canceled : string := "context canceled".

(** ** makeRequest *)

(** How the retry loop is left: by [break] or by its condition, with the
    function's variables [err] and [resp]; or by the [return] inside it. *)
Inductive loopExit : Type :=
| loopDone : option string -> option gohttp.Response -> loopExit
| loopReturn : string -> loopExit.

(** The retry loop, over the values [i] takes ([0 .. RetryCount]).

    [err_fn] and [resp] are the variables declared at the top of
    [makeRequest].  In the body, [req, err := http.NewRequestWithContext(..)]
    declares a new [err] in the scope of the body, and it is that variable
    which [resp, err = s.client.Do(req)] assigns and the two tests read;
    [resp] is the function's.  The loop never assigns [err_fn]. *)
Fixpoint retryLoop (env : Env) (s : Scanner) (method url : string)
  (indices : list Z) (err_fn : option string) (resp : option gohttp.Response)
  (w : World) : loopExit * World :=
  match indices with
  | [] => (loopDone err_fn resp, w)
  | i :: indices' =>
      match NewRequestWithContext_err env method url with
      | Some e => (loopReturn ("创建请求失败: " +:+ e), w)
      | None =>
          let '(out, w1) := Do env method url w in
          let resp := gohttp.outcome_resp out in
          let err := gohttp.outcome_err out in
          match err with
          | None => (loopDone err_fn resp, w1)
          | Some _ =>
              let w2 := if i <? config.RetryCount (config s)
                        then Sleep (config.RetryDelay (config s)) w1
                        else w1 in
              retryLoop env s method url indices' err_fn resp w2
          end
      end
  end.

(** The values of [i] in [for i := 0; i <= RetryCount; i++] (exact for
    [RetryCount < 2^63 - 1], where [i++] cannot wrap around). *)
Definition retryIndices (retryCount : Z) : list Z :=
  map Z.of_nat (seq 0 (Z.to_nat (retryCount + 1))).

(** [makeRequest]; its two results are a [Result] pointer and an [error],
    each [None] when nil. *)
Definition makeRequest (env : Env) (s : Scanner) (method url : string) (depth : Z)
  (w : World) : (option Result * option string) * World :=
  let '(exit, w1) :=
    retryLoop env s method url (retryIndices (config.RetryCount (config s))) None None w in
  match exit with
  | loopReturn e => ((None, Some e), w1)
  | loopDone err resp =>
      match err with
      | Some e =>
          ((Some {| URL := url; StatusCode := 0; Size := 0; Headers := ∅;
                    Body := EmptyString; Error := e; Depth := depth;
                    Method := method; Timestamp := clock w1 |}, None), w1)
      | None =>
          match resp with
          | None =>
              ((Some {| URL := url; StatusCode := 0; Size := 0; Headers := ∅;
                        Body := EmptyString; Error := "响应为空"; Depth := depth;
                        Method := method; Timestamp := clock w1 |}, None), w1)
          | Some resp =>
              let body := if gohttp.BodyReadErr resp then EmptyString
                          else gohttp.BodyBytes resp in
              let verbose := config.Verbose (config.Output (config s)) in
              ((Some {| URL := url;
                        StatusCode := gohttp.RespStatusCode resp;
                        Size := gostrings.len body;
                        Headers := if verbose
                                   then (fun values => gostrings.Join values ", ")
                                          <$> gohttp.Header resp
                                   else ∅;
                        Body := if verbose then body else EmptyString;
                        Error := EmptyString;
                        Depth := depth;
                        Method := method;
                        Timestamp := clock w1 |}, None), w1)
          end
      end
  end.

(** ** shouldIncludeResult *)

(** [for _, code := range codes { if status == code { ... } }]: some code of
    the list equals the status. *)
Fixpoint statusListed (codes : list Z) (status : Z) : bool :=
  match codes with
  | [] => false
  | code :: rest => if status =? code then true else statusListed rest status
  end.

(** [for _, word := range words { if strings.Contains(body, word) { ... } }]. *)
Fixpoint wordListed (words : list string) (body : string) : bool :=
  match words with
  | [] => false
  | word :: rest => if gostrings.Contains body word then true else wordListed rest body
  end.

Definition shouldIncludeResult (s : Scanner) (result : Result) : bool :=
  let f := config.Filters (config s) in
  if (0 <? Z.of_nat (length (config.StatusCodes f)))
     && negb (statusListed (config.StatusCodes f) (StatusCode result)) then false
  else if statusListed (config.ExcludeStatus f) (StatusCode result) then false
  else if (config.MinSize f >? 0) && (Size result <? config.MinSize f) then false
  else if (config.MaxSize f >? 0) && (Size result >? config.MaxSize f) then false
  else if match includeRegex s with
          | Some re => negb (goregexp.MatchString re (Body result))
          | None => false
          end then false
  else if match excludeRegex s with
          | Some re => goregexp.MatchString re (Body result)
          | None => false
          end then false
  else if (0 <? Z.of_nat (length (config.IncludeWords f)))
          && negb (wordListed (config.IncludeWords f) (Body result)) then false
  else if wordListed (config.ExcludeWords f) (Body result) then false
  else true.

(** ** ExtractPaths *)

Definition dquote : ascii := "034"%char.
Definition squote : ascii := "'"%char.

(** A byte matched by the class of the two quote characters. *)
Definition isQuote (c : ascii) : bool := Ascii.eqb c dquote || Ascii.eqb c squote.

(** The longest run of bytes other than quotes at the start of [s], and
    what follows it: the greedy match of the group, one or more bytes that
    are not quotes. *)
Fixpoint spanValue (s : string) : string * string :=
  match s with
  | EmptyString => (EmptyString, EmptyString)
  | String c s' =>
      if isQuote c then (EmptyString, s)
      else let '(v, rest) := spanValue s' in (String c v, rest)
  end.

(** A match of the path expression (the text [href=], a quote, the group, a
    quote) starting at the first byte of [s]: the whole match and the group.
    The group is greedy and the byte after it must be a quote, so the only
    candidate is the longest run. *)
Definition matchHrefAt (s : string) : option (string * string) :=
  if gostrings.HasPrefix s "href=" then
    match gostrings.drop 5 s with
    | String q rest =>
        if isQuote q then
          match spanValue rest with
          | (String v0 v', String q' _) =>
              Some ("href=" +:+ String q (String v0 v' +:+ String q' EmptyString),
                    String v0 v')
          | _ => None
          end
        else None
    | EmptyString => None
    end
  else None.

(** [pathRegex.FindAllStringSubmatch(body, -1)]: the successive leftmost
    matches, none overlapping the one before; each match is the slice of the
    whole match and the group.  [skip] counts the bytes of the last match
    still to be passed over. *)
Fixpoint findAllHref (skip : nat) (s : string) : list (list string) :=
  match s with
  | EmptyString => []
  | String _ s' =>
      match skip with
      | S k => findAllHref k s'
      | O =>
          match matchHrefAt s with
          | Some (whole, group) =>
              [whole; group] :: findAllHref (String.length whole - 1) s'
          | None => findAllHref O s'
          end
      end
  end.

Definition FindAllStringSubmatch_pathRegex (body : string) : list (list string) :=
  findAllHref O body.

(** The loop of [ExtractPaths] over the matches, with its accumulator. *)
Fixpoint extractLoop (matches : list (list string)) (paths : list string) : list string :=
  match matches with
  | [] => paths
  | m :: rest =>
      let paths :=
        if (1 <? Z.of_nat (length m)) then
          let path := nth 1 m EmptyString in
          if negb (gostrings.HasPrefix path "http")
             && negb (gostrings.HasPrefix path "mailto:")
             && negb (gostrings.HasPrefix path "#")
             && negb (gostrings.HasPrefix path "javascript:")
          then
            match gourl.Parse path with
            | Some u =>
                if negb (String.eqb (gourl.Path u) EmptyString)
                then paths ++ [gostrings.TrimPrefix (gourl.Path u) "/"]
                else paths
            | None => paths
            end
          else paths
        else paths in
      extractLoop rest paths
  end.

Definition ExtractPaths (s : Scanner) (result : Result) : list string :=
  if String.eqb (Body result) EmptyString then []
  else extractLoop (FindAllStringSubmatch_pathRegex (Body result)) [].

(** ** The rate limiter *)

(** The buffer of the channel [rateLimiter]: how many tokens it holds and
    the capacity it was made with.  The channel is modelled while it is
    open; [Close] closes it after the workers have returned. *)
Record bucket : Type := mkBucket {
  capacity : Z;
  tokens : Z
}.

(** [make(chan struct{}, capacity)]: an empty buffer. *)
Definition makeBucket (cap : Z) : bucket := mkBucket cap 0.

(** One tick of [fillRateLimiter]: a send in a [select] with an empty
    [default].  The send goes into the buffer when there is room; otherwise
    the default case runs and the token is dropped.  (A token handed to a
    receiver that is already waiting never enters the buffer.) *)
Definition fillRateLimiter_tick (b : bucket) : bucket :=
  if tokens b <? capacity b then mkBucket (capacity b) (tokens b + 1) else b.

(** The receive of [ScanURL] from the buffer: [None] when the buffer is
    empty and the receive cannot proceed. *)
Definition receiveToken (b : bucket) : option bucket :=
  if 0 <? tokens b then Some (mkBucket (capacity b) (tokens b - 1)) else None.

(** What happens to the channel: ticks of the refilling goroutine and
    receives by workers, in any order. *)
Inductive bucketOp : Type := opTick | opReceive.

Definition bucketStep (b : bucket) (op : bucketOp) : option bucket :=
  match op with
  | opTick => Some (fillRateLimiter_tick b)
  | opReceive => receiveToken b
  end.

(** A schedule of operations; [None] when a receive in it cannot proceed. *)
Fixpoint bucketRun (b : bucket) (ops : list bucketOp) : option bucket :=
  match ops with
  | [] => Some b
  | op :: rest =>
      match bucketStep b op with
      | Some b' => bucketRun b' rest
      | None => None
      end
  end.

(** [New], from the configuration and the outcome of compiling the two
    patterns ([regexp.Compile] is given as a function; [None] is an error). *)
Definition New (compile : string -> option goregexp.Regexp) (cfg : config.Config)
  : option Scanner :=
  let f := config.Filters cfg in
  match (if negb (String.eqb (config.IncludeRegex f) EmptyString)
         then option_map Some (compile (config.IncludeRegex f)) else Some None) with
  | None => None
  | Some inc =>
      match (if negb (String.eqb (config.ExcludeRegex f) EmptyString)
             then option_map Some (compile (config.ExcludeRegex f)) else Some None) with
      | None => None
      | Some exc =>
          Some {| config := cfg;
                  includeRegex := inc;
                  excludeRegex := exc;
                  rateLimiter :=
                    if config.Enabled (config.RateLimit cfg)
                    then Some (config.RequestsPerSecond (config.RateLimit cfg))
                    else None |}
      end
  end.

(** ** ScanURL *)

(** The loop of [ScanURL] over the configured methods. *)
Fixpoint tryMethods (env : Env) (s : Scanner) (methods : list string)
  (fullURL : string) (depth : Z) (w : World)
  : (option Result * option string) * World :=
  match methods with
  | [] => ((None, None), w)
  | method :: rest =>
      let '((result, err), w1) := makeRequest env s method fullURL depth w in
      match err with
      | Some _ => tryMethods env s rest fullURL depth w1
      | None =>
          match result with
          | Some r =>
              if shouldIncludeResult s r then ((Some r, None), w1)
              else tryMethods env s rest fullURL depth w1
          | None => tryMethods env s rest fullURL depth w1
          end
      end
  end.

(** The part of [ScanURL] after the rate limiter. *)
Definition scanAfterLimiter (env : Env) (s : Scanner) (targetURL path : string)
  (depth : Z) (w : World) : (option Result * option string) * World :=
  if gostrings.Contains path "%FUZZ%" then ((None, None), w)
  else
    let fullURL :=
      gostrings.TrimRight targetURL "/" +:+ "/" +:+ gostrings.TrimLeft path "/" in
    tryMethods env s (config.Methods (config.Scanner (config s))) fullURL depth w.

Definition ScanURL (env : Env) (s : Scanner) (targetURL path : string)
  (depth : Z) (w : World) : (option Result * option string) * World :=
  match rateLimiter s with
  | Some _ =>
      let '(o, w1) := selectLimiter env w in
      match o with
      | recvToken => scanAfterLimiter env s targetURL path depth w1
      | recvDone => ((None, Some Canceled), w1)
      end
  | None => scanAfterLimiter env s targetURL path depth w
  end.

End scanner.

(* ===================================================================== *)
(** * pkg/output *)
(* ===================================================================== *)

Module output.

(** What a buffered writer commits to its file in one [Flush]: one complete
    document holding the results.  The encoders that render it as JSON or
    CSV text are outside the model, and so is a write that fails halfway. *)
Inductive Document : Type :=
| JSONDocument : list scanner.Result -> Document
| CSVDocument : list scanner.Result -> Document.

(** What the writers do that can be observed: a call of [Flush] on the
    buffered writer of a file, and a file created and written anew. *)
Inductive Call : Type :=
| CallFlush : string -> Call
| CallCreate : string -> Call.

(** The files, the paths on which [os.Create] fails, and the calls so far. *)
Record IO : Type := mkIO {
  createFails : string -> bool;
  files : gmap string Document;
  calls : list Call
}.

(** The implementations of [Writer] that the program constructs.  A value
    is the state of the writer object; [Write] returns the new state. *)
Inductive Writer : Type :=
| ConsoleWriter : bool -> Writer
| BufferedJSONWriter : string -> list scanner.Result -> Writer
| BufferedCSVWriter : string -> list scanner.Result -> Writer
| MultiWriter : list Writer -> Writer.

(** The type assertion [writer.(BufferedWriter)]: the writer has a [Flush]
    method. *)
Definition isBufferedWriter (w : Writer) : bool :=
  match w with
  | ConsoleWriter _ => false
  | BufferedJSONWriter _ _ => true
  | BufferedCSVWriter _ _ => true
  | MultiWriter _ => true
  end.

Definition NewConsoleWriter (verbose : bool) : Writer := ConsoleWriter verbose.
Definition NewBufferedJSONWriter (filename : string) : Writer := BufferedJSONWriter filename [].
Definition NewBufferedCSVWriter (filename : string) : Writer := BufferedCSVWriter filename [].
Definition NewMultiWriter (writers : list Writer) : Writer := MultiWriter writers.

(** [Write]: the new state and the error, if any.  What the console writer
    prints is not modelled. *)
Fixpoint Write (w : Writer) (result : scanner.Result) : Writer * option string :=
  match w with
  | ConsoleWriter v => (ConsoleWriter v, None)
  | BufferedJSONWriter f rs => (BufferedJSONWriter f (rs ++ [result]), None)
  | BufferedCSVWriter f rs => (BufferedCSVWriter f (rs ++ [result]), None)
  | MultiWriter ws =>
      let '(ws', e) :=
        (fix each (ws : list Writer) : list Writer * option string :=
           match ws with
           | [] => ([], None)
           | x :: rest =>
               match Write x result with
               | (x', Some e) => (x' :: rest, Some e)
               | (x', None) => let '(rest', e) := each rest in (x' :: rest', e)
               end
           end) ws in
      (MultiWriter ws', e)
  end.

(** The body shared by the two buffered [Flush] methods: nothing is done
    for an empty buffer; otherwise the file is created anew and the whole
    document written. *)
Definition flushDocument (filename : string) (results : list scanner.Result)
  (doc : Document) (io : IO) : option string * IO :=
  let io1 := mkIO (createFails io) (files io) (calls io ++ [CallFlush filename]) in
  match results with
  | [] => (None, io1)
  | _ :: _ =>
      if createFails io filename then (Some "创建文件失败", io1)
      else (None, mkIO (createFails io) (<[filename := doc]> (files io))
                       (calls io1 ++ [CallCreate filename]))
  end.

(** [Flush], for the writers that have it. *)
Fixpoint Flush (w : Writer) (io : IO) : option string * IO :=
  match w with
  | ConsoleWriter _ => (None, io)
  | BufferedJSONWriter f rs => flushDocument f rs (JSONDocument rs) io
  | BufferedCSVWriter f rs => flushDocument f rs (CSVDocument rs) io
  | MultiWriter ws =>
      (fix each (ws : list Writer) (io : IO) : option string * IO :=
         match ws with
         | [] => (None, io)
         | x :: rest =>
             if isBufferedWriter x then
               match Flush x io with
               | (Some e, io') => (Some e, io')
               | (None, io') => each rest io'
               end
             else each rest io
         end) ws io
  end.

(** [Close]: the buffered writers close by flushing. *)
Fixpoint Close (w : Writer) (io : IO) : option string * IO :=
  match w with
  | ConsoleWriter _ => (None, io)
  | BufferedJSONWriter _ _ => Flush w io
  | BufferedCSVWriter _ _ => Flush w io
  | MultiWriter ws =>
      (fix each (ws : list Writer) (io : IO) : option string * IO :=
         match ws with
         | [] => (None, io)
         | x :: rest =>
             match Close x io with
             | (Some e, io') => (Some e, io')
             | (None, io') => each rest io'
             end
         end) ws io
  end.

(** [CreateBufferedWriter]: [None] for an error. *)
Definition CreateBufferedWriter (format filename : string) (verbose : bool)
  : option Writer :=
  if String.eqb format "console" then Some (NewConsoleWriter verbose)
  else if String.eqb format "json" then
    if String.eqb filename EmptyString then None
    else Some (NewBufferedJSONWriter filename)
  else if String.eqb format "csv" then
    if String.eqb filename EmptyString then None
    else Some (NewBufferedCSVWriter filename)
  else None.

(** How often [Flush] was called on the buffered writer of [filename]. *)
Fixpoint flushCalls (filename : string) (cs : list Call) : nat :=
  match cs with
  | [] => O
  | CallFlush f :: rest =>
      if String.eqb f filename then S (flushCalls filename rest)
      else flushCalls filename rest
  | CallCreate _ :: rest => flushCalls filename rest
  end.

(** How often the file [filename] was created and written. *)
Fixpoint commits (filename : string) (cs : list Call) : nat :=
  match cs with
  | [] => O
  | CallCreate f :: rest =>
      if String.eqb f filename then S (commits filename rest)
      else commits filename rest
  | CallFlush _ :: rest => commits filename rest
  end.

(** ** What the writers put on the terminal and into their files *)

(** A line feed. *)
Definition nl : string := String "010"%char EmptyString.



(** The streaming [JSONWriter]: the text written to its file so far and
    the flag [first].  [encode] is what [encoder.Encode] writes for a result
    (the JSON text and a line feed).  Writes to the file are taken to
    succeed. *)
Record JSONWriter : Type := mkJSONWriter {
  jsonText : string;
  first : bool
}.

Definition NewJSONWriter : JSONWriter := mkJSONWriter ("[" +:+ nl) true.

Definition JSONWriter_Write (encode : scanner.Result -> string) (w : JSONWriter)
  (result : scanner.Result) : JSONWriter :=
  let text :=
    if negb (first w) then jsonText w +:+ "," +:+ nl else jsonText w in
  mkJSONWriter (text +:+ "  " +:+ encode result) false.

(** [JSONWriter.Close]: the text of the file when it is closed. *)
Definition JSONWriter_Close (w : JSONWriter) : string := jsonText w +:+ nl +:+ "]".

(** The loop of [BufferedJSONWriter.Flush] over the results with their
    index, appending to the text written so far. *)
Fixpoint flushJSONLoop (encode : scanner.Result -> string) (i : Z)
  (results : list scanner.Result) (text : string) : string :=
  match results with
  | [] => text
  | result :: rest =>
      let text := if 0 <? i then text +:+ "," +:+ nl else text in
      flushJSONLoop encode (i + 1) rest (text +:+ "  " +:+ encode result)
  end.

(** The text that [BufferedJSONWriter.Flush] writes; [None] when it returns
    before creating the file. *)
Definition BufferedJSONWriter_Flush_text (encode : scanner.Result -> string)
  (results : list scanner.Result) : option string :=
  match results with
  | [] => None
  | _ :: _ => Some (flushJSONLoop encode 0 results ("[" +:+ nl) +:+ nl +:+ "]")
  end.

(** The header and the record of the CSV writers; [rfc3339] is
    [Timestamp.Format(time.RFC3339)]. *)
Definition csvHeader : list string :=
  ["URL"; "StatusCode"; "Size"; "Method"; "Depth"; "Timestamp"; "Error"].

Definition csvRecord (rfc3339 : Z -> string) (result : scanner.Result) : list string :=
  [scanner.URL result;
   gostrconv.Itoa (scanner.StatusCode result);
   gostrconv.Itoa (scanner.Size result);
   scanner.Method result;
   gostrconv.Itoa (scanner.Depth result);
   rfc3339 (scanner.Timestamp result);
   scanner.Error result].

(** The streaming [CSVWriter]: the records handed to the CSV encoder so far
    and the flag [header]. *)
Record CSVWriter : Type := mkCSVWriter {
  csvRows : list (list string);
  header : bool
}.

Definition NewCSVWriter : CSVWriter := mkCSVWriter [] false.

Definition CSVWriter_Write (rfc3339 : Z -> string) (w : CSVWriter)
  (result : scanner.Result) : CSVWriter :=
  let rows := if negb (header w) then csvRows w ++ [csvHeader] else csvRows w in
  mkCSVWriter (rows ++ [csvRecord rfc3339 result]) true.

(** The loop of [BufferedCSVWriter.Flush] over the results. *)
Fixpoint flushCSVLoop (rfc3339 : Z -> string) (results : list scanner.Result)
  (rows : list (list string)) : list (list string) :=
  match results with
  | [] => rows
  | result :: rest => flushCSVLoop rfc3339 rest (rows ++ [csvRecord rfc3339 result])
  end.

(** The records that [BufferedCSVWriter.Flush] writes; [None] when it
    returns before creating the file. *)
Definition BufferedCSVWriter_Flush_rows (rfc3339 : Z -> string)
  (results : list scanner.Result) : option (list (list string)) :=
  match results with
  | [] => None
  | _ :: _ => Some (flushCSVLoop rfc3339 results [csvHeader])
  end.

End output.

(* ===================================================================== *)
(** * cmd/main.go *)
(* ===================================================================== *)

Module app.

(** What is sent on [outputChan]. *)
Inductive Message : Type :=
| msgResult : scanner.Result -> Message
| progressIncrement : Z -> Message
| progressMaxChange : Z -> Message
| statusMessage : string -> bool -> Message.

(** The fields of [App] that the functions below read; [writer] is [None]
    for nil. *)
Record App : Type := mkApp {
  config : config.Config;
  scanner : scanner.Scanner;
  writer : option output.Writer
}.

(** The writer that [NewApp] builds: the console writer, together with a
    buffered file writer when an output file is given.  The outer [None] is
    the error of [CreateBufferedWriter]. *)
Definition NewApp_writer (cfg : config.Config) : option output.Writer :=
  let o := config.Output cfg in
  let consoleWriter := output.NewConsoleWriter (config.Verbose o) in
  if negb (String.eqb (config.File o) EmptyString) then
    match output.CreateBufferedWriter (config.Format o) (config.File o) (config.Verbose o) with
    | None => None
    | Some fileWriter => Some (output.NewMultiWriter [consoleWriter; fileWriter])
    end
  else Some consoleWriter.

(** ** The dispatcher *)

(** The job sent for a line with the placeholder and one extension. *)
Definition expandWord (word ext : string) : string :=
  let extToUse :=
    if gostrings.Contains word ".%EXT%" then ext
    else if negb (gostrings.HasPrefix ext ".") then "." +:+ ext
    else ext in
  gostrings.ReplaceAll word "%EXT%" extToUse.

(** [for _, ext := range a.config.Scanner.Extensions { ...; jobs <- newWord }]. *)
Fixpoint expandExtensions (word : string) (extensions : list string) : list string :=
  match extensions with
  | [] => []
  | ext :: rest => expandWord word ext :: expandExtensions word rest
  end.

(** The jobs sent for one line of the wordlist. *)
Definition jobsOfWord (a : App) (word : string) : list string :=
  if gostrings.Contains word "%EXT%"
  then expandExtensions word (config.Extensions (config.Scanner (config a)))
  else [word].

(** The loop of [scan] that reads the wordlist and sends the jobs; [lines]
    are the lines the file scanner yields.  The result is what was sent on
    the channel [jobs], in order. *)
Fixpoint scan_jobs (env : scanner.Env) (a : App) (lines : list string)
  (w : scanner.World) : list string * scanner.World :=
  match lines with
  | [] => ([], w)
  | word :: rest =>
      let '(done, w1) := scanner.pollDone env w in
      if done then ([], w1)
      else
        let '(js, w2) := scan_jobs env a rest w1 in
        (jobsOfWord a word ++ js, w2)
  end.

(** The loop of [calculateTotalJobs] with its counter. *)
Fixpoint countJobs (numExtensions : Z) (lines : list string) (count : Z) : Z :=
  match lines with
  | [] => count
  | text :: rest =>
      countJobs numExtensions rest
        (if gostrings.Contains text "%EXT%"
         then goint.add count numExtensions
         else goint.add count 1)
  end.

Definition calculateTotalJobs (a : App) (lines : list string) : Z :=
  let numExtensions :=
    Z.of_nat (length (config.Extensions (config.Scanner (config a)))) in
  countJobs numExtensions lines 0.

(** ** Workers and recursion *)

Definition isFound (r : scanner.Result) : bool :=
  (scanner.StatusCode r >=? 200) && (scanner.StatusCode r <? 400).

(** The loop of [recursiveScan] over the extracted paths; [recurse] is the
    call [a.recursiveScan(result, depth+1)].  [None] only when [recurse]
    gives [None]. *)
Fixpoint scanPaths
  (recurse : scanner.Result -> scanner.World -> option (list Message * scanner.World))
  (env : scanner.Env) (a : App) (depth : Z) (paths : list string) (w : scanner.World)
  : option (list Message * scanner.World) :=
  match paths with
  | [] => Some ([], w)
  | path :: rest =>
      let '(done, w1) := scanner.pollDone env w in
      if done then Some ([], w1)
      else
        let '((result, err), w2) :=
          scanner.ScanURL env (scanner a) (config.Target (config a)) path depth w1 in
        match err, result with
        | Some _, _ | None, None =>
            match scanPaths recurse env a depth rest w2 with
            | Some (ms, w3) => Some (progressIncrement 1 :: ms, w3)
            | None => None
            end
        | None, Some r =>
            match (if isFound r then recurse r w2 else Some ([], w2)) with
            | Some (sub, w3) =>
                match scanPaths recurse env a depth rest w3 with
                | Some (ms, w4) =>
                    Some (progressIncrement 1 :: msgResult r :: sub ++ ms, w4)
                | None => None
                end
            | None => None
            end
        end
  end.

(** [recursiveScan]: the messages sent on [outputChan] and the new world.
    [fuel] bounds the nesting of calls; [None] when it runs out. *)
Fixpoint recursiveScan (fuel : nat) (env : scanner.Env) (a : App)
  (parentResult : scanner.Result) (depth : Z) (w : scanner.World)
  : option (list Message * scanner.World) :=
  if depth >? config.MaxDepth (config a) then Some ([], w)
  else
    match fuel with
    | O => None
    | S fuel' =>
        let paths := scanner.ExtractPaths (scanner a) parentResult in
        let announce :=
          if 0 <? Z.of_nat (length paths)
          then [progressMaxChange (Z.of_nat (length paths))] else [] in
        match scanPaths (fun r w' => recursiveScan fuel' env a r (goint.add depth 1) w')
                        env a depth paths w with
        | Some (ms, w1) => Some (announce ++ ms, w1)
        | None => None
        end
    end.

(** [worker], on the words it receives from the channel [jobs]. *)
Fixpoint worker (fuel : nat) (env : scanner.Env) (a : App) (jobs : list string)
  (w : scanner.World) : option (list Message * scanner.World) :=
  match jobs with
  | [] => Some ([], w)
  | word :: rest =>
      let '(done, w1) := scanner.pollDone env w in
      if done then Some ([], w1)
      else
        let '((result, err), w2) :=
          scanner.ScanURL env (scanner a) (config.Target (config a)) word 0 w1 in
        match err, result with
        | Some _, _ | None, None =>
            match worker fuel env a rest w2 with
            | Some (ms, w3) => Some (progressIncrement 1 :: ms, w3)
            | None => None
            end
        | None, Some r =>
            match (if config.Recursive (config a) && isFound r
                   then recursiveScan fuel env a r 1 w2 else Some ([], w2)) with
            | Some (sub, w3) =>
                match worker fuel env a rest w3 with
                | Some (ms, w4) =>
                    Some (progressIncrement 1 :: msgResult r :: sub ++ ms, w4)
                | None => None
                end
            | None => None
            end
        end
  end.

(** ** Shutdown *)

Definition flushMultiWriter (multiWriter : output.Writer) (io : output.IO)
  : option string * output.IO :=
  output.Flush multiWriter io.

Definition flushBufferedOutput (a : App) (io : output.IO) : option string * output.IO :=
  match writer a with
  | None => (None, io)
  | Some (output.MultiWriter ws) => flushMultiWriter (output.MultiWriter ws) io
  | Some w => if output.isBufferedWriter w then output.Flush w io else (None, io)
  end.

(** The goroutine started by [setupSignalHandling], once a signal arrived:
    it flushes and then cancels the context. *)
Definition signalHandler (a : App) (io : output.IO) : output.IO :=
  snd (flushBufferedOutput a io).

(** [Run] from the return of [a.scan()] on. *)
Definition Run_afterScan (a : App) (io : output.IO) : output.IO :=
  let io1 := snd (flushBufferedOutput a io) in
  match writer a with
  | Some w => snd (output.Close w io1)
  | None => io1
  end.

(** [outputManager] writing results while the context is not cancelled. *)
Fixpoint writeResults (a : App) (results : list scanner.Result) : App :=
  match results with
  | [] => a
  | r :: rest =>
      writeResults
        (mkApp (config a) (scanner a)
               (match writer a with
                | Some w => Some (fst (output.Write w r))
                | None => None
                end))
        rest
  end.

(** The cancellation path: [before] are the results written before the
    signal, [between] those the output manager still writes until the
    handler has cancelled the context; then [scan] returns and [Run]
    goes on. *)
Definition cancellationPath (a : App) (before between : list scanner.Result)
  (io : output.IO) : output.IO :=
  let a1 := writeResults a before in
  let io1 := signalHandler a1 io in
  let a2 := writeResults a1 between in
  Run_afterScan a2 io1.

(** The path of a scan that runs to its end. *)
Definition completionPath (a : App) (results : list scanner.Result)
  (io : output.IO) : output.IO :=
  Run_afterScan (writeResults a results) io.

(** ** The output manager *)

(** What the output manager does to the terminal. *)
Inductive TermEvent : Type :=
| clearBar : TermEvent                        (* [clearProgressBar] *)
| renderBar : TermEvent                       (* [restoreProgressBar] *)
| wroteResult : scanner.Result -> TermEvent   (* [a.writer.Write(v)] *)
| printedStatus : string -> bool -> TermEvent.

(** What the output manager owns: the writer, the progress bar (its
    maximum and the arguments of the calls of [Add]) and the terminal.
    [Run] creates the bar before the scan starts, so it is never nil here. *)
Record Display : Type := mkDisplay {
  displayWriter : output.Writer;
  progressMax : Z;
  progressAdded : list Z;
  terminal : list TermEvent
}.

(** The [switch] of [outputManager] on one message. *)
Definition handleMessage (msg : Message) (d : Display) : Display :=
  match msg with
  | msgResult v =>
      mkDisplay (fst (output.Write (displayWriter d) v)) (progressMax d)
                (progressAdded d)
                (terminal d ++ [clearBar; wroteResult v; renderBar])
  | progressIncrement v =>
      mkDisplay (displayWriter d) (progressMax d) (progressAdded d ++ [v]) (terminal d)
  | progressMaxChange v =>
      mkDisplay (displayWriter d) (goint.add (progressMax d) v) (progressAdded d)
                (terminal d)
  | statusMessage message toStderr =>
      mkDisplay (displayWriter d) (progressMax d) (progressAdded d)
                (terminal d ++ [clearBar; printedStatus message toStderr; renderBar])
  end.

(** [outputManager], on the messages it receives from [outputChan]: a
    message that arrives after the context is done is dropped. *)
Fixpoint outputManager (env : scanner.Env) (msgs : list Message) (d : Display)
  (w : scanner.World) : Display * scanner.World :=
  match msgs with
  | [] => (d, w)
  | msg :: rest =>
      let '(done, w1) := scanner.pollDone env w in
      if done then outputManager env rest d w1
      else outputManager env rest (handleMessage msg d) w1
  end.

End app.

(* ===================================================================== *)
(** * The specification's wording, to compare the code with *)
(* ===================================================================== *)

Module spec.

(** A line stem without a percent sign, so without any placeholder. *)
Fixpoint noPercent (s : string) : bool :=
  match s with
  | EmptyString => true
  | String c s' => negb (Ascii.eqb c "%") && noPercent s'
  end.

(** The number of jobs the specification counts for a line. *)
Definition jobsForLine (extensions : list string) (line : string) : nat :=
  if gostrings.Contains line "%EXT%" then length extensions else 1%nat.

(** ** The result filter, rule by rule *)

Section FilterRules.

Context (s : scanner.Scanner) (r : scanner.Result).

Let f : config.FilterConfig := config.Filters (scanner.config s).

(** (1) if the allow-list is not empty, the status code is in it *)
Definition statusAllowed : bool :=
  bool_decide (config.StatusCodes f = [])
  || bool_decide (scanner.StatusCode r ∈ config.StatusCodes f).

(** (2) the status code is not in the deny-list *)
Definition statusNotDenied : bool :=
  negb (bool_decide (scanner.StatusCode r ∈ config.ExcludeStatus f)).

(** (3) the size is within the bounds; a bound counts only when it is set,
    that is, not zero (the code takes a bound as set when it is positive) *)
Definition sizeWithinBounds : bool :=
  (if 0 <? config.MinSize f then config.MinSize f <=? scanner.Size r else true)
  && (if 0 <? config.MaxSize f then scanner.Size r <=? config.MaxSize f else true).

(** (4) the body matches the include expression, if there is one *)
Definition includeRegexHolds : bool :=
  match scanner.includeRegex s with
  | Some re => goregexp.MatchString re (scanner.Body r)
  | None => true
  end.

(** (5) the body does not match the exclude expression, if there is one *)
Definition excludeRegexHolds : bool :=
  match scanner.excludeRegex s with
  | Some re => negb (goregexp.MatchString re (scanner.Body r))
  | None => true
  end.

(** (6) if there are include keywords, the body contains one of them *)
Definition includeWordsHold : bool :=
  bool_decide (config.IncludeWords f = [])
  || existsb (gostrings.Contains (scanner.Body r)) (config.IncludeWords f).

(** (7) the body contains no exclude keyword *)
Definition excludeWordsHold : bool :=
  forallb (fun word => negb (gostrings.Contains (scanner.Body r) word))
          (config.ExcludeWords f).

(** The rules in their order; [forallb] stops at the first that fails. *)
Definition include : bool :=
  forallb (fun rule : bool => rule)
    [statusAllowed; statusNotDenied; sizeWithinBounds; includeRegexHolds;
     excludeRegexHolds; includeWordsHold; excludeWordsHold].

(** ** The content checks on their own *)

(** The exclude expression rejects the result. *)
Definition excludedByRegex : bool :=
  match scanner.excludeRegex s with
  | Some re => goregexp.MatchString re (scanner.Body r)
  | None => false
  end.

(** An exclude keyword rejects the result. *)
Definition excludedByWord : bool :=
  scanner.wordListed (config.ExcludeWords f) (scanner.Body r).

(** The include expression is configured and finds a match. *)
Definition includeRegexMatches : bool :=
  match scanner.includeRegex s with
  | Some re => goregexp.MatchString re (scanner.Body r)
  | None => false
  end.

(** Some include keyword is found. *)
Definition includeWordMatches : bool :=
  scanner.wordListed (config.IncludeWords f) (scanner.Body r).

(** The claim about results without a body: each content check treats the
    missing body as not matching. *)
Definition bodylessNeverMatches : Prop :=
  scanner.Body r = EmptyString ->
  excludedByRegex = false /\ excludedByWord = false
  /\ includeRegexMatches = false /\ includeWordMatches = false.

End FilterRules.

(** ** Path extraction *)

(** The values of the references found in a body: the group of each match
    of the path expression. *)
Definition hrefValues (body : string) : list string :=
  map (fun m => nth 1 m EmptyString) (scanner.FindAllStringSubmatch_pathRegex body).

(** The value does not start with [http], [mailto:], [#] or [javascript:]. *)
Definition isLocalReference (v : string) : bool :=
  negb (gostrings.HasPrefix v "http")
  && negb (gostrings.HasPrefix v "mailto:")
  && negb (gostrings.HasPrefix v "#")
  && negb (gostrings.HasPrefix v "javascript:").

(** The value parses as a URL with a path that is not empty. *)
Definition parsesWithPath (v : string) : bool :=
  match gourl.Parse v with
  | Some u => negb (String.eqb (gourl.Path u) EmptyString)
  | None => false
  end.

(** The claim: the values that pass the two tests, each with one leading
    slash removed. *)
Definition claimedPaths (body : string) : list string :=
  map (fun v => gostrings.TrimPrefix v "/")
      (filter (fun v => isLocalReference v && parsesWithPath v) (hrefValues body)).

(** The path extracted from one value: the [Path] of the parsed URL, with
    one leading slash removed. *)
Definition extractedPath (v : string) : option string :=
  if isLocalReference v then
    match gourl.Parse v with
    | Some u =>
        if negb (String.eqb (gourl.Path u) EmptyString)
        then Some (gostrings.TrimPrefix (gourl.Path u) "/")
        else None
    | None => None
    end
  else None.

(** The extracted paths of a list of values, in order. *)
Fixpoint extractedPaths (values : list string) : list string :=
  match values with
  | [] => []
  | v :: rest =>
      match extractedPath v with
      | Some p => p :: extractedPaths rest
      | None => extractedPaths rest
      end
  end.

(** No byte of the string is a quote. *)
Fixpoint noQuote (s : string) : bool :=
  match s with
  | EmptyString => true
  | String c s' => negb (scanner.isQuote c) && noQuote s'
  end.

(** ** Shutdown *)

(** The buffered writer that [CreateBufferedWriter] makes for a format,
    holding some results, and the document it commits. *)
Definition fileWriter (format filename : string) (results : list scanner.Result)
  : output.Writer :=
  if String.eqb format "json" then output.BufferedJSONWriter filename results
  else output.BufferedCSVWriter filename results.

Definition document (format : string) (results : list scanner.Result) : output.Document :=
  if String.eqb format "json" then output.JSONDocument results
  else output.CSVDocument results.

(** The claim: on the cancellation path, started with nothing flushed yet,
    the buffered writer of the output file is flushed exactly once. *)
Definition flushedExactlyOnce (a : app.App) (before between : list scanner.Result)
  (io : output.IO) : Prop :=
  output.calls io = [] ->
  output.flushCalls (config.File (config.Output (app.config a)))
    (output.calls (app.cancellationPath a before between io)) = 1%nat.

(** The writer that [NewApp] builds when an output file is given, holding
    some results. *)
Definition appWriter (format filename : string) (verbose : bool)
  (results : list scanner.Result) : output.Writer :=
  output.MultiWriter [output.ConsoleWriter verbose; fileWriter format filename results].

(** ** Invariants *)

(** The results among the messages all satisfy [P]. *)
Definition results_satisfy (P : scanner.Result -> Prop) (ms : list app.Message) : Prop :=
  forall r, In (app.msgResult r) ms -> P r.

(** The capacity of the bucket is [cap] and its content stays within it. *)
Definition bucket_ok (cap : Z) (b : scanner.bucket) : Prop :=
  scanner.capacity b = cap /\ 0 <= scanner.tokens b <= cap.

(** ** Progress accounting *)

(** The sum of the progress increments among the messages, and the sum of
    the announced increases of the total. *)
Fixpoint sumIncrements (ms : list app.Message) : Z :=
  match ms with
  | [] => 0
  | app.progressIncrement v :: rest => v + sumIncrements rest
  | _ :: rest => sumIncrements rest
  end.

Fixpoint sumMaxChanges (ms : list app.Message) : Z :=
  match ms with
  | [] => 0
  | app.progressMaxChange v :: rest => v + sumMaxChanges rest
  | _ :: rest => sumMaxChanges rest
  end.

(** The results among the messages, in order. *)
Fixpoint resultsOf (ms : list app.Message) : list scanner.Result :=
  match ms with
  | [] => []
  | app.msgResult r :: rest => r :: resultsOf rest
  | _ :: rest => resultsOf rest
  end.

(** The sum of a list of integers. *)
Fixpoint sumZ (l : list Z) : Z :=
  match l with
  | [] => 0
  | x :: rest => x + sumZ rest
  end.

(** The terminal events that print something. *)
Definition isPrint (e : app.TermEvent) : bool :=
  match e with
  | app.wroteResult _ | app.printedStatus _ _ => true
  | _ => false
  end.

(** The messages handled one after the other, none dropped. *)
Definition handleAll (msgs : list app.Message) (d : app.Display) : app.Display :=
  fold_left (fun d msg => app.handleMessage msg d) msgs d.

(** The application with recursion switched off. *)
Definition withoutRecursion (a : app.App) : app.App :=
  let c := app.config a in
  app.mkApp
    (config.mkConfig (config.Target c) (config.Wordlist c) (config.Threads c)
       (config.Timeout c) (config.Output c) (config.Scanner c) (config.RateLimit c)
       (config.Filters c) (config.Headers c) (config.UserAgent c)
       false (config.MaxDepth c) (config.RetryCount c) (config.RetryDelay c))
    (app.scanner a) (app.writer a).

(** The URL that [ScanURL] requests for a target and a path. *)
Definition fullURL (targetURL path : string) : string :=
  gostrings.TrimRight targetURL "/" +:+ "/" +:+ gostrings.TrimLeft path "/".

(** The text of a JSON output file: the bracketed, comma-separated entries. *)
Definition jsonArrayText (encode : scanner.Result -> string)
  (results : list scanner.Result) : string :=
  "[" +:+ output.nl
  +:+ gostrings.Join (map (fun r => "  " +:+ encode r) results) ("," +:+ output.nl)
  +:+ output.nl +:+ "]".

(** Every byte of [s] satisfies [p]. *)
Fixpoint allBytes (p : ascii -> bool) (s : string) : bool :=
  match s with
  | EmptyString => true
  | String c s' => p c && allBytes p s'
  end.

(** A byte of an extension written plainly: ASCII, neither white space nor
    a comma. *)
Definition plainByte (c : ascii) : bool :=
  (N_of_ascii c <? 128)%N
  && negb (gostrings.in_cutset c gostrings.asciiSpace)
  && negb (Ascii.eqb c ","%char).

(** An extension written plainly: not empty, of plain bytes, without a
    leading dot. *)
Definition plainExtension (x : string) : bool :=
  negb (String.eqb x EmptyString) && negb (gostrings.HasPrefix x ".")
  && allBytes plainByte x.

End spec.

(* ===================================================================== *)
(** * Concrete configurations, transports and pages *)
(* ===================================================================== *)

Module examples.

(** The default configuration with another retry count. *)
Definition withRetryCount (rc : Z) (c : config.Config) : config.Config :=
  config.mkConfig (config.Target c) (config.Wordlist c) (config.Threads c)
    (config.Timeout c) (config.Output c) (config.Scanner c) (config.RateLimit c)
    (config.Filters c) (config.Headers c) (config.UserAgent c)
    (config.Recursive c) (config.MaxDepth c) rc (config.RetryDelay c).

(** A scanner without content filters and without rate limiter. *)
Definition plainScanner (cfg : config.Config) : scanner.Scanner :=
  scanner.mkScanner cfg None None None.

Definition response (code : Z) (body : string) : gohttp.Response :=
  gohttp.mkResponse code ∅ body false.

(** A network on which every connection is refused. *)
Definition refused : string := "dial tcp 127.0.0.1:80: connect: connection refused".

Definition env_refused : scanner.Env := {|
  scanner.NewRequestWithContext_err := fun _ _ => None;
  scanner.client_Do := fun _ _ _ => gohttp.DoErr None refused;
  scanner.ctx_Done := fun _ => false;
  scanner.rateLimiter_select := fun _ => scanner.recvToken
|}.

(** A transport that fails the first two attempts and answers the third. *)
Definition env_third_time : scanner.Env := {|
  scanner.NewRequestWithContext_err := fun _ _ => None;
  scanner.client_Do := fun k _ _ =>
    if (k <? 2)%nat then gohttp.DoErr None "i/o timeout"
    else gohttp.DoOk (response 200 "hello");
  scanner.ctx_Done := fun _ => false;
  scanner.rateLimiter_select := fun _ => scanner.recvToken
|}.

(** A server that redirects forever, with redirects followed: the client
    gives up and returns the last response next to the error. *)
Definition env_redirect_loop : scanner.Env := {|
  scanner.NewRequestWithContext_err := fun _ _ => None;
  scanner.client_Do := fun _ _ _ =>
    gohttp.DoErr (Some (gohttp.mkResponse 302 ∅ EmptyString true))
                 "stopped after 10 redirects";
  scanner.ctx_Done := fun _ => false;
  scanner.rateLimiter_select := fun _ => scanner.recvToken
|}.

(** An anchor with a double-quoted reference. *)
Definition anchor (href : string) : string :=
  "<a href=" +:+ String scanner.dquote (href +:+ String scanner.dquote ">link</a>").

(** A configuration for a recursive scan of [http://test.local]: verbose
    output, two levels of recursion, one attempt per request. *)
Definition siteConfig (verbose : bool) : config.Config := {|
  config.Target := "http://test.local";
  config.Wordlist := "dicc.txt";
  config.Threads := 1;
  config.Timeout := 10 * config.second;
  config.Output := {| config.Format := "console"; config.File := EmptyString;
                      config.Verbose := verbose; config.ShowErrors := false |};
  config.Scanner := {| config.Methods := ["GET"]; config.Extensions := ["php"; "txt"];
                       config.SkipSSLVerify := true; config.FollowRedirects := false;
                       config.MaxRedirects := 3 |};
  config.RateLimit := {| config.Enabled := false; config.RequestsPerSecond := 10;
                         config.Delay := 0 |};
  config.Filters := {| config.StatusCodes := []; config.ExcludeStatus := [404];
                       config.MinSize := 0; config.MaxSize := 0;
                       config.IncludeRegex := EmptyString; config.ExcludeRegex := EmptyString;
                       config.IncludeWords := []; config.ExcludeWords := [] |};
  config.Headers := ∅;
  config.UserAgent := "dirsearch-go/0.01";
  config.Recursive := true;
  config.MaxDepth := 2;
  config.RetryCount := 0;
  config.RetryDelay := 0
|}.

Definition siteApp (verbose : bool) : app.App :=
  app.mkApp (siteConfig verbose) (plainScanner (siteConfig verbose))
            (app.NewApp_writer (siteConfig verbose)).

(** A site whose pages link in a chain: index, a, b, c.  Anything else is
    not found. *)
Definition env_site : scanner.Env := {|
  scanner.NewRequestWithContext_err := fun _ _ => None;
  scanner.client_Do := fun _ _ url =>
    if String.eqb url "http://test.local/index" then gohttp.DoOk (response 200 (anchor "a"))
    else if String.eqb url "http://test.local/a" then gohttp.DoOk (response 200 (anchor "/b"))
    else if String.eqb url "http://test.local/b" then gohttp.DoOk (response 200 (anchor "c"))
    else if String.eqb url "http://test.local/c" then gohttp.DoOk (response 200 "the end")
    else gohttp.DoOk (response 404 "not found");
  scanner.ctx_Done := fun _ => false;
  scanner.rateLimiter_select := fun _ => scanner.recvToken
|}.

(** The result of a verbose scan of a page of that site. *)
Definition pageResult (path body : string) (depth : Z) : scanner.Result := {|
  scanner.URL := "http://test.local/" +:+ path;
  scanner.StatusCode := 200;
  scanner.Size := gostrings.len body;
  scanner.Headers := ∅;
  scanner.Body := body;
  scanner.Error := EmptyString;
  scanner.Depth := depth;
  scanner.Method := "GET";
  scanner.Timestamp := 0
|}.

(** The result of the same scan without verbose output: no body. *)
Definition quietResult (path body : string) (depth : Z) : scanner.Result := {|
  scanner.URL := "http://test.local/" +:+ path;
  scanner.StatusCode := 200;
  scanner.Size := gostrings.len body;
  scanner.Headers := ∅;
  scanner.Body := EmptyString;
  scanner.Error := EmptyString;
  scanner.Depth := depth;
  scanner.Method := "GET";
  scanner.Timestamp := 0
|}.

(** A scanner whose exclude expression is [.*], and one whose include
    expression is the literal [admin]. *)
Definition excludeAnything : scanner.Scanner :=
  scanner.mkScanner (siteConfig false) None
    (Some (goregexp.compile (goregexp.Star goregexp.AnyByte))) None.

Definition includeAdmin : scanner.Scanner :=
  scanner.mkScanner (siteConfig false)
    (Some (goregexp.compile (goregexp.literal "admin"))) None None.

(** A scanner limited to five requests per second, and an environment in
    which the context is cancelled while the scanner waits for a token. *)
Definition limitedScanner : scanner.Scanner :=
  scanner.mkScanner (siteConfig false) None None (Some 5).

Definition env_cancelled : scanner.Env := {|
  scanner.NewRequestWithContext_err := fun _ _ => None;
  scanner.client_Do := fun _ _ _ => gohttp.DoOk (response 200 "hello");
  scanner.ctx_Done := fun _ => true;
  scanner.rateLimiter_select := fun _ => scanner.recvDone
|}.

(** The site configuration with results written to a JSON file. *)
Definition jsonConfig : config.Config :=
  let c := siteConfig false in
  config.mkConfig (config.Target c) (config.Wordlist c) (config.Threads c)
    (config.Timeout c)
    {| config.Format := "json"; config.File := "results.json";
       config.Verbose := false; config.ShowErrors := false |}
    (config.Scanner c) (config.RateLimit c) (config.Filters c) (config.Headers c)
    (config.UserAgent c) (config.Recursive c) (config.MaxDepth c)
    (config.RetryCount c) (config.RetryDelay c).

Definition jsonApp : app.App :=
  app.mkApp jsonConfig (plainScanner jsonConfig) (app.NewApp_writer jsonConfig).

(** An empty disk on which every file can be created. *)
Definition io0 : output.IO := output.mkIO (fun _ => false) ∅ [].

(** An environment in which no request can be constructed (the URL is not
    accepted by [http.NewRequestWithContext]). *)
Definition env_bad_url : scanner.Env := {|
  scanner.NewRequestWithContext_err := fun _ _ => Some "invalid URL escape";
  scanner.client_Do := fun _ _ _ => gohttp.DoOk (response 200 "hello");
  scanner.ctx_Done := fun _ => false;
  scanner.rateLimiter_select := fun _ => scanner.recvToken
|}.

(** The site scanned recursively with [MaxDepth = 0]. *)
Definition shallowApp : app.App :=
  let c := siteConfig true in
  let c0 := config.mkConfig (config.Target c) (config.Wordlist c) (config.Threads c)
              (config.Timeout c) (config.Output c) (config.Scanner c)
              (config.RateLimit c) (config.Filters c) (config.Headers c)
              (config.UserAgent c) true 0 (config.RetryCount c) (config.RetryDelay c) in
  app.mkApp c0 (plainScanner c0) (app.NewApp_writer c0).

(** What a worker sends for the job [index] on the chain of pages. *)
Definition chainMessages : list app.Message :=
  [app.progressIncrement 1;
   app.msgResult (pageResult "index" (anchor "a") 0);
   app.progressMaxChange 1;
   app.progressIncrement 1;
   app.msgResult (pageResult "a" (anchor "/b") 1);
   app.progressMaxChange 1;
   app.progressIncrement 1;
   app.msgResult (pageResult "b" (anchor "c") 2)].

(** The display at the start of a scan of one job. *)
Definition display0 : app.Display :=
  app.mkDisplay (output.ConsoleWriter true) 1 [] [].

(** A disk on which the output file of [jsonConfig] cannot be created. *)
Definition io_readonly : output.IO :=
  output.mkIO (fun f => String.eqb f "results.json") ∅ [].

(** A stand-in for [regexp.Compile] that accepts the patterns without a
    parenthesis and reads them as literals, and a configuration whose
    include pattern it rejects. *)
Definition compileLiteral (pattern : string) : option goregexp.Regexp :=
  if gostrings.Contains pattern "(" then None
  else Some (goregexp.compile (goregexp.literal pattern)).


End examples.

(* ===================================================================== *)
(** * makeRequest: retries *)
(* ===================================================================== *)

Section MakeRequest.

Context (env : scanner.Env) (s : scanner.Scanner) (method url : string).

(** The loop never assigns the function's [err]: whatever the transport
    answers, it leaves the loop as it entered it. *)
Lemma retryLoop_err_fn indices err_fn resp w err' resp' w' :
  scanner.retryLoop env s method url indices err_fn resp w
    = (scanner.loopDone err' resp', w') ->
  err' = err_fn.
Proof.
  revert resp w.
  induction indices as [|i indices IH]; intros resp w; simpl.
  - intros [= <- _ _]. reflexivity.
  - destruct (scanner.NewRequestWithContext_err env method url); [discriminate|].
    destruct (scanner.client_Do env (scanner.requests w) method url) as [r|r e]; simpl.
    + intros [= <- _ _]. reflexivity.
    + apply IH.
Qed.

(** Each iteration calls [client.Do] at most once. *)
Lemma retryLoop_requests_le indices err_fn resp w :
  (scanner.requests (snd (scanner.retryLoop env s method url indices err_fn resp w))
   <= scanner.requests w + length indices)%nat.
Proof.
  revert resp w.
  induction indices as [|i indices IH]; intros resp w; simpl; [lia|].
  destruct (scanner.NewRequestWithContext_err env method url); simpl; [lia|].
  destruct (scanner.client_Do env (scanner.requests w) method url) as [r|r e]; simpl; [lia|].
  etransitivity; [apply IH|].
  destruct (_ <? _); simpl; lia.
Qed.

(** The loop stops at the first attempt that succeeds. *)
Lemma retryLoop_success_at indices k r err_fn resp w :
  scanner.NewRequestWithContext_err env method url = None ->
  (k < length indices)%nat ->
  (forall j, (j < k)%nat ->
     gohttp.outcome_err (scanner.client_Do env (scanner.requests w + j) method url) <> None) ->
  scanner.client_Do env (scanner.requests w + k) method url = gohttp.DoOk r ->
  exists w',
    scanner.retryLoop env s method url indices err_fn resp w
      = (scanner.loopDone err_fn (Some r), w')
    /\ scanner.requests w' = (scanner.requests w + k + 1)%nat.
Proof.
  intros Hnew. revert k resp w.
  induction indices as [|i indices IH]; intros k resp w Hk Hfail Hok; simpl in Hk; [lia|].
  simpl. rewrite Hnew.
  destruct k as [|k].
  - rewrite Nat.add_0_r in Hok. rewrite Hok. simpl.
    eexists. split; [reflexivity|]. simpl. lia.
  - pose proof (Hfail O ltac:(lia)) as H0. rewrite Nat.add_0_r in H0.
    destruct (scanner.client_Do env (scanner.requests w) method url) as [r0|r0 e0];
      simpl in H0; [congruence|]. simpl.
    match goal with
    | |- context [scanner.retryLoop _ _ _ _ _ _ _ ?w2] =>
        destruct (IH k r0 w2) as (w' & Heq & Hreq)
    end.
    + lia.
    + intros j Hj. specialize (Hfail (S j) ltac:(lia)).
      rewrite Nat.add_succ_r in Hfail.
      destruct (_ <? _); simpl; exact Hfail.
    + rewrite Nat.add_succ_r in Hok.
      destruct (_ <? _); simpl; exact Hok.
    + exists w'. split; [exact Heq|].
      rewrite Hreq. destruct (_ <? _); simpl; lia.
Qed.

(** When every attempt fails without a response, the loop runs to its end
    and leaves both of the function's variables nil. *)
Lemma retryLoop_all_fail indices err_fn resp w :
  scanner.NewRequestWithContext_err env method url = None ->
  (forall j, (j < length indices)%nat ->
     exists e, scanner.client_Do env (scanner.requests w + j) method url
               = gohttp.DoErr None e) ->
  exists w',
    scanner.retryLoop env s method url indices err_fn resp w
      = (scanner.loopDone err_fn (match indices with [] => resp | _ => None end), w')
    /\ scanner.requests w' = (scanner.requests w + length indices)%nat.
Proof.
  intros Hnew. revert resp w.
  induction indices as [|i indices IH]; intros resp w Hfail; simpl.
  - eexists. split; [reflexivity|]. lia.
  - rewrite Hnew.
    destruct (Hfail O ltac:(simpl; lia)) as [e He]. rewrite Nat.add_0_r in He.
    rewrite He. simpl.
    match goal with
    | |- context [scanner.retryLoop _ _ _ _ _ _ _ ?w2] =>
        destruct (IH None w2) as (w' & Heq & Hreq)
    end.
    + intros j Hj. destruct (Hfail (S j) ltac:(simpl; lia)) as [e' He'].
      exists e'. rewrite <- He'. f_equal.
      destruct (_ <? _); simpl; lia.
    + exists w'. split.
      * rewrite Heq. destruct indices; reflexivity.
      * rewrite Hreq. destruct (_ <? _); simpl; lia.
Qed.

Lemma retryIndices_length rc : length (scanner.retryIndices rc) = Z.to_nat (rc + 1).
Proof. unfold scanner.retryIndices. rewrite length_map, length_seq. reflexivity. Qed.

End MakeRequest.

(** The result of [makeRequest] when every attempt fails without a response:
    the function's [err] is still nil after the loop, the branch that would
    copy the error text is skipped, and the nil response is reported. *)
Lemma makeRequest_all_fail env s method url depth w :
  scanner.NewRequestWithContext_err env method url = None ->
  0 <= config.RetryCount (scanner.config s) ->
  (forall j, (j < Z.to_nat (config.RetryCount (scanner.config s) + 1))%nat ->
     exists e, scanner.client_Do env (scanner.requests w + j) method url
               = gohttp.DoErr None e) ->
  exists res w',
    scanner.makeRequest env s method url depth w = ((Some res, None), w')
    /\ scanner.Error res = "响应为空"
    /\ scanner.StatusCode res = 0
    /\ scanner.Body res = EmptyString
    /\ scanner.requests w'
       = (scanner.requests w + Z.to_nat (config.RetryCount (scanner.config s) + 1))%nat.
Proof.
  intros Hnew Hrc Hfail.
  destruct (retryLoop_all_fail env s method url
              (scanner.retryIndices (config.RetryCount (scanner.config s)))
              None None w Hnew) as (w' & Heq & Hreq).
  { rewrite retryIndices_length. exact Hfail. }
  unfold scanner.makeRequest. rewrite Heq.
  assert (Hnil : match scanner.retryIndices (config.RetryCount (scanner.config s)) with
                 | [] => @None gohttp.Response
                 | _ :: _ => None
                 end = None) by (destruct (scanner.retryIndices _); reflexivity).
  rewrite Hnil.
  eexists _, w'. split; [reflexivity|].
  rewrite retryIndices_length in Hreq. simpl. auto.
Qed.

(** C1 (the code departs from the claim).  When all [RetryCount+1] attempts
    fail with a transport error, [makeRequest] does return a [Result] and a
    nil error, with [StatusCode] 0 and a non-empty [Error]; but the [Error]
    is the fixed text for a nil response, whatever the error of the last
    attempt was. *)
Theorem makeRequest_exhausted_retries_error_text env s method url depth w e_last :
  scanner.NewRequestWithContext_err env method url = None ->
  0 <= config.RetryCount (scanner.config s) ->
  (forall j, (j < Z.to_nat (config.RetryCount (scanner.config s) + 1))%nat ->
     exists e, scanner.client_Do env (scanner.requests w + j) method url
               = gohttp.DoErr None e) ->
  scanner.client_Do env
    (scanner.requests w + Z.to_nat (config.RetryCount (scanner.config s))) method url
    = gohttp.DoErr None e_last ->
  exists res w',
    scanner.makeRequest env s method url depth w = ((Some res, None), w')
    /\ scanner.StatusCode res = 0
    /\ scanner.Error res <> EmptyString
    /\ scanner.Error res = "响应为空"
    /\ (e_last <> "响应为空" -> scanner.Error res <> e_last).
Proof.
  intros Hnew Hrc Hfail Hlast.
  destruct (makeRequest_all_fail env s method url depth w Hnew Hrc Hfail)
    as (res & w' & Heq & Herr & Hst & _ & _).
  exists res, w'. rewrite Herr.
  repeat split; auto; try discriminate; try congruence.
Qed.

(** At the default configuration (three retries), on a network that refuses
    every connection, the reported error is not the refusal. *)
Lemma makeRequest_exhausted_retries_witness :
  exists res w',
    scanner.makeRequest examples.env_refused (examples.plainScanner config.DefaultConfig)
      "GET" "http://test.local/admin" 0 scanner.world0 = ((Some res, None), w')
    /\ scanner.StatusCode res = 0
    /\ scanner.Error res = "响应为空"
    /\ scanner.Error res <> examples.refused.
Proof.
  destruct (makeRequest_exhausted_retries_error_text examples.env_refused
              (examples.plainScanner config.DefaultConfig) "GET" "http://test.local/admin"
              0 scanner.world0 examples.refused)
    as (res & w' & Heq & Hst & _ & Herr & Hlost).
  - reflexivity.
  - simpl. lia.
  - intros j _. exists examples.refused. reflexivity.
  - reflexivity.
  - exists res, w'.
    split; [exact Heq|]. split; [exact Hst|]. split; [exact Herr|].
    apply Hlost. discriminate.
Defined.

(** The same defect when the failed attempt comes with a response (a
    redirect limit reached): the result carries the status code of that
    response and no error at all. *)
Lemma makeRequest_failed_redirect_reported_as_success :
  fst (scanner.makeRequest examples.env_redirect_loop
         (examples.plainScanner (examples.withRetryCount 0 config.DefaultConfig))
         "GET" "http://test.local/loop" 0 scanner.world0)
  = (Some {| scanner.URL := "http://test.local/loop"; scanner.StatusCode := 302;
             scanner.Size := 0; scanner.Headers := ∅; scanner.Body := EmptyString;
             scanner.Error := EmptyString; scanner.Depth := 0;
             scanner.Method := "GET"; scanner.Timestamp := 0 |}, None).
Proof. reflexivity. Qed.

(** C7.  [makeRequest] makes at most [RetryCount+1] attempts; when attempt
    [k] is the first to succeed, exactly [k] attempts are made and the result
    carries the status code of that response and no error. *)
Theorem makeRequest_attempts_and_success env s method url depth w :
  (scanner.requests (snd (scanner.makeRequest env s method url depth w))
   <= scanner.requests w + Z.to_nat (config.RetryCount (scanner.config s) + 1))%nat
  /\ forall k r,
      (1 <= k <= Z.to_nat (config.RetryCount (scanner.config s) + 1))%nat ->
      scanner.NewRequestWithContext_err env method url = None ->
      (forall j, (j < k - 1)%nat ->
         gohttp.outcome_err (scanner.client_Do env (scanner.requests w + j) method url)
         <> None) ->
      scanner.client_Do env (scanner.requests w + (k - 1)) method url = gohttp.DoOk r ->
      exists res w',
        scanner.makeRequest env s method url depth w = ((Some res, None), w')
        /\ scanner.StatusCode res = gohttp.RespStatusCode r
        /\ scanner.Error res = EmptyString
        /\ scanner.requests w' = (scanner.requests w + k)%nat.
Proof.
  split.
  - unfold scanner.makeRequest.
    pose proof (retryLoop_requests_le env s method url
                  (scanner.retryIndices (config.RetryCount (scanner.config s)))
                  None None w) as Hle.
    rewrite retryIndices_length in Hle.
    destruct (scanner.retryLoop _ _ _ _ _ _ _ _) as [[err resp|e] w1]; simpl in Hle.
    + destruct err; [exact Hle|]. destruct resp; exact Hle.
    + exact Hle.
  - intros k r Hk Hnew Hfail Hok.
    destruct (retryLoop_success_at env s method url
                (scanner.retryIndices (config.RetryCount (scanner.config s)))
                (k - 1) r None None w Hnew) as (w' & Heq & Hreq); auto.
    { rewrite retryIndices_length. lia. }
    unfold scanner.makeRequest. rewrite Heq.
    eexists _, w'. split; [reflexivity|]. simpl.
    repeat split. lia.
Qed.

(** With [RetryCount = 2] and a transport that fails twice and then answers:
    three attempts, a result with the status of the answer and no error. *)
Lemma makeRequest_attempts_and_success_witness :
  exists res w',
    scanner.makeRequest examples.env_third_time
      (examples.plainScanner (examples.withRetryCount 2 config.DefaultConfig))
      "GET" "http://test.local/a" 0 scanner.world0 = ((Some res, None), w')
    /\ scanner.StatusCode res = 200
    /\ scanner.Error res = EmptyString
    /\ scanner.requests w' = 3%nat.
Proof.
  apply (proj2 (makeRequest_attempts_and_success examples.env_third_time
           (examples.plainScanner (examples.withRetryCount 2 config.DefaultConfig))
           "GET" "http://test.local/a" 0 scanner.world0)
         3%nat (examples.response 200 "hello")).
  - simpl. lia.
  - reflexivity.
  - intros j Hj. simpl.
    destruct j as [|[|j]]; simpl; try discriminate. lia.
  - reflexivity.
Defined.

(* ===================================================================== *)
(** * What a scan returns *)
(* ===================================================================== *)

Section ScanResults.

Context (env : scanner.Env) (s : scanner.Scanner).

(** Every result of [makeRequest] carries the depth it was called with, and
    a body only in verbose mode. *)
Lemma makeRequest_result method url depth w res err w' :
  scanner.makeRequest env s method url depth w = ((Some res, err), w') ->
  scanner.Depth res = depth
  /\ (config.Verbose (config.Output (scanner.config s)) = false ->
      scanner.Body res = EmptyString).
Proof.
  unfold scanner.makeRequest.
  destruct (scanner.retryLoop _ _ _ _ _ _ _ _) as [[e resp|e] w1].
  - destruct e as [e|]; [|destruct resp as [resp|]];
      intros [= <- _ _]; simpl; split; auto.
    intros ->. reflexivity.
  - discriminate.
Qed.

Lemma tryMethods_result methods fullURL depth w res err w' :
  scanner.tryMethods env s methods fullURL depth w = ((Some res, err), w') ->
  scanner.Depth res = depth
  /\ (config.Verbose (config.Output (scanner.config s)) = false ->
      scanner.Body res = EmptyString)
  /\ scanner.shouldIncludeResult s res = true.
Proof.
  revert w.
  induction methods as [|m methods IH]; intros w; simpl; [discriminate|].
  destruct (scanner.makeRequest env s m fullURL depth w) as [[result e] w1] eqn:Hmk.
  destruct e as [e|]; [apply IH|].
  destruct result as [r|]; [|apply IH].
  destruct (scanner.shouldIncludeResult s r) eqn:Hinc; [|apply IH].
  intros [= <- _ _].
  destruct (makeRequest_result _ _ _ _ _ _ _ Hmk) as [? ?]. auto.
Qed.

Lemma ScanURL_result targetURL path depth w res err w' :
  scanner.ScanURL env s targetURL path depth w = ((Some res, err), w') ->
  scanner.Depth res = depth
  /\ (config.Verbose (config.Output (scanner.config s)) = false ->
      scanner.Body res = EmptyString)
  /\ scanner.shouldIncludeResult s res = true.
Proof.
  unfold scanner.ScanURL, scanner.scanAfterLimiter.
  destruct (scanner.rateLimiter s).
  - destruct (scanner.selectLimiter env w) as [[|] w1]; [|discriminate].
    destruct (gostrings.Contains path "%FUZZ%"); [discriminate|].
    apply tryMethods_result.
  - destruct (gostrings.Contains path "%FUZZ%"); [discriminate|].
    apply tryMethods_result.
Qed.

End ScanResults.

(** [ExtractPaths] finds nothing in an empty body. *)
Lemma ExtractPaths_empty_body s r :
  scanner.Body r = EmptyString -> scanner.ExtractPaths s r = [].
Proof. unfold scanner.ExtractPaths. intros ->. reflexivity. Qed.

(* ===================================================================== *)
(** * Recursion *)
(* ===================================================================== *)

Lemma wrap_in_range z : goint.in_range z -> goint.wrap z = z.
Proof.
  unfold goint.in_range, goint.min_int, goint.max_int, goint.wrap. intros H.
  rewrite Z.mod_small; lia.
Qed.

Lemma results_satisfy_nil P : spec.results_satisfy P [].
Proof. intros r []. Qed.

Lemma results_satisfy_app P ms1 ms2 :
  spec.results_satisfy P ms1 -> spec.results_satisfy P ms2 -> spec.results_satisfy P (ms1 ++ ms2).
Proof. intros H1 H2 r Hin. apply in_app_or in Hin as [?|?]; auto. Qed.

Lemma results_satisfy_progress P m ms :
  (forall r, m <> app.msgResult r) ->
  spec.results_satisfy P ms -> spec.results_satisfy P (m :: ms).
Proof. intros Hm H r [->|Hin]; [exfalso; eapply Hm; reflexivity | auto]. Qed.

Lemma results_satisfy_result P r ms :
  P r -> spec.results_satisfy P ms -> spec.results_satisfy P (app.msgResult r :: ms).
Proof. intros Hr H r' [[= <-]|Hin]; auto. Qed.

Section Recursion.

Context (env : scanner.Env) (a : app.App).

(** The loop over the paths sends only results of its own depth and what the
    recursive calls send. *)
Lemma scanPaths_results (P : scanner.Result -> Prop) recurse depth paths w ms w' :
  (forall r w0 ms0 w0', recurse r w0 = Some (ms0, w0') -> spec.results_satisfy P ms0) ->
  (forall r, scanner.Depth r = depth -> P r) ->
  app.scanPaths recurse env a depth paths w = Some (ms, w') ->
  spec.results_satisfy P ms.
Proof.
  intros Hrec Hown. revert w ms w'.
  induction paths as [|path paths IH]; intros w ms w'; simpl.
  - intros [= <- _]. apply results_satisfy_nil.
  - destruct (scanner.ctx_Done env (scanner.polls w)).
    { intros [= <- _]. apply results_satisfy_nil. }
    destruct (scanner.ScanURL _ _ _ _ _ _) as [[result err] w2] eqn:Hscan.
    assert (Hskip : forall ms w',
      match app.scanPaths recurse env a depth paths w2 with
      | Some (ms0, w3) => Some (app.progressIncrement 1 :: ms0, w3)
      | None => None
      end = Some (ms, w') -> spec.results_satisfy P ms).
    { clear ms w'. intros ms w'.
      destruct (app.scanPaths recurse env a depth paths w2) as [[ms0 w3]|] eqn:Hrest;
        [|discriminate].
      intros [= <- _]. apply results_satisfy_progress; [discriminate|].
      eapply IH; eauto. }
    destruct err as [e|]; [apply Hskip|].
    destruct result as [r|]; [|apply Hskip].
    destruct (ScanURL_result _ _ _ _ _ _ _ _ _ Hscan) as [Hd _].
    destruct (if app.isFound r then recurse r w2 else Some ([], w2))
      as [[sub w3]|] eqn:Hsub; [|discriminate].
    destruct (app.scanPaths recurse env a depth paths w3) as [[ms0 w4]|] eqn:Hrest;
      [|discriminate].
    intros [= <- _].
    apply results_satisfy_progress; [discriminate|].
    apply results_satisfy_result; [auto|].
    apply results_satisfy_app; [|eapply IH; eauto].
    destruct (app.isFound r).
    + eapply Hrec; eauto.
    + injection Hsub as <- _. apply results_satisfy_nil.
Qed.

(** The loop returns whenever the recursive calls do. *)
Lemma scanPaths_total recurse depth paths w :
  (forall r w0, is_Some (recurse r w0)) ->
  is_Some (app.scanPaths recurse env a depth paths w).
Proof.
  intros Hrec. revert w.
  induction paths as [|path paths IH]; intros w; simpl; [eauto|].
  destruct (scanner.ctx_Done env (scanner.polls w)); [eauto|].
  destruct (scanner.ScanURL _ _ _ _ _ _) as [[result err] w2].
  assert (Hskip : is_Some
    match app.scanPaths recurse env a depth paths w2 with
    | Some (ms0, w3) => Some (app.progressIncrement 1 :: ms0, w3)
    | None => None
    end).
  { destruct (IH w2) as [[ms0 w3] ->]. eauto. }
  destruct err as [e|]; [exact Hskip|].
  destruct result as [r|]; [|exact Hskip].
  assert (Hsub : is_Some (if app.isFound r then recurse r w2 else Some ([], w2))).
  { destruct (app.isFound r); eauto. }
  destruct Hsub as [[sub w3] ->].
  destruct (IH w3) as [[ms0 w4] ->]. eauto.
Qed.

(** No result of a recursive scan lies deeper than [MaxDepth]. *)
Lemma recursiveScan_max_depth fuel parent depth w ms w' :
  app.recursiveScan fuel env a parent depth w = Some (ms, w') ->
  spec.results_satisfy (fun r => scanner.Depth r <= config.MaxDepth (app.config a)) ms.
Proof.
  revert parent depth w ms w'.
  induction fuel as [|fuel IH]; intros parent depth w ms w'; simpl;
    destruct (depth >? config.MaxDepth (app.config a)) eqn:Hguard;
    try (intros [= <- _]; apply results_satisfy_nil); try discriminate.
  destruct (app.scanPaths _ env a depth _ w) as [[ms0 w1]|] eqn:Hloop; [|discriminate].
  intros [= <- _].
  apply results_satisfy_app.
  - destruct (0 <? _); [|apply results_satisfy_nil].
    apply results_satisfy_progress; [discriminate|apply results_satisfy_nil].
  - eapply scanPaths_results; [| |exact Hloop].
    + intros r w0 ms1 w0' H. exact (IH _ _ _ _ _ H).
    + intros r ->. lia.
Qed.

(** With [MaxDepth] below the largest [int], enough fuel for the remaining
    levels makes the recursive scan return, and its results lie between the
    depth it was called with and [MaxDepth]. *)
Lemma recursiveScan_returns fuel parent depth w :
  config.MaxDepth (app.config a) < goint.max_int ->
  goint.min_int <= depth ->
  (Z.to_nat (config.MaxDepth (app.config a) + 1 - depth) <= fuel)%nat ->
  exists ms w',
    app.recursiveScan fuel env a parent depth w = Some (ms, w')
    /\ spec.results_satisfy
         (fun r => depth <= scanner.Depth r <= config.MaxDepth (app.config a)) ms.
Proof.
  intros Hmax. revert parent depth w.
  induction fuel as [|fuel IH]; intros parent depth w Hmin Hfuel; simpl;
    destruct (depth >? config.MaxDepth (app.config a)) eqn:Hguard;
    try (eexists _, _; split; [reflexivity|apply results_satisfy_nil]).
  - lia.
  - assert (Hnext : goint.add depth 1 = depth + 1).
    { apply wrap_in_range. unfold goint.in_range. lia. }
    rewrite Hnext.
    destruct (scanPaths_total
                (fun r w' => app.recursiveScan fuel env a r (depth + 1) w')
                depth (scanner.ExtractPaths (app.scanner a) parent) w)
      as [[ms0 w1] Hloop].
    { intros r w0. destruct (IH r (depth + 1) w0) as (ms1 & w1 & -> & _); [lia|lia|eauto]. }
    rewrite Hloop. eexists _, _. split; [reflexivity|].
    apply results_satisfy_app.
    + destruct (0 <? _); [|apply results_satisfy_nil].
      apply results_satisfy_progress; [discriminate|apply results_satisfy_nil].
    + eapply scanPaths_results; [| |exact Hloop].
      * intros r w0 ms1 w0' H.
        destruct (IH r (depth + 1) w0) as (ms2 & w2 & Heq & Hsat); [lia|lia|].
        cbv beta in H. rewrite Heq in H. injection H as <- _.
        intros r' Hin. specialize (Hsat r' Hin). simpl in Hsat. lia.
      * intros r ->. lia.
Qed.

End Recursion.

Section Worker.

Context (env : scanner.Env) (a : app.App).

(** A worker sends the results of its own scans, at depth 0, and what the
    recursive scans it starts send. *)
Lemma worker_results fuel jobs w ms w' :
  app.worker fuel env a jobs w = Some (ms, w') ->
  spec.results_satisfy
    (fun r => scanner.Depth r = 0
              \/ (config.Recursive (app.config a) = true
                  /\ scanner.Depth r <= config.MaxDepth (app.config a))) ms.
Proof.
  revert w ms w'.
  induction jobs as [|word jobs IH]; intros w ms w'; simpl.
  - intros [= <- _]. apply results_satisfy_nil.
  - destruct (scanner.ctx_Done env (scanner.polls w)).
    { intros [= <- _]. apply results_satisfy_nil. }
    destruct (scanner.ScanURL _ _ _ _ _ _) as [[result err] w2] eqn:Hscan.
    assert (Hskip : forall ms w',
      match app.worker fuel env a jobs w2 with
      | Some (ms0, w3) => Some (app.progressIncrement 1 :: ms0, w3)
      | None => None
      end = Some (ms, w') -> spec.results_satisfy
        (fun r => scanner.Depth r = 0
                  \/ (config.Recursive (app.config a) = true
                      /\ scanner.Depth r <= config.MaxDepth (app.config a))) ms).
    { clear ms w'. intros ms w'.
      destruct (app.worker fuel env a jobs w2) as [[ms0 w3]|] eqn:Hrest; [|discriminate].
      intros [= <- _]. apply results_satisfy_progress; [discriminate|].
      eapply IH; eauto. }
    destruct err as [e|]; [apply Hskip|].
    destruct result as [r|]; [|apply Hskip].
    destruct (ScanURL_result _ _ _ _ _ _ _ _ _ Hscan) as [Hd _].
    destruct (if config.Recursive (app.config a) && app.isFound r
              then app.recursiveScan fuel env a r 1 w2 else Some ([], w2))
      as [[sub w3]|] eqn:Hsub; [|discriminate].
    destruct (app.worker fuel env a jobs w3) as [[ms0 w4]|] eqn:Hrest; [|discriminate].
    intros [= <- _].
    apply results_satisfy_progress; [discriminate|].
    apply results_satisfy_result; [auto|].
    apply results_satisfy_app; [|eapply IH; eauto].
    destruct (config.Recursive (app.config a)) eqn:Hrec; simpl in Hsub.
    + destruct (app.isFound r).
      * intros r' Hin. right. split; [reflexivity|].
        exact (recursiveScan_max_depth env a _ _ _ _ _ _ Hsub r' Hin).
      * injection Hsub as <- _. apply results_satisfy_nil.
    + injection Hsub as <- _. apply results_satisfy_nil.
Qed.

(** With enough fuel for the recursive scans it starts, a worker returns. *)
Lemma worker_returns fuel jobs w :
  config.MaxDepth (app.config a) < goint.max_int ->
  (Z.to_nat (config.MaxDepth (app.config a)) <= fuel)%nat ->
  is_Some (app.worker fuel env a jobs w).
Proof.
  intros Hmax Hfuel. revert w.
  induction jobs as [|word jobs IH]; intros w; simpl; [eauto|].
  destruct (scanner.ctx_Done env (scanner.polls w)); [eauto|].
  destruct (scanner.ScanURL _ _ _ _ _ _) as [[result err] w2].
  assert (Hskip : is_Some
    match app.worker fuel env a jobs w2 with
    | Some (ms0, w3) => Some (app.progressIncrement 1 :: ms0, w3)
    | None => None
    end).
  { destruct (IH w2) as [[ms0 w3] ->]. eauto. }
  destruct err as [e|]; [exact Hskip|].
  destruct result as [r|]; [|exact Hskip].
  assert (Hsub : is_Some (if config.Recursive (app.config a) && app.isFound r
                          then app.recursiveScan fuel env a r 1 w2 else Some ([], w2))).
  { destruct (config.Recursive (app.config a) && app.isFound r); [|eauto].
    destruct (recursiveScan_returns env a fuel r 1 w2) as (ms & w3 & -> & _);
      [exact Hmax|unfold goint.min_int; lia|lia|eauto]. }
  destruct Hsub as [[sub w3] ->].
  destruct (IH w3) as [[ms0 w4] ->]. eauto.
Qed.

End Worker.

(** C3.  Recursive scanning is bounded in depth: [recursiveScan] does
    nothing beyond [MaxDepth]; a worker starts it, at depth 1, exactly for a
    result with a status from 200 to 399 when [Recursive] is set; a call at
    some depth scans the extracted paths at that depth and recurses one level
    deeper; so no result of recursion lies deeper than [MaxDepth], and the
    recursion returns. *)
Theorem recursion_is_depth_bounded env a :
  (forall fuel parent depth w,
      config.MaxDepth (app.config a) < depth ->
      app.recursiveScan fuel env a parent depth w = Some ([], w))
  /\ (forall fuel word w r w2,
      scanner.ctx_Done env (scanner.polls w) = false ->
      scanner.ScanURL env (app.scanner a) (config.Target (app.config a)) word 0
        (snd (scanner.pollDone env w)) = ((Some r, None), w2) ->
      app.worker fuel env a [word] w =
        if config.Recursive (app.config a)
           && ((scanner.StatusCode r >=? 200) && (scanner.StatusCode r <? 400))
        then match app.recursiveScan fuel env a r 1 w2 with
             | Some (sub, w3) =>
                 Some (app.progressIncrement 1 :: app.msgResult r :: sub, w3)
             | None => None
             end
        else Some ([app.progressIncrement 1; app.msgResult r], w2))
  /\ (forall fuel parent depth w,
      depth <= config.MaxDepth (app.config a) ->
      app.recursiveScan (S fuel) env a parent depth w =
        let paths := scanner.ExtractPaths (app.scanner a) parent in
        match app.scanPaths
                (fun r w' => app.recursiveScan fuel env a r (goint.add depth 1) w')
                env a depth paths w with
        | Some (ms, w1) =>
            Some ((if 0 <? Z.of_nat (length paths)
                   then [app.progressMaxChange (Z.of_nat (length paths))] else [])
                  ++ ms, w1)
        | None => None
        end)
  /\ (forall fuel parent depth w ms w',
      app.recursiveScan fuel env a parent depth w = Some (ms, w') ->
      spec.results_satisfy
        (fun r => scanner.Depth r <= config.MaxDepth (app.config a)) ms)
  /\ (forall fuel jobs w ms w',
      app.worker fuel env a jobs w = Some (ms, w') ->
      spec.results_satisfy
        (fun r => scanner.Depth r = 0
                  \/ (config.Recursive (app.config a) = true
                      /\ scanner.Depth r <= config.MaxDepth (app.config a))) ms)
  /\ (config.MaxDepth (app.config a) < goint.max_int ->
      forall fuel parent depth w,
        goint.min_int <= depth ->
        (Z.to_nat (config.MaxDepth (app.config a) + 1 - depth) <= fuel)%nat ->
        exists ms w',
          app.recursiveScan fuel env a parent depth w = Some (ms, w')
          /\ spec.results_satisfy
               (fun r => depth <= scanner.Depth r <= config.MaxDepth (app.config a)) ms).
Proof.
  split; [|split; [|split; [|split; [|split]]]].
  - intros fuel parent depth w Hd.
    assert (Hg : (depth >? config.MaxDepth (app.config a)) = true) by lia.
    destruct fuel; simpl; rewrite Hg; reflexivity.
  - intros fuel word w r w2 Hdone Hscan. simpl in Hscan |- *.
    rewrite Hdone, Hscan. unfold app.isFound.
    destruct (config.Recursive (app.config a)
              && ((scanner.StatusCode r >=? 200) && (scanner.StatusCode r <? 400))).
    + destruct (app.recursiveScan fuel env a r 1 w2) as [[sub w3]|]; [|reflexivity].
      rewrite app_nil_r. reflexivity.
    + reflexivity.
  - intros fuel parent depth w Hd.
    assert (Hg : (depth >? config.MaxDepth (app.config a)) = false) by lia.
    simpl. rewrite Hg. reflexivity.
  - apply recursiveScan_max_depth.
  - apply worker_results.
  - intros Hmax fuel parent depth w. apply recursiveScan_returns. exact Hmax.
Qed.

(** On the chain of pages, with [MaxDepth = 2]: the recursion started at
    depth 1 returns, and its results have depths 1 and 2 only. *)
Lemma recursion_is_depth_bounded_witness :
  exists ms w',
    app.recursiveScan 2 examples.env_site (examples.siteApp true)
      (examples.pageResult "index" (examples.anchor "a") 0) 1 scanner.world0
    = Some (ms, w')
    /\ spec.results_satisfy (fun r => 1 <= scanner.Depth r <= 2) ms.
Proof.
  apply (proj2 (proj2 (proj2 (proj2 (proj2
           (recursion_is_depth_bounded examples.env_site (examples.siteApp true))))))).
  - reflexivity.
  - unfold goint.min_int. lia.
  - simpl. lia.
Defined.

(** What that recursion sends: page [a] at depth 1, page [b] at depth 2, and
    page [c], which [b] links to, is never requested. *)
Lemma recursiveScan_chain_example :
  app.recursiveScan 2 examples.env_site (examples.siteApp true)
    (examples.pageResult "index" (examples.anchor "a") 0) 1 scanner.world0
  = Some ([app.progressMaxChange 1;
           app.progressIncrement 1;
           app.msgResult (examples.pageResult "a" (examples.anchor "/b") 1);
           app.progressMaxChange 1;
           app.progressIncrement 1;
           app.msgResult (examples.pageResult "b" (examples.anchor "c") 2)],
          scanner.mkWorld 2 2 0 0).
Proof. vm_compute. reflexivity. Qed.

(** C6.  In non-verbose mode every result has an empty body, an empty body
    yields no paths, and so a recursive scan of any such result sends
    nothing and requests nothing. *)
Theorem nonverbose_recursion_finds_nothing env a :
  config.Verbose (config.Output (scanner.config (app.scanner a))) = false ->
  (forall method url depth w res err w',
      scanner.makeRequest env (app.scanner a) method url depth w = ((Some res, err), w') ->
      scanner.Body res = EmptyString)
  /\ (forall targetURL path depth w res err w',
      scanner.ScanURL env (app.scanner a) targetURL path depth w = ((Some res, err), w') ->
      scanner.Body res = EmptyString)
  /\ (forall s r, scanner.Body r = EmptyString -> scanner.ExtractPaths s r = [])
  /\ (forall targetURL path depth0 w0 parent err w1 fuel depth w,
      scanner.ScanURL env (app.scanner a) targetURL path depth0 w0
        = ((Some parent, err), w1) ->
      app.recursiveScan (S fuel) env a parent depth w = Some ([], w)).
Proof.
  intros Hv. split; [|split; [|split]].
  - intros method url depth w res err w' H.
    apply (makeRequest_result _ _ _ _ _ _ _ _ _ H). exact Hv.
  - intros targetURL path depth w res err w' H.
    apply (ScanURL_result _ _ _ _ _ _ _ _ _ H). exact Hv.
  - apply ExtractPaths_empty_body.
  - intros targetURL path depth0 w0 parent err w1 fuel depth w H.
    assert (Hb : scanner.Body parent = EmptyString).
    { apply (ScanURL_result _ _ _ _ _ _ _ _ _ H). exact Hv. }
    simpl. rewrite (ExtractPaths_empty_body _ _ Hb). simpl.
    destruct (depth >? _); reflexivity.
Qed.

(** The chain of pages scanned without verbose output: the scan of the index
    page has no body, and the recursion on it stops at once. *)
Lemma nonverbose_recursion_finds_nothing_witness :
  scanner.ScanURL examples.env_site (app.scanner (examples.siteApp false))
    "http://test.local" "index" 0 scanner.world0
  = ((Some (examples.quietResult "index" (examples.anchor "a") 0), None),
     scanner.mkWorld 1 0 0 0)
  /\ app.recursiveScan 2 examples.env_site (examples.siteApp false)
       (examples.quietResult "index" (examples.anchor "a") 0) 1 (scanner.mkWorld 1 0 0 0)
     = Some ([], scanner.mkWorld 1 0 0 0).
Proof.
  assert (Hscan : scanner.ScanURL examples.env_site (app.scanner (examples.siteApp false))
                    "http://test.local" "index" 0 scanner.world0
                  = ((Some (examples.quietResult "index" (examples.anchor "a") 0), None),
                     scanner.mkWorld 1 0 0 0)) by (vm_compute; reflexivity).
  split; [exact Hscan|].
  pose proof (nonverbose_recursion_finds_nothing examples.env_site
                (examples.siteApp false) eq_refl) as (_ & _ & _ & Hrec).
  exact (Hrec _ _ _ _ _ _ _ 1%nat 1 (scanner.mkWorld 1 0 0 0) Hscan).
Defined.

(* ===================================================================== *)
(** * The dispatcher and the job count *)
(* ===================================================================== *)

Lemma wrap_range z : goint.in_range (goint.wrap z).
Proof.
  unfold goint.in_range, goint.min_int, goint.max_int, goint.wrap.
  pose proof (Z.mod_pos_bound (z + 2 ^ 63) (2 ^ 64) ltac:(lia)). lia.
Qed.

Lemma wrap_wrap_add a b : goint.wrap (goint.wrap a + b) = goint.wrap (a + b).
Proof.
  unfold goint.wrap.
  replace (((a + 2 ^ 63) mod 2 ^ 64 - 2 ^ 63 + b + 2 ^ 63))
    with ((a + 2 ^ 63) mod 2 ^ 64 + b) by lia.
  rewrite Zplus_mod_idemp_l. f_equal. f_equal. lia.
Qed.

Lemma expandExtensions_length word extensions :
  length (app.expandExtensions word extensions) = length extensions.
Proof. induction extensions; simpl; congruence. Qed.

Lemma jobsOfWord_length a word :
  length (app.jobsOfWord a word)
  = spec.jobsForLine (config.Extensions (config.Scanner (app.config a))) word.
Proof.
  unfold app.jobsOfWord, spec.jobsForLine.
  destruct (gostrings.Contains word "%EXT%"); [apply expandExtensions_length|reflexivity].
Qed.

(** The counter of [calculateTotalJobs] is the wrapped sum of the per-line
    job counts. *)
Lemma countJobs_wrap a lines count :
  goint.in_range count ->
  app.countJobs (Z.of_nat (length (config.Extensions (config.Scanner (app.config a)))))
                lines count
  = goint.wrap (count + Z.of_nat (length (flat_map (app.jobsOfWord a) lines))).
Proof.
  revert count. induction lines as [|text lines IH]; intros count Hc; simpl.
  - rewrite Z.add_0_r. symmetry. apply wrap_in_range. exact Hc.
  - rewrite length_app, jobsOfWord_length. unfold spec.jobsForLine.
    destruct (gostrings.Contains text "%EXT%");
      (rewrite IH by apply wrap_range);
      unfold goint.add; rewrite wrap_wrap_add; f_equal; lia.
Qed.

(** Without cancellation the dispatcher sends the jobs of every line. *)
Lemma scan_jobs_all env a lines w :
  (forall k, scanner.ctx_Done env k = false) ->
  fst (app.scan_jobs env a lines w) = flat_map (app.jobsOfWord a) lines.
Proof.
  intros Hctx. revert w. induction lines as [|word lines IH]; intros w; simpl; [reflexivity|].
  rewrite Hctx.
  match goal with
  | |- context [app.scan_jobs env a lines ?w1] =>
      specialize (IH w1); destruct (app.scan_jobs env a lines w1) as [js w2]
  end.
  simpl in *. rewrite IH. reflexivity.
Qed.

Lemma append_empty_r s : s +:+ EmptyString = s.
Proof. induction s; simpl; congruence. Qed.

Lemma append_assoc s1 s2 s3 : (s1 +:+ s2) +:+ s3 = s1 +:+ (s2 +:+ s3).
Proof. induction s1; simpl; congruence. Qed.

Lemma HasPrefix_cons_ne c d s p :
  c <> d -> gostrings.HasPrefix (String c s) (String d p) = false.
Proof.
  intros Hne. simpl. destruct (Ascii.eqb_spec c d); [congruence|reflexivity].
Qed.

Lemma noPercent_head c s : spec.noPercent (String c s) = true -> c <> "%"%char.
Proof.
  simpl. intros H Hc. subst c. discriminate.
Qed.

Lemma noPercent_tail c s : spec.noPercent (String c s) = true -> spec.noPercent s = true.
Proof. simpl. intros H. apply andb_prop in H. tauto. Qed.

Lemma noPercent_app s1 s2 :
  spec.noPercent s1 = true -> spec.noPercent s2 = true ->
  spec.noPercent (s1 +:+ s2) = true.
Proof.
  induction s1 as [|c s1 IH]; simpl; intros H1 H2; [exact H2|].
  apply andb_prop in H1 as [Hc H1]. rewrite Hc. simpl. auto.
Qed.

(** Replacing the placeholder at the end of a stem without percent signs. *)
Lemma ReplaceAll_stem stem ext :
  spec.noPercent stem = true ->
  gostrings.ReplaceAll (stem +:+ "%EXT%") "%EXT%" ext = stem +:+ ext.
Proof.
  unfold gostrings.ReplaceAll.
  induction stem as [|c stem IH]; intros Hs.
  - simpl. apply append_empty_r.
  - change (String c stem +:+ "%EXT%") with (String c (stem +:+ "%EXT%")).
    cbn [gostrings.replace_from].
    rewrite HasPrefix_cons_ne by (apply (noPercent_head c stem Hs)).
    rewrite IH by (apply (noPercent_tail c stem Hs)). reflexivity.
Qed.

Lemma HasPrefix_refl s : gostrings.HasPrefix s s = true.
Proof.
  induction s as [|c s IH]; simpl; [reflexivity|].
  rewrite Ascii.eqb_refl. exact IH.
Qed.

Lemma Contains_suffix stem sub : gostrings.Contains (stem +:+ sub) sub = true.
Proof.
  induction stem as [|c stem IH].
  - simpl. destruct sub; cbn [gostrings.Contains]; rewrite HasPrefix_refl; reflexivity.
  - change (String c stem +:+ sub) with (String c (stem +:+ sub)).
    cbn [gostrings.Contains]. rewrite IH.
    destruct (gostrings.HasPrefix (String c (stem +:+ sub)) sub); reflexivity.
Qed.

(** A stem without percent signs, followed by a byte that is neither a dot
    nor a percent sign and by the placeholder, holds no dot-placeholder. *)
Lemma Contains_dot_placeholder_none pre c :
  spec.noPercent pre = true -> c <> "."%char -> c <> "%"%char ->
  gostrings.Contains (pre +:+ String c "%EXT%") ".%EXT%" = false.
Proof.
  intros Hpre Hdot Hpct. induction pre as [|d pre IH].
  - simpl (EmptyString +:+ _). cbn [gostrings.Contains].
    rewrite HasPrefix_cons_ne by exact Hdot. reflexivity.
  - change (String d pre +:+ String c "%EXT%") with (String d (pre +:+ String c "%EXT%")).
    cbn [gostrings.Contains]. rewrite IH by (apply (noPercent_tail d pre Hpre)).
    assert (Hh : gostrings.HasPrefix (String d (pre +:+ String c "%EXT%")) ".%EXT%" = false).
    { cbn [gostrings.HasPrefix].
      destruct (Ascii.eqb d "."); [|reflexivity]. cbn [andb].
      pose proof (noPercent_tail d pre Hpre) as Ht.
      destruct pre as [|e pre].
      - apply HasPrefix_cons_ne. exact Hpct.
      - apply HasPrefix_cons_ne. apply (noPercent_head e pre Ht). }
    rewrite Hh. reflexivity.
Qed.

Lemma Contains_placeholder_stem pre c :
  gostrings.Contains (pre +:+ String c "%EXT%") "%EXT%" = true.
Proof.
  rewrite <- (append_empty_r "%EXT%") at 1.
  change (String c ("%EXT%" +:+ EmptyString)) with (String c EmptyString +:+ "%EXT%").
  rewrite <- append_assoc. apply Contains_suffix.
Qed.

(** C2.  Without cancellation, [calculateTotalJobs] is the number of jobs the
    dispatcher sends (as a 64-bit integer): one for a line without the
    placeholder, one per extension for a line with it.  A dot written before
    the placeholder is kept as the only dot; without it a dot is inserted. *)
Theorem total_jobs_match_dispatched_jobs env a lines w :
  (forall k, scanner.ctx_Done env k = false) ->
  let jobs := fst (app.scan_jobs env a lines w) in
  app.calculateTotalJobs a lines = goint.wrap (Z.of_nat (length jobs))
  /\ (Z.of_nat (length jobs) <= goint.max_int ->
      app.calculateTotalJobs a lines = Z.of_nat (length jobs))
  /\ jobs = flat_map (app.jobsOfWord a) lines
  /\ (forall line,
       length (app.jobsOfWord a line)
       = if gostrings.Contains line "%EXT%"
         then length (config.Extensions (config.Scanner (app.config a)))
         else 1%nat)
  /\ app.expandWord "file.%EXT%" "php" = "file.php"
  /\ app.expandWord "file%EXT%" "php" = "file.php"
  /\ (forall stem ext,
       spec.noPercent stem = true ->
       app.expandWord (stem +:+ ".%EXT%") ext = stem +:+ "." +:+ ext)
  /\ (forall pre c ext,
       spec.noPercent pre = true -> c <> "."%char -> c <> "%"%char ->
       gostrings.HasPrefix ext "." = false ->
       app.expandWord (pre +:+ String c "%EXT%") ext
       = pre +:+ String c ("." +:+ ext)).
Proof.
  intros Hctx jobs.
  assert (Hjobs : jobs = flat_map (app.jobsOfWord a) lines)
    by (apply scan_jobs_all; exact Hctx).
  assert (Hcount : app.calculateTotalJobs a lines = goint.wrap (Z.of_nat (length jobs))).
  { unfold app.calculateTotalJobs. rewrite countJobs_wrap, Hjobs.
    - reflexivity.
    - unfold goint.in_range, goint.min_int, goint.max_int. lia. }
  split; [exact Hcount|]. split.
  { intros Hle. rewrite Hcount. apply wrap_in_range.
    unfold goint.in_range, goint.min_int. lia. }
  split; [exact Hjobs|]. split.
  { intros line. rewrite jobsOfWord_length. reflexivity. }
  split; [reflexivity|]. split; [reflexivity|]. split.
  - intros stem ext Hs. unfold app.expandWord.
    rewrite Contains_suffix.
    change (stem +:+ ".%EXT%") with (stem +:+ ("." +:+ "%EXT%")).
    rewrite <- append_assoc, ReplaceAll_stem.
    + apply append_assoc.
    + apply noPercent_app; [exact Hs|reflexivity].
  - intros pre c ext Hs Hdot Hpct Hext. unfold app.expandWord.
    rewrite Contains_dot_placeholder_none by assumption.
    rewrite Hext. simpl negb. cbv iota.
    change (pre +:+ String c "%EXT%") with (pre +:+ (String c EmptyString +:+ "%EXT%")).
    rewrite <- append_assoc, ReplaceAll_stem.
    + rewrite append_assoc. reflexivity.
    + apply noPercent_app; [exact Hs|].
      simpl. destruct (Ascii.eqb_spec c "%"); [congruence|reflexivity].
Qed.

(** The end-to-end example of the specification: lines [a] and [file.%EXT%]
    with the extensions [php] and [txt] give three jobs, counted as three. *)
Lemma total_jobs_match_dispatched_jobs_witness :
  fst (app.scan_jobs examples.env_site (examples.siteApp false) ["a"; "file.%EXT%"]
         scanner.world0) = ["a"; "file.php"; "file.txt"]
  /\ app.calculateTotalJobs (examples.siteApp false) ["a"; "file.%EXT%"] = 3.
Proof.
  pose proof (total_jobs_match_dispatched_jobs examples.env_site (examples.siteApp false)
                ["a"; "file.%EXT%"] scanner.world0 (fun _ => eq_refl))
    as (_ & Hcount & Hjobs & _).
  split; [exact Hjobs|]. apply Hcount. simpl. unfold goint.max_int. lia.
Defined.

(* ===================================================================== *)
(** * The result filter *)
(* ===================================================================== *)

Lemma statusListed_elem codes status :
  scanner.statusListed codes status = bool_decide (status ∈ codes).
Proof.
  induction codes as [|code codes IH]; cbn [scanner.statusListed].
  - symmetry. apply bool_decide_eq_false_2. apply not_elem_of_nil.
  - destruct (Z.eqb_spec status code) as [->|Hne].
    + symmetry. apply bool_decide_eq_true_2. apply elem_of_cons. auto.
    + rewrite IH. apply bool_decide_ext. rewrite elem_of_cons. tauto.
Qed.

Lemma wordListed_existsb words body :
  scanner.wordListed words body = existsb (gostrings.Contains body) words.
Proof.
  induction words as [|word words IH]; simpl; [reflexivity|].
  rewrite IH. destruct (gostrings.Contains body word); reflexivity.
Qed.

Lemma nonempty_length {A} `{EqDecision (list A)} (l : list A) :
  (0 <? Z.of_nat (length l)) = negb (bool_decide (l = [])).
Proof.
  destruct l.
  - rewrite bool_decide_eq_true_2 by reflexivity. reflexivity.
  - rewrite bool_decide_eq_false_2 by discriminate. reflexivity.
Qed.

(** The code is the conjunction of the seven rules, taken in order. *)
Lemma shouldIncludeResult_rules s r :
  scanner.shouldIncludeResult s r = spec.include s r.
Proof.
  unfold scanner.shouldIncludeResult, spec.include, spec.statusAllowed,
    spec.statusNotDenied, spec.sizeWithinBounds, spec.includeRegexHolds,
    spec.excludeRegexHolds, spec.includeWordsHold, spec.excludeWordsHold.
  cbn [forallb].
  rewrite !nonempty_length, !statusListed_elem, !wordListed_existsb.
  destruct (bool_decide (config.StatusCodes _ = [])),
    (bool_decide (scanner.StatusCode r ∈ config.StatusCodes _)),
    (bool_decide (scanner.StatusCode r ∈ config.ExcludeStatus _)); simpl; try reflexivity.
  all: destruct (Z.ltb_spec 0 (config.MinSize (config.Filters (scanner.config s))));
    destruct (Z.ltb_spec 0 (config.MaxSize (config.Filters (scanner.config s))));
    destruct (Z.ltb_spec (scanner.Size r) (config.MinSize (config.Filters (scanner.config s))));
    destruct (Z.leb_spec (config.MinSize (config.Filters (scanner.config s))) (scanner.Size r));
    destruct (Z.leb_spec (scanner.Size r) (config.MaxSize (config.Filters (scanner.config s))));
    try lia;
    repeat match goal with
           | |- context [?a >? ?b] => rewrite (Z.gtb_ltb a b)
           end;
    repeat match goal with
           | |- context [?a <? ?b] => destruct (Z.ltb_spec a b); try lia
           end;
    simpl; try reflexivity.
  all: destruct (scanner.includeRegex s) as [inc|];
    [destruct (goregexp.MatchString inc (scanner.Body r))|]; simpl; try reflexivity.
  all: destruct (scanner.excludeRegex s) as [exc|];
    [destruct (goregexp.MatchString exc (scanner.Body r))|]; simpl; try reflexivity.
  all: destruct (bool_decide (config.IncludeWords _ = [])); simpl;
    try destruct (existsb _ (config.IncludeWords _)); simpl; try reflexivity.
  all: induction (config.ExcludeWords (config.Filters (scanner.config s)))
         as [|word words IHw]; simpl; [reflexivity|];
       destruct (gostrings.Contains (scanner.Body r) word); simpl; [reflexivity|exact IHw].
Qed.

(** C4.  [shouldIncludeResult] is the conjunction of the seven rules, in the
    stated order, the first failing rule deciding: allow-list (when not
    empty), deny-list, size bounds (a bound that is zero is not applied),
    include expression, exclude expression, include keywords (when there are
    any), exclude keywords.  With [ExcludeStatus = [404]] a result with
    status 404 is rejected, and one with status 200 is accepted when no other
    rule is configured. *)
Theorem shouldIncludeResult_rules_in_order s r :
  scanner.shouldIncludeResult s r
  = (spec.statusAllowed s r
     && (spec.statusNotDenied s r
     && (spec.sizeWithinBounds s r
     && (spec.includeRegexHolds s r
     && (spec.excludeRegexHolds s r
     && (spec.includeWordsHold s r
     && (spec.excludeWordsHold s r && true)))))))
  /\ (config.MinSize (config.Filters (scanner.config s)) = 0 ->
      config.MaxSize (config.Filters (scanner.config s)) = 0 ->
      spec.sizeWithinBounds s r = true)
  /\ (config.ExcludeStatus (config.Filters (scanner.config s)) = [404] ->
      scanner.StatusCode r = 404 ->
      scanner.shouldIncludeResult s r = false)
  /\ (config.ExcludeStatus (config.Filters (scanner.config s)) = [404] ->
      config.StatusCodes (config.Filters (scanner.config s)) = [] ->
      config.MinSize (config.Filters (scanner.config s)) = 0 ->
      config.MaxSize (config.Filters (scanner.config s)) = 0 ->
      scanner.includeRegex s = None ->
      scanner.excludeRegex s = None ->
      config.IncludeWords (config.Filters (scanner.config s)) = [] ->
      config.ExcludeWords (config.Filters (scanner.config s)) = [] ->
      scanner.StatusCode r = 200 ->
      scanner.shouldIncludeResult s r = true).
Proof.
  split; [apply shouldIncludeResult_rules|]. split; [|split].
  - intros Hmin Hmax. unfold spec.sizeWithinBounds. rewrite Hmin, Hmax. reflexivity.
  - intros Hdeny Hst. rewrite shouldIncludeResult_rules.
    unfold spec.include. cbn [forallb].
    assert (Hd : spec.statusNotDenied s r = false).
    { unfold spec.statusNotDenied. rewrite Hdeny, Hst. reflexivity. }
    rewrite Hd. apply andb_false_r.
  - intros Hdeny Hallow Hmin Hmax Hinc Hexc Hiw Hew Hst.
    unfold scanner.shouldIncludeResult.
    rewrite Hdeny, Hallow, Hmin, Hmax, Hinc, Hexc, Hiw, Hew, Hst. reflexivity.
Qed.

(** The two examples on the site configuration, whose only rule is the
    deny-list [404]. *)
Lemma shouldIncludeResult_rules_in_order_witness :
  scanner.shouldIncludeResult (examples.plainScanner (examples.siteConfig false))
    (scanner.mkResult "http://test.local/x" 404 9 ∅ EmptyString EmptyString 0 "GET" 0)
  = false
  /\ scanner.shouldIncludeResult (examples.plainScanner (examples.siteConfig false))
       (scanner.mkResult "http://test.local/a" 200 9 ∅ EmptyString EmptyString 0 "GET" 0)
     = true.
Proof.
  split.
  - apply (proj1 (proj2 (proj2 (shouldIncludeResult_rules_in_order
             (examples.plainScanner (examples.siteConfig false))
             (scanner.mkResult "http://test.local/x" 404 9 ∅ EmptyString EmptyString
                               0 "GET" 0))))); reflexivity.
  - apply (proj2 (proj2 (proj2 (shouldIncludeResult_rules_in_order
             (examples.plainScanner (examples.siteConfig false))
             (scanner.mkResult "http://test.local/a" 200 9 ∅ EmptyString EmptyString
                               0 "GET" 0))))); reflexivity.
Defined.

(* ===================================================================== *)
(** * Content filters on a result without body *)
(* ===================================================================== *)

Lemma forallb_negb_existsb {A} (f : A -> bool) (l : list A) :
  forallb (fun x => negb (f x)) l = negb (existsb f l).
Proof.
  induction l as [|x l IH]; simpl; [reflexivity|].
  rewrite IH. destruct (f x); reflexivity.
Qed.

(** The empty string contains the empty keyword only. *)
Lemma Contains_empty word :
  gostrings.Contains EmptyString word = bool_decide (word = EmptyString).
Proof.
  destruct word; cbn [gostrings.Contains gostrings.HasPrefix].
  - rewrite bool_decide_eq_true_2 by reflexivity. reflexivity.
  - rewrite bool_decide_eq_false_2 by discriminate. reflexivity.
Qed.

Lemma wordListed_empty_body words :
  scanner.wordListed words EmptyString = bool_decide (EmptyString ∈ words).
Proof.
  induction words as [|word words IH]; cbn [scanner.wordListed].
  - symmetry. apply bool_decide_eq_false_2. apply not_elem_of_nil.
  - rewrite Contains_empty. destruct (decide (word = EmptyString)) as [->|Hne].
    + rewrite bool_decide_eq_true_2 by reflexivity.
      symmetry. apply bool_decide_eq_true_2. apply elem_of_cons. auto.
    + rewrite bool_decide_eq_false_2 by exact Hne.
      rewrite IH. apply bool_decide_ext. rewrite elem_of_cons. split; [auto|].
      intros [?|?]; [congruence|assumption].
Qed.

(** An expression built from the syntax matches the empty string exactly
    when it is nullable. *)
Lemma compile_matches_empty syntax :
  goregexp.MatchString (goregexp.compile syntax) EmptyString = goregexp.nullable syntax.
Proof. simpl. rewrite !orb_false_r. reflexivity. Qed.

(** C9 (as amended).  On a result without body the content checks run on the
    empty string.  A keyword is found only if it is the empty keyword; an
    expression matches exactly when it matches the empty string.  So keywords
    that are not empty never exclude such a result and never satisfy the
    include list, while an exclude expression such as [.*] does exclude it
    and an include expression that matches the empty string accepts it. *)
Theorem bodyless_content_checks s r :
  scanner.Body r = EmptyString ->
  spec.excludedByWord s r
    = bool_decide (EmptyString ∈ config.ExcludeWords (config.Filters (scanner.config s)))
  /\ spec.includeWordMatches s r
    = bool_decide (EmptyString ∈ config.IncludeWords (config.Filters (scanner.config s)))
  /\ spec.excludedByRegex s r
    = match scanner.excludeRegex s with
      | Some re => goregexp.MatchString re EmptyString
      | None => false
      end
  /\ spec.includeRegexMatches s r
    = match scanner.includeRegex s with
      | Some re => goregexp.MatchString re EmptyString
      | None => false
      end
  /\ (forall syntax,
       goregexp.MatchString (goregexp.compile syntax) EmptyString
       = goregexp.nullable syntax)
  /\ scanner.shouldIncludeResult s r
    = (spec.statusAllowed s r
       && (spec.statusNotDenied s r
       && (spec.sizeWithinBounds s r
       && (match scanner.includeRegex s with
           | Some re => goregexp.MatchString re EmptyString
           | None => true
           end
       && (match scanner.excludeRegex s with
           | Some re => negb (goregexp.MatchString re EmptyString)
           | None => true
           end
       && ((bool_decide (config.IncludeWords (config.Filters (scanner.config s)) = [])
            || bool_decide
                 (EmptyString ∈ config.IncludeWords (config.Filters (scanner.config s))))
       && negb (bool_decide
                  (EmptyString ∈ config.ExcludeWords (config.Filters (scanner.config s)))))))))).
Proof.
  intros Hb.
  unfold spec.excludedByWord, spec.includeWordMatches, spec.excludedByRegex,
    spec.includeRegexMatches.
  rewrite Hb, !wordListed_empty_body.
  repeat (split; [reflexivity|]).
  split; [apply compile_matches_empty|].
  rewrite shouldIncludeResult_rules. unfold spec.include. cbn [forallb].
  unfold spec.includeRegexHolds, spec.excludeRegexHolds, spec.includeWordsHold,
    spec.excludeWordsHold.
  rewrite Hb, andb_true_r.
  rewrite forallb_negb_existsb, <- !wordListed_existsb, !wordListed_empty_body.
  reflexivity.
Qed.

(** With the include expression [admin], a result without body is rejected,
    whatever page it came from. *)
Lemma bodyless_content_checks_witness :
  spec.includeRegexMatches examples.includeAdmin
    (examples.quietResult "admin" "admin panel" 0) = false
  /\ scanner.shouldIncludeResult examples.includeAdmin
       (examples.quietResult "admin" "admin panel" 0) = false.
Proof.
  pose proof (bodyless_content_checks examples.includeAdmin
                (examples.quietResult "admin" "admin panel" 0) eq_refl)
    as (_ & _ & _ & Hinc & _ & Hall).
  split; [rewrite Hinc|rewrite Hall]; reflexivity.
Defined.

(** C9 as stated fails: the exclude expression [.*] matches the empty body
    and rejects the result. *)
Lemma bodyless_excluded_by_regex_counterexample :
  ~ spec.bodylessNeverMatches examples.excludeAnything
      (examples.quietResult "index" (examples.anchor "a") 0).
Proof.
  intros H. destruct (H eq_refl) as [Hex _]. discriminate Hex.
Qed.

(** The effect on the filter: the result passes without the expression and
    is dropped with it. *)
Lemma bodyless_excluded_by_regex_filter :
  scanner.shouldIncludeResult (examples.plainScanner (examples.siteConfig false))
    (examples.quietResult "index" (examples.anchor "a") 0) = true
  /\ scanner.shouldIncludeResult examples.excludeAnything
       (examples.quietResult "index" (examples.anchor "a") 0) = false.
Proof. split; reflexivity. Qed.

(* ===================================================================== *)
(** * The rate limiter *)
(* ===================================================================== *)

Lemma bucketStep_ok cap b op b' :
  spec.bucket_ok cap b -> scanner.bucketStep b op = Some b' -> spec.bucket_ok cap b'.
Proof.
  unfold spec.bucket_ok. intros [Hc Ht]. destruct op; simpl.
  - intros [= <-]. unfold scanner.fillRateLimiter_tick.
    destruct (Z.ltb_spec (scanner.tokens b) (scanner.capacity b)); simpl; lia.
  - unfold scanner.receiveToken.
    destruct (Z.ltb_spec 0 (scanner.tokens b)); [|discriminate].
    intros [= <-]. simpl. lia.
Qed.

Lemma bucketRun_ok cap ops : forall b b',
  spec.bucket_ok cap b -> scanner.bucketRun b ops = Some b' -> spec.bucket_ok cap b'.
Proof.
  induction ops as [|op ops IH]; intros b b' Hb; simpl.
  - intros [= <-]. exact Hb.
  - destruct (scanner.bucketStep b op) as [b1|] eqn:Hstep; [|discriminate].
    apply IH. eapply bucketStep_ok; eauto.
Qed.

(** C8.  The token bucket is a channel made with capacity
    [RequestsPerSecond]; a tick deposits at most one token and drops it,
    without blocking, when the bucket is full; so under any schedule of
    ticks and receives the bucket holds at most [RequestsPerSecond] tokens.
    With the limiter enabled, [ScanURL] first either receives a token or, if
    the cancellation is selected, returns the cancellation error without any
    request; with the limiter disabled it goes straight on. *)
Theorem rateLimiter_bucket_and_acquire :
  (forall compile cfg s,
      scanner.New compile cfg = Some s ->
      scanner.rateLimiter s
      = if config.Enabled (config.RateLimit cfg)
        then Some (config.RequestsPerSecond (config.RateLimit cfg)) else None)
  /\ (forall b,
      scanner.bucketStep b scanner.opTick = Some (scanner.fillRateLimiter_tick b)
      /\ scanner.capacity (scanner.fillRateLimiter_tick b) = scanner.capacity b
      /\ scanner.tokens b <= scanner.tokens (scanner.fillRateLimiter_tick b)
         <= scanner.tokens b + 1
      /\ (scanner.capacity b <= scanner.tokens b -> scanner.fillRateLimiter_tick b = b))
  /\ (forall b b',
      scanner.receiveToken b = Some b' ->
      0 < scanner.tokens b /\ scanner.tokens b' = scanner.tokens b - 1)
  /\ (forall cap ops b,
      0 <= cap ->
      scanner.bucketRun (scanner.makeBucket cap) ops = Some b ->
      scanner.capacity b = cap /\ 0 <= scanner.tokens b <= cap)
  /\ (forall env s cap targetURL path depth w,
      scanner.rateLimiter s = Some cap ->
      let w1 := scanner.mkWorld (scanner.requests w) (scanner.polls w)
                                (S (scanner.selects w)) (scanner.clock w) in
      scanner.ScanURL env s targetURL path depth w
      = match scanner.rateLimiter_select env (scanner.selects w) with
        | scanner.recvToken => scanner.scanAfterLimiter env s targetURL path depth w1
        | scanner.recvDone => ((None, Some scanner.Canceled), w1)
        end)
  /\ (forall env s targetURL path depth w,
      scanner.rateLimiter s = None ->
      scanner.ScanURL env s targetURL path depth w
      = scanner.scanAfterLimiter env s targetURL path depth w).
Proof.
  split; [|split; [|split; [|split; [|split]]]].
  - intros compile cfg s. unfold scanner.New.
    destruct (if negb (String.eqb (config.IncludeRegex _) _) then _ else _) as [inc|];
      [|discriminate].
    destruct (if negb (String.eqb (config.ExcludeRegex _) _) then _ else _) as [exc|];
      [|discriminate].
    intros [= <-]. reflexivity.
  - intros b. unfold scanner.fillRateLimiter_tick. split; [reflexivity|].
    destruct (Z.ltb_spec (scanner.tokens b) (scanner.capacity b)); simpl;
      repeat split; try lia; try reflexivity.
  - intros b b'. unfold scanner.receiveToken.
    destruct (Z.ltb_spec 0 (scanner.tokens b)); [|discriminate].
    intros [= <-]. simpl. lia.
  - intros cap ops b Hcap Hrun.
    apply (bucketRun_ok cap ops (scanner.makeBucket cap) b); [|exact Hrun].
    unfold spec.bucket_ok. simpl. lia.
  - intros env s cap targetURL path depth w Hrl. unfold scanner.ScanURL.
    rewrite Hrl. simpl. destruct (scanner.rateLimiter_select env _); reflexivity.
  - intros env s targetURL path depth w Hrl. unfold scanner.ScanURL.
    rewrite Hrl. reflexivity.
Qed.

(** Five requests per second: after eight ticks, a receive and a tick the
    bucket of capacity five holds five tokens; and a scan whose select ends
    with the cancellation makes no request. *)
Lemma rateLimiter_bucket_and_acquire_witness :
  (scanner.bucketRun (scanner.makeBucket 5)
     (repeat scanner.opTick 8 ++ [scanner.opReceive; scanner.opTick])
   = Some (scanner.mkBucket 5 5)
   /\ scanner.capacity (scanner.mkBucket 5 5) = 5
   /\ 0 <= scanner.tokens (scanner.mkBucket 5 5) <= 5)
  /\ scanner.ScanURL examples.env_cancelled examples.limitedScanner
       "http://test.local" "admin" 0 scanner.world0
     = ((None, Some scanner.Canceled), scanner.mkWorld 0 0 1 0).
Proof.
  pose proof rateLimiter_bucket_and_acquire as (_ & _ & _ & Hinv & Hacq & _).
  split.
  - split; [reflexivity|].
    apply (Hinv 5 (repeat scanner.opTick 8 ++ [scanner.opReceive; scanner.opTick])).
    + lia.
    + reflexivity.
  - apply (Hacq examples.env_cancelled examples.limitedScanner 5). reflexivity.
Defined.

(* ===================================================================== *)
(** * Path extraction *)
(* ===================================================================== *)

Lemma HasPrefix_split s p :
  gostrings.HasPrefix s p = true -> s = p +:+ gostrings.drop (String.length p) s.
Proof.
  revert s. induction p as [|c p IH]; intros s; simpl; [reflexivity|].
  destruct s as [|d s]; simpl; [discriminate|].
  destruct (Ascii.eqb_spec d c) as [->|]; [|discriminate]. simpl.
  intros H. f_equal. apply IH. exact H.
Qed.

(** [spanValue] splits a string into a run without quotes and a rest that
    is empty or starts with a quote. *)
Lemma spanValue_spec s v rest :
  scanner.spanValue s = (v, rest) ->
  s = v +:+ rest /\ spec.noQuote v = true
  /\ match rest with
     | EmptyString => True
     | String q _ => scanner.isQuote q = true
     end.
Proof.
  revert v rest. induction s as [|c s IH]; intros v rest; simpl.
  - intros [= <- <-]. auto.
  - destruct (scanner.isQuote c) eqn:Hq.
    + intros [= <- <-]. simpl. auto.
    + destruct (scanner.spanValue s) as [v0 rest0].
      intros [= <- <-]. destruct (IH v0 rest0 eq_refl) as (-> & Hv & Hr).
      simpl. rewrite Hq, Hv. auto.
Qed.

(** A match of the path expression is the text [href=], a quote, a value
    that is not empty and holds no quote, and a quote. *)
Lemma matchHrefAt_spec s whole v :
  scanner.matchHrefAt s = Some (whole, v) ->
  exists q q' rest,
    s = whole +:+ rest
    /\ whole = "href=" +:+ String q (v +:+ String q' EmptyString)
    /\ scanner.isQuote q = true /\ scanner.isQuote q' = true
    /\ v <> EmptyString /\ spec.noQuote v = true.
Proof.
  unfold scanner.matchHrefAt.
  destruct (gostrings.HasPrefix s "href=") eqn:Hp; [|discriminate].
  apply HasPrefix_split in Hp. simpl String.length in Hp.
  destruct (gostrings.drop 5 s) as [|q rest]; [discriminate|].
  destruct (scanner.isQuote q) eqn:Hq; [|discriminate].
  destruct (scanner.spanValue rest) as [v0 rest0] eqn:Hspan.
  destruct v0 as [|c v0]; [discriminate|].
  destruct rest0 as [|q' rest0]; [discriminate|].
  intros [= <- <-].
  destruct (spanValue_spec _ _ _ Hspan) as (-> & Hv & Hq').
  exists q, q', rest0. repeat split; auto; try discriminate.
  rewrite Hp. simpl. rewrite append_assoc. reflexivity.
Qed.

(** Every match found in a body is a match at some offset of it, and has
    the two elements the loop of [ExtractPaths] reads. *)
Lemma findAllHref_spec s : forall skip m,
  In m (scanner.findAllHref skip s) ->
  exists pre suf whole v,
    m = [whole; v] /\ s = pre +:+ suf /\ scanner.matchHrefAt suf = Some (whole, v).
Proof.
  induction s as [|c s IH]; intros skip m; simpl; [intros []|].
  assert (Hrest : forall k, In m (scanner.findAllHref k s) ->
    exists pre suf whole v,
      m = [whole; v] /\ String c s = pre +:+ suf
      /\ scanner.matchHrefAt suf = Some (whole, v)).
  { intros k Hin. destruct (IH k m Hin) as (pre & suf & whole & v & Hm & Hs & Hat).
    exists (String c pre), suf, whole, v. simpl. rewrite <- Hs. auto. }
  destruct skip as [|k]; [|apply Hrest].
  destruct (scanner.matchHrefAt (String c s)) as [[whole v]|] eqn:Hat; [|apply Hrest].
  intros [<-|Hin]; [|eapply Hrest; eauto].
  exists EmptyString, (String c s), whole, v. auto.
Qed.

(** The loop of [ExtractPaths] appends the extracted path of each value. *)
Lemma extractLoop_spec matches : forall paths,
  Forall (fun m => length m = 2%nat) matches ->
  scanner.extractLoop matches paths
  = paths ++ spec.extractedPaths (map (fun m => nth 1 m EmptyString) matches).
Proof.
  induction matches as [|m matches IH]; intros paths Hlen.
  - simpl. rewrite app_nil_r. reflexivity.
  - inversion Hlen as [|? ? Hm Hrest]; subst.
    cbn [scanner.extractLoop map spec.extractedPaths].
    rewrite IH by exact Hrest. rewrite Hm.
    change (1 <? Z.of_nat 2) with true. cbv iota.
    unfold spec.extractedPath, spec.isLocalReference.
    destruct (negb _ && negb _ && negb _ && negb _); [|reflexivity].
    destruct (gourl.Parse _) as [u|]; [|reflexivity].
    destruct (negb _); [|reflexivity].
    rewrite <- app_assoc. reflexivity.
Qed.

Lemma findAllHref_lengths s skip :
  Forall (fun m => length m = 2%nat) (scanner.findAllHref skip s).
Proof.
  apply Forall_forall. intros m Hin.
  apply list_elem_of_In in Hin.
  destruct (findAllHref_spec s skip m Hin) as (_ & _ & whole & v & -> & _).
  reflexivity.
Qed.

(** C10 (as amended).  [ExtractPaths] returns, in order, for each reference
    value that does not start with [http], [mailto:], [#] or [javascript:]
    and parses as a URL with a path that is not empty, the [Path] of the
    parsed URL (the value without query and fragment, percent-decoded)
    with one leading slash removed.  Each value is the text between quotes
    after an [href=] somewhere in the body. *)
Theorem ExtractPaths_parsed_paths s r :
  scanner.ExtractPaths s r = spec.extractedPaths (spec.hrefValues (scanner.Body r))
  /\ (forall v, In v (spec.hrefValues (scanner.Body r)) ->
       exists pre q q' rest,
         scanner.Body r = pre +:+ "href=" +:+ String q (v +:+ String q' rest)
         /\ scanner.isQuote q = true /\ scanner.isQuote q' = true
         /\ v <> EmptyString /\ spec.noQuote v = true)
  /\ scanner.ExtractPaths s
       (examples.pageResult "index"
          (examples.anchor "admin/login" +:+ examples.anchor "http://external.com/x") 0)
     = ["admin/login"].
Proof.
  split; [|split].
  - unfold scanner.ExtractPaths, spec.hrefValues, scanner.FindAllStringSubmatch_pathRegex.
    destruct (String.eqb_spec (scanner.Body r) EmptyString) as [->|_]; [reflexivity|].
    rewrite extractLoop_spec by apply findAllHref_lengths. reflexivity.
  - intros v Hin. unfold spec.hrefValues, scanner.FindAllStringSubmatch_pathRegex in Hin.
    apply in_map_iff in Hin as (m & <- & Hm).
    destruct (findAllHref_spec _ _ _ Hm) as (pre & suf & whole & v & -> & Hs & Hat).
    destruct (matchHrefAt_spec _ _ _ Hat) as (q & q' & rest & -> & -> & Hq & Hq' & Hv & Hnq).
    exists pre, q, q', rest. simpl nth. repeat split; auto.
    rewrite Hs. f_equal. simpl. rewrite append_assoc. reflexivity.
  - reflexivity.
Qed.

(** The first reference of the example page is found between quotes after
    an [href=]. *)
Lemma ExtractPaths_parsed_paths_witness :
  exists pre q q' rest,
    examples.anchor "admin/login" +:+ examples.anchor "http://external.com/x"
    = pre +:+ "href=" +:+ String q ("admin/login" +:+ String q' rest)
    /\ scanner.isQuote q = true /\ scanner.isQuote q' = true
    /\ "admin/login" <> EmptyString /\ spec.noQuote "admin/login" = true.
Proof.
  apply (proj1 (proj2 (ExtractPaths_parsed_paths
           (examples.plainScanner (examples.siteConfig true))
           (examples.pageResult "index"
              (examples.anchor "admin/login" +:+ examples.anchor "http://external.com/x")
              0))) "admin/login").
  vm_compute. left. reflexivity.
Defined.

(** C10 as stated fails: for a reference with a query string the code
    returns the path, not the value. *)
Lemma ExtractPaths_query_counterexample :
  scanner.ExtractPaths (examples.plainScanner (examples.siteConfig true))
    (examples.pageResult "index" (examples.anchor "/a?x=1") 0)
  <> spec.claimedPaths (examples.anchor "/a?x=1").
Proof. vm_compute. discriminate. Qed.

(** What the two sides are, and two more references on which they differ. *)
Lemma ExtractPaths_query_example :
  scanner.ExtractPaths (examples.plainScanner (examples.siteConfig true))
    (examples.pageResult "index"
       (examples.anchor "/a?x=1" +:+ examples.anchor "img/a%20b.png"
        +:+ examples.anchor "docs#top") 0)
  = ["a"; "img/a b.png"; "docs"]
  /\ spec.claimedPaths
       (examples.anchor "/a?x=1" +:+ examples.anchor "img/a%20b.png"
        +:+ examples.anchor "docs#top")
     = ["a?x=1"; "img/a%20b.png"; "docs#top"].
Proof. split; reflexivity. Qed.

(* ===================================================================== *)
(** * Shutdown: how often the buffered writers are flushed *)
(* ===================================================================== *)

Lemma flushCalls_app f cs1 cs2 :
  output.flushCalls f (cs1 ++ cs2)
  = (output.flushCalls f cs1 + output.flushCalls f cs2)%nat.
Proof.
  induction cs1 as [|[g|g] cs1 IH]; simpl; [reflexivity| |exact IH].
  destruct (String.eqb g f); simpl; rewrite IH; reflexivity.
Qed.

Lemma commits_app f cs1 cs2 :
  output.commits f (cs1 ++ cs2) = (output.commits f cs1 + output.commits f cs2)%nat.
Proof.
  induction cs1 as [|[g|g] cs1 IH]; simpl; [reflexivity|exact IH|].
  destruct (String.eqb g f); simpl; rewrite IH; reflexivity.
Qed.

Section Shutdown.

Context (format filename : string) (verbose : bool).

Lemma Write_appWriter results r :
  fst (output.Write (spec.appWriter format filename verbose results) r)
  = spec.appWriter format filename verbose (results ++ [r]).
Proof.
  unfold spec.appWriter, spec.fileWriter. destruct (String.eqb format "json"); reflexivity.
Qed.

Lemma writeResults_appWriter a results more :
  app.writer a = Some (spec.appWriter format filename verbose results) ->
  app.writer (app.writeResults a more)
  = Some (spec.appWriter format filename verbose (results ++ more)).
Proof.
  revert a results. induction more as [|r more IH]; intros a results Hw; simpl.
  - rewrite app_nil_r. exact Hw.
  - rewrite (IH _ (results ++ [r])).
    + rewrite <- app_assoc. reflexivity.
    + simpl. rewrite Hw, Write_appWriter. reflexivity.
Qed.

Lemma Flush_appWriter results io :
  output.Flush (spec.appWriter format filename verbose results) io
  = output.flushDocument filename results (spec.document format results) io.
Proof.
  unfold spec.appWriter, spec.fileWriter, spec.document.
  destruct (String.eqb format "json"); simpl;
    destruct (output.flushDocument _ _ _ _) as [[e|] io']; reflexivity.
Qed.

Lemma Close_appWriter results io :
  output.Close (spec.appWriter format filename verbose results) io
  = output.flushDocument filename results (spec.document format results) io.
Proof.
  unfold spec.appWriter, spec.fileWriter, spec.document.
  destruct (String.eqb format "json"); simpl;
    destruct (output.flushDocument _ _ _ _) as [[e|] io']; reflexivity.
Qed.

Lemma flushBufferedOutput_appWriter a results io :
  app.writer a = Some (spec.appWriter format filename verbose results) ->
  app.flushBufferedOutput a io
  = output.flushDocument filename results (spec.document format results) io.
Proof.
  intros Hw. unfold app.flushBufferedOutput, app.flushMultiWriter. rewrite Hw.
  apply Flush_appWriter.
Qed.

(** One flush: one more call; the file is rewritten when there are results
    and it can be created. *)
Lemma flushDocument_effect results doc io :
  let io' := snd (output.flushDocument filename results doc io) in
  output.createFails io' = output.createFails io
  /\ output.flushCalls filename (output.calls io')
     = S (output.flushCalls filename (output.calls io))
  /\ output.commits filename (output.calls io')
     = (output.commits filename (output.calls io)
        + if output.createFails io filename then 0
          else match results with [] => 0 | _ :: _ => 1 end)%nat
  /\ output.files io'
     = if output.createFails io filename then output.files io
       else match results with
            | [] => output.files io
            | _ :: _ => <[filename := doc]> (output.files io)
            end.
Proof.
  unfold output.flushDocument.
  destruct results as [|r results]; simpl.
  - rewrite flushCalls_app, commits_app. simpl. rewrite String.eqb_refl.
    destruct (output.createFails io filename); repeat split; lia.
  - destruct (output.createFails io filename) eqn:Hf; simpl;
      rewrite ?flushCalls_app, ?commits_app; simpl; rewrite String.eqb_refl;
      repeat split; lia.
Qed.

End Shutdown.

Lemma NewApp_writer_file cfg :
  config.File (config.Output cfg) <> EmptyString ->
  config.Format (config.Output cfg) = "json" \/ config.Format (config.Output cfg) = "csv" ->
  app.NewApp_writer cfg
  = Some (output.MultiWriter
            [output.ConsoleWriter (config.Verbose (config.Output cfg));
             spec.fileWriter (config.Format (config.Output cfg))
                             (config.File (config.Output cfg)) []]).
Proof.
  intros Hfile Hfmt. unfold app.NewApp_writer, output.CreateBufferedWriter, spec.fileWriter.
  destruct (String.eqb_spec (config.File (config.Output cfg)) EmptyString) as [|_];
    [contradiction|].
  destruct Hfmt as [-> | ->]; reflexivity.
Qed.

(** C5 (as amended).  With a buffered file writer configured, the
    cancellation path calls its [Flush] three times: in the signal handler,
    in [Run] after the scan has returned, and through [Close].  A flush with
    results buffered writes the whole document anew, so when the file can be
    created it ends up holding one complete document of all buffered results
    (written twice, or three times when results were buffered before the
    signal); with nothing buffered no file is written.  A scan that runs to
    its end flushes twice. *)
Theorem cancellation_flushes_three_times cfg a before between io :
  config.File (config.Output cfg) <> EmptyString ->
  config.Format (config.Output cfg) = "json" \/ config.Format (config.Output cfg) = "csv" ->
  app.writer a = app.NewApp_writer cfg ->
  let file := config.File (config.Output cfg) in
  let io' := app.cancellationPath a before between io in
  output.flushCalls file (output.calls io')
    = (output.flushCalls file (output.calls io) + 3)%nat
  /\ (output.createFails io file = false ->
      before ++ between <> [] ->
      output.files io' !! file
        = Some (spec.document (config.Format (config.Output cfg)) (before ++ between))
      /\ output.commits file (output.calls io')
         = (output.commits file (output.calls io)
            + match before with [] => 2 | _ :: _ => 3 end)%nat)
  /\ (before ++ between = [] ->
      output.files io' = output.files io
      /\ output.commits file (output.calls io') = output.commits file (output.calls io))
  /\ output.flushCalls file
       (output.calls (app.completionPath a (before ++ between) io))
     = (output.flushCalls file (output.calls io) + 2)%nat.
Proof.
  intros Hfile Hfmt Hw file io'.
  rewrite (NewApp_writer_file cfg Hfile Hfmt) in Hw.
  set (fmt := config.Format (config.Output cfg)) in *.
  set (v := config.Verbose (config.Output cfg)) in *.
  fold file in Hw.
  pose proof (writeResults_appWriter fmt file v a [] before Hw) as Hw1.
  pose proof (writeResults_appWriter fmt file v _ _ between Hw1) as Hw2.
  pose proof (writeResults_appWriter fmt file v a [] (before ++ between) Hw) as Hw3.
  simpl app in Hw1, Hw2, Hw3.
  assert (Hio' : io' =
    snd (output.flushDocument file (before ++ between) (spec.document fmt (before ++ between))
      (snd (output.flushDocument file (before ++ between)
              (spec.document fmt (before ++ between))
         (snd (output.flushDocument file before (spec.document fmt before) io)))))).
  { unfold io', app.cancellationPath, app.signalHandler, app.Run_afterScan.
    rewrite (flushBufferedOutput_appWriter fmt file v _ _ _ Hw1).
    rewrite (flushBufferedOutput_appWriter fmt file v _ _ _ Hw2).
    rewrite Hw2, Close_appWriter. reflexivity. }
  assert (Hdone : app.completionPath a (before ++ between) io =
    snd (output.flushDocument file (before ++ between) (spec.document fmt (before ++ between))
      (snd (output.flushDocument file (before ++ between)
              (spec.document fmt (before ++ between)) io)))).
  { unfold app.completionPath, app.Run_afterScan.
    rewrite (flushBufferedOutput_appWriter fmt file v _ _ _ Hw3).
    rewrite Hw3, Close_appWriter. reflexivity. }
  rewrite Hio', Hdone. clear Hio' Hdone io' Hw Hw1 Hw2 Hw3.
  pose proof (flushDocument_effect file before (spec.document fmt before) io)
    as (Hf1 & Hc1 & Hm1 & Hfs1).
  set (io1 := snd (output.flushDocument file before (spec.document fmt before) io)) in *.
  pose proof (flushDocument_effect file (before ++ between)
                (spec.document fmt (before ++ between)) io1) as (Hf2 & Hc2 & Hm2 & Hfs2).
  set (io2 := snd (output.flushDocument file (before ++ between) _ io1)) in *.
  pose proof (flushDocument_effect file (before ++ between)
                (spec.document fmt (before ++ between)) io2) as (Hf3 & Hc3 & Hm3 & Hfs3).
  set (io3 := snd (output.flushDocument file (before ++ between) _ io2)) in *.
  pose proof (flushDocument_effect file (before ++ between)
                (spec.document fmt (before ++ between)) io) as (Hg1 & Hd1 & Hn1 & _).
  set (jo1 := snd (output.flushDocument file (before ++ between) _ io)) in *.
  pose proof (flushDocument_effect file (before ++ between)
                (spec.document fmt (before ++ between)) jo1) as (_ & Hd2 & _ & _).
  rewrite Hf2, Hf1 in Hm3, Hfs3. rewrite Hf1 in Hm2, Hfs2.
  split; [lia|]. split; [|split; [|lia]].
  - intros Hok Hne. rewrite Hok in *.
    destruct (before ++ between) as [|r rs] eqn:Hall; [contradiction|].
    split.
    + rewrite Hfs3. apply lookup_insert_eq.
    + destruct before; lia.
  - intros Hnil. rewrite Hnil in *.
    apply app_eq_nil in Hnil as [-> _].
    destruct (output.createFails io file).
    + split; [congruence|lia].
    + split; [congruence|lia].
Qed.

(** The JSON application: nothing buffered before the signal, one result
    written before the context is cancelled; the file holds that result. *)
Lemma cancellation_flushes_three_times_witness :
  output.flushCalls "results.json"
    (output.calls (app.cancellationPath examples.jsonApp []
                     [examples.quietResult "a" "hello" 0] examples.io0)) = 3%nat
  /\ output.files (app.cancellationPath examples.jsonApp []
                     [examples.quietResult "a" "hello" 0] examples.io0) !! "results.json"
     = Some (output.JSONDocument [examples.quietResult "a" "hello" 0]).
Proof.
  pose proof (cancellation_flushes_three_times examples.jsonConfig examples.jsonApp []
                [examples.quietResult "a" "hello" 0] examples.io0) as H.
  destruct H as (Hcalls & Hfile & _).
  - discriminate.
  - left. reflexivity.
  - reflexivity.
  - split; [exact Hcalls|].
    apply Hfile; [reflexivity|discriminate].
Defined.

(** C5 as stated fails: with one result buffered when the signal arrives,
    the buffered writer is flushed three times, not once, and the file is
    written three times. *)
Lemma cancellation_flush_once_counterexample :
  ~ spec.flushedExactlyOnce examples.jsonApp [examples.quietResult "a" "hello" 0] []
      examples.io0.
Proof.
  intros H. specialize (H eq_refl). vm_compute in H. discriminate H.
Qed.

Lemma cancellation_flush_calls_example :
  output.calls (app.cancellationPath examples.jsonApp
                  [examples.quietResult "a" "hello" 0] [] examples.io0)
  = [output.CallFlush "results.json"; output.CallCreate "results.json";
     output.CallFlush "results.json"; output.CallCreate "results.json";
     output.CallFlush "results.json"; output.CallCreate "results.json"].
Proof. vm_compute. reflexivity. Qed.

(* ===================================================================== *)
(** * Further properties of makeRequest and ScanURL *)
(* ===================================================================== *)

Section MoreRequests.

Context (env : scanner.Env) (s : scanner.Scanner).

Lemma Sleep_requests d w : scanner.requests (scanner.Sleep d w) = scanner.requests w.
Proof. reflexivity. Qed.

Lemma retryLoop_requests_mono method url indices err_fn resp w :
  (scanner.requests w
   <= scanner.requests (snd (scanner.retryLoop env s method url indices err_fn resp w)))%nat.
Proof.
  revert resp w. induction indices as [|i indices IH]; intros resp w; simpl; [lia|].
  destruct (scanner.NewRequestWithContext_err env method url); simpl; [lia|].
  destruct (scanner.client_Do env (scanner.requests w) method url) as [r|r e]; simpl; [lia|].
  etransitivity; [|apply IH]. destruct (_ <? _); simpl; lia.
Qed.

(** When the request can be constructed, a loop that runs at all calls
    [client.Do]. *)
Lemma retryLoop_requests_ge method url indices err_fn resp w :
  scanner.NewRequestWithContext_err env method url = None ->
  indices <> [] ->
  (scanner.requests w + 1
   <= scanner.requests (snd (scanner.retryLoop env s method url indices err_fn resp w)))%nat.
Proof.
  intros Hnew Hne. destruct indices as [|i indices]; [contradiction|]. simpl.
  rewrite Hnew.
  destruct (scanner.client_Do env (scanner.requests w) method url) as [r|r e]; simpl; [lia|].
  etransitivity; [|apply retryLoop_requests_mono]. destruct (_ <? _); simpl; lia.
Qed.

(** The time slept in the loop over the indices [a .. a+n-1], the last of
    which is [RetryCount]: one delay for every attempt but the last made. *)
Lemma retryLoop_clock method url n : forall a err_fn resp w,
  n = O \/ Z.of_nat (a + n) = config.RetryCount (scanner.config s) + 1 ->
  let w' := snd (scanner.retryLoop env s method url (map Z.of_nat (seq a n))
                   err_fn resp w) in
  scanner.clock w'
  = scanner.clock w
    + Z.max 0 (config.RetryDelay (scanner.config s))
      * Z.max 0 (Z.of_nat (scanner.requests w') - Z.of_nat (scanner.requests w) - 1).
Proof.
  induction n as [|n IH]; intros a err_fn resp w Hlast; cbn zeta.
  - simpl. lia.
  - cbn [seq map scanner.retryLoop].
    destruct (scanner.NewRequestWithContext_err env method url) eqn:Hnew; [simpl; lia|].
    cbn [scanner.Do].
    destruct (scanner.client_Do env (scanner.requests w) method url) as [r|r e];
      cbn [gohttp.outcome_err gohttp.outcome_resp]; [simpl; lia|].
    destruct Hlast as [Hn|Hlast]; [discriminate|].
    match goal with
    | |- context [scanner.retryLoop _ _ _ _ _ _ _ ?w2] => set (w2' := w2)
    end.
    specialize (IH (S a) err_fn r w2').
    cbn zeta in IH. rewrite IH by (destruct n; [left; reflexivity|right; lia]).
    pose proof (retryLoop_requests_mono method url (map Z.of_nat (seq (S a) n))
                  err_fn r w2') as Hmono.
    assert (Hreq2 : scanner.requests w2' = S (scanner.requests w)).
    { subst w2'. destruct (_ <? _); reflexivity. }
    destruct n as [|n].
    + assert (Hlt : (Z.of_nat a <? config.RetryCount (scanner.config s)) = false) by lia.
      subst w2'. rewrite Hlt in *. simpl in *. lia.
    + assert (Hlt : (Z.of_nat a <? config.RetryCount (scanner.config s)) = true) by lia.
      pose proof (retryLoop_requests_ge method url (map Z.of_nat (seq (S a) (S n)))
                    err_fn r w2' Hnew ltac:(discriminate)) as Hge.
      assert (Hclk : scanner.clock w2'
                     = scanner.clock w + Z.max 0 (config.RetryDelay (scanner.config s))).
      { subst w2'. rewrite Hlt. reflexivity. }
      rewrite Hclk, Hreq2 in *.
      set (D := Z.max 0 (config.RetryDelay (scanner.config s))).
      rewrite !Z.max_r by lia. lia.
Qed.

Lemma makeRequest_world method url depth w :
  snd (scanner.makeRequest env s method url depth w)
  = snd (scanner.retryLoop env s method url
           (scanner.retryIndices (config.RetryCount (scanner.config s))) None None w).
Proof.
  unfold scanner.makeRequest.
  destruct (scanner.retryLoop _ _ _ _ _ _ _ _) as [[err resp|e] w1]; simpl; [|reflexivity].
  destruct err; [reflexivity|]. destruct resp; reflexivity.
Qed.

Lemma makeRequest_requests_le method url depth w :
  (scanner.requests (snd (scanner.makeRequest env s method url depth w))
   <= scanner.requests w + Z.to_nat (config.RetryCount (scanner.config s) + 1))%nat.
Proof.
  rewrite makeRequest_world.
  etransitivity; [apply retryLoop_requests_le|]. rewrite retryIndices_length. lia.
Qed.

(** The URL and the method of a result are those of the request. *)
Lemma makeRequest_result_fields method url depth w res err w' :
  scanner.makeRequest env s method url depth w = ((Some res, err), w') ->
  scanner.URL res = url /\ scanner.Method res = method.
Proof.
  unfold scanner.makeRequest.
  destruct (scanner.retryLoop _ _ _ _ _ _ _ _) as [[e resp|e] w1]; [|discriminate].
  destruct e as [e|]; [|destruct resp as [resp|]]; intros [= <- _ _]; auto.
Qed.

Lemma tryMethods_requests_le methods url depth w :
  (scanner.requests (snd (scanner.tryMethods env s methods url depth w))
   <= scanner.requests w
      + length methods * Z.to_nat (config.RetryCount (scanner.config s) + 1))%nat.
Proof.
  revert w. induction methods as [|m methods IH]; intros w; simpl; [lia|].
  pose proof (makeRequest_requests_le m url depth w) as Hm.
  destruct (scanner.makeRequest env s m url depth w) as [[result err] w1]. simpl in Hm.
  specialize (IH w1).
  destruct err; [lia|]. destruct result as [r|]; [|lia].
  destruct (scanner.shouldIncludeResult s r); simpl; lia.
Qed.

Lemma tryMethods_result_fields methods url depth w res err w' :
  scanner.tryMethods env s methods url depth w = ((Some res, err), w') ->
  scanner.URL res = url /\ In (scanner.Method res) methods.
Proof.
  revert w. induction methods as [|m methods IH]; intros w; simpl; [discriminate|].
  destruct (scanner.makeRequest env s m url depth w) as [[result e] w1] eqn:Hmk.
  assert (Hnext : scanner.tryMethods env s methods url depth w1 = ((Some res, err), w') ->
                  scanner.URL res = url
                  /\ (m = scanner.Method res \/ In (scanner.Method res) methods)).
  { intros H. destruct (IH _ H). auto. }
  destruct e as [e|]; [exact Hnext|].
  destruct result as [r|]; [|exact Hnext].
  destruct (scanner.shouldIncludeResult s r); [|exact Hnext].
  intros [= <- _ _]. destruct (makeRequest_result_fields _ _ _ _ _ _ _ Hmk). auto.
Qed.

End MoreRequests.

(** X1.  [makeRequest] sleeps [RetryDelay] once between two consecutive
    attempts and never after the last one: the time slept is the delay (when
    positive) times the number of attempts less one. *)
Theorem makeRequest_sleeps_between_attempts env s method url depth w :
  let w' := snd (scanner.makeRequest env s method url depth w) in
  scanner.clock w'
  = scanner.clock w
    + Z.max 0 (config.RetryDelay (scanner.config s))
      * Z.max 0 (Z.of_nat (scanner.requests w') - Z.of_nat (scanner.requests w) - 1).
Proof.
  cbn zeta. rewrite makeRequest_world. unfold scanner.retryIndices.
  apply (retryLoop_clock env s method url
           (Z.to_nat (config.RetryCount (scanner.config s) + 1)) O None None w).
  destruct (Z.to_nat (config.RetryCount (scanner.config s) + 1)) eqn:Hn; [left; reflexivity|].
  right. lia.
Qed.

(** X2.  When the request cannot be constructed, [makeRequest] returns the
    wrapped error without calling the client, and [ScanURL], which skips a
    method on such an error, ends with neither a result nor an error. *)
Theorem request_construction_failure_is_swallowed env s targetURL path depth w :
  0 <= config.RetryCount (scanner.config s) ->
  scanner.rateLimiter s = None ->
  (forall method, In method (config.Methods (config.Scanner (scanner.config s))) ->
     scanner.NewRequestWithContext_err env method (spec.fullURL targetURL path) <> None) ->
  (forall method e,
      In method (config.Methods (config.Scanner (scanner.config s))) ->
      scanner.NewRequestWithContext_err env method (spec.fullURL targetURL path) = Some e ->
      scanner.makeRequest env s method (spec.fullURL targetURL path) depth w
      = ((None, Some ("创建请求失败: " +:+ e)), w))
  /\ scanner.ScanURL env s targetURL path depth w = ((None, None), w).
Proof.
  intros Hrc Hrl Hbad.
  assert (Hmk : forall method e,
    scanner.NewRequestWithContext_err env method (spec.fullURL targetURL path) = Some e ->
    scanner.makeRequest env s method (spec.fullURL targetURL path) depth w
    = ((None, Some ("创建请求失败: " +:+ e)), w)).
  { intros method e He. unfold scanner.makeRequest, scanner.retryIndices.
    destruct (Z.to_nat (config.RetryCount (scanner.config s) + 1)) eqn:Hn; [lia|].
    cbn [seq map scanner.retryLoop]. rewrite He. reflexivity. }
  split; [intros method e _; apply Hmk|].
  unfold scanner.ScanURL, scanner.scanAfterLimiter. rewrite Hrl.
  destruct (gostrings.Contains path "%FUZZ%"); [reflexivity|].
  fold (spec.fullURL targetURL path).
  induction (config.Methods (config.Scanner (scanner.config s))) as [|m ms IH];
    [reflexivity|].
  cbn [scanner.tryMethods].
  destruct (scanner.NewRequestWithContext_err env m (spec.fullURL targetURL path))
    as [e|] eqn:He; [|exfalso; apply (Hbad m); [left; reflexivity|exact He]].
  rewrite (Hmk m e He). apply IH.
  intros method Hin. apply Hbad. right. exact Hin.
Qed.

Lemma request_construction_failure_is_swallowed_witness :
  scanner.makeRequest examples.env_bad_url
    (examples.plainScanner (examples.siteConfig false)) "GET"
    (spec.fullURL "http://test.local" "a%zz") 0 scanner.world0
  = ((None, Some ("创建请求失败: " +:+ "invalid URL escape")), scanner.world0)
  /\ scanner.ScanURL examples.env_bad_url
       (examples.plainScanner (examples.siteConfig false))
       "http://test.local" "a%zz" 0 scanner.world0
     = ((None, None), scanner.world0).
Proof.
  destruct (request_construction_failure_is_swallowed examples.env_bad_url
              (examples.plainScanner (examples.siteConfig false))
              "http://test.local" "a%zz" 0 scanner.world0) as [Hmk Hscan].
  - simpl. lia.
  - reflexivity.
  - intros method _. discriminate.
  - split; [|exact Hscan].
    apply Hmk; [left; reflexivity|reflexivity].
Defined.

(** X3.  One call of [ScanURL] makes at most [RetryCount+1] requests for
    each configured method; a result it returns passes the filter, was
    obtained with one of the configured methods at the joined URL, and
    carries the depth of the call. *)
Theorem ScanURL_request_bound_and_result env s targetURL path depth w :
  (scanner.requests (snd (scanner.ScanURL env s targetURL path depth w))
   <= scanner.requests w
      + length (config.Methods (config.Scanner (scanner.config s)))
        * Z.to_nat (config.RetryCount (scanner.config s) + 1))%nat
  /\ forall res err w',
      scanner.ScanURL env s targetURL path depth w = ((Some res, err), w') ->
      err = None
      /\ scanner.shouldIncludeResult s res = true
      /\ In (scanner.Method res) (config.Methods (config.Scanner (scanner.config s)))
      /\ scanner.URL res = spec.fullURL targetURL path
      /\ scanner.Depth res = depth.
Proof.
  split.
  - unfold scanner.ScanURL, scanner.scanAfterLimiter.
    destruct (scanner.rateLimiter s).
    + cbn [scanner.selectLimiter].
      destruct (scanner.rateLimiter_select env (scanner.selects w)); [|simpl; lia].
      destruct (gostrings.Contains path "%FUZZ%"); [simpl; lia|].
      etransitivity; [apply tryMethods_requests_le|]. simpl. lia.
    + destruct (gostrings.Contains path "%FUZZ%"); [simpl; lia|].
      apply tryMethods_requests_le.
  - intros res err w' H.
    destruct (ScanURL_result _ _ _ _ _ _ _ _ _ H) as (Hd & _ & Hinc).
    assert (Htry : exists w0,
      scanner.tryMethods env s (config.Methods (config.Scanner (scanner.config s)))
        (spec.fullURL targetURL path) depth w0 = ((Some res, err), w')).
    { revert H. unfold scanner.ScanURL, scanner.scanAfterLimiter, spec.fullURL.
      destruct (scanner.rateLimiter s).
      - destruct (scanner.selectLimiter env w) as [[|] w1]; [|discriminate].
        destruct (gostrings.Contains path "%FUZZ%"); [discriminate|]. eauto.
      - destruct (gostrings.Contains path "%FUZZ%"); [discriminate|]. eauto. }
    destruct Htry as [w0 Htry].
    destruct (tryMethods_result_fields _ _ _ _ _ _ _ _ _ Htry) as [Hurl Hm].
    repeat split; auto.
    clear -Htry. revert w0 Htry.
    induction (config.Methods (config.Scanner (scanner.config s))) as [|m ms IH];
      intros w0; simpl; [discriminate|].
    destruct (scanner.makeRequest env s m _ depth w0) as [[result e] w1].
    destruct e; [apply IH|]. destruct result as [r|]; [|apply IH].
    destruct (scanner.shouldIncludeResult s r); [|apply IH].
    intros [= _ <- _]. reflexivity.
Qed.

Lemma ScanURL_request_bound_and_result_witness :
  scanner.ScanURL examples.env_site (examples.plainScanner (examples.siteConfig true))
    "http://test.local/" "/index" 3 scanner.world0
  = ((Some (examples.pageResult "index" (examples.anchor "a") 3), None),
     scanner.mkWorld 1 0 0 0)
  /\ scanner.URL (examples.pageResult "index" (examples.anchor "a") 3)
     = spec.fullURL "http://test.local/" "/index"
  /\ scanner.Depth (examples.pageResult "index" (examples.anchor "a") 3) = 3.
Proof.
  assert (Hscan : scanner.ScanURL examples.env_site
                    (examples.plainScanner (examples.siteConfig true))
                    "http://test.local/" "/index" 3 scanner.world0
                  = ((Some (examples.pageResult "index" (examples.anchor "a") 3), None),
                     scanner.mkWorld 1 0 0 0)) by (vm_compute; reflexivity).
  split; [exact Hscan|].
  destruct (proj2 (ScanURL_request_bound_and_result examples.env_site
                     (examples.plainScanner (examples.siteConfig true))
                     "http://test.local/" "/index" 3 scanner.world0) _ _ _ Hscan)
    as (_ & _ & _ & Hurl & Hd).
  split; [exact Hurl|exact Hd].
Defined.

Lemma TrimRight_slash t : gostrings.TrimRight (t +:+ "/") "/" = gostrings.TrimRight t "/".
Proof.
  induction t as [|c t IH]; [reflexivity|].
  change (String c t +:+ "/") with (String c (t +:+ "/")).
  cbn [gostrings.TrimRight]. rewrite IH. reflexivity.
Qed.

(** X4.  A slash at the end of the target and a slash at the start of the
    path make no difference to a scan: the two are joined by exactly the one
    slash that [ScanURL] puts between them. *)
Theorem ScanURL_ignores_slashes_at_the_join env s targetURL path depth w :
  scanner.ScanURL env s (targetURL +:+ "/") ("/" +:+ path) depth w
  = scanner.ScanURL env s targetURL path depth w
  /\ spec.fullURL (targetURL +:+ "/") path = spec.fullURL targetURL path
  /\ spec.fullURL targetURL ("/" +:+ path) = spec.fullURL targetURL path.
Proof.
  assert (Hfuzz : gostrings.Contains ("/" +:+ path) "%FUZZ%"
                  = gostrings.Contains path "%FUZZ%") by reflexivity.
  assert (Hleft : gostrings.TrimLeft ("/" +:+ path) "/" = gostrings.TrimLeft path "/")
    by reflexivity.
  unfold spec.fullURL, scanner.ScanURL, scanner.scanAfterLimiter.
  rewrite Hfuzz, Hleft, TrimRight_slash. auto.
Qed.

(** [Validate] accepts a configuration exactly when the target is given,
    threads and timeout are positive and depth and retries are not
    negative. *)
Lemma Validate_accepts c :
  config.Validate c = None
  <-> config.Target c <> EmptyString /\ 0 < config.Threads c /\ 0 < config.Timeout c
      /\ 0 <= config.MaxDepth c /\ 0 <= config.RetryCount c.
Proof.
  unfold config.Validate.
  destruct (String.eqb_spec (config.Target c) EmptyString);
    destruct (Z.leb_spec (config.Threads c) 0);
    destruct (Z.leb_spec (config.Timeout c) 0);
    destruct (Z.ltb_spec (config.MaxDepth c) 0);
    destruct (Z.ltb_spec (config.RetryCount c) 0);
    split; try discriminate; try (intros (? & ? & ? & ? & ?); congruence || lia);
    intros _; repeat split; auto; lia.
Qed.

(** X5.  With a configuration that [Validate] accepts, a request that can
    be constructed is attempted at least once and at most [RetryCount+1]
    times; with a negative [RetryCount], which [Validate] rejects, no
    attempt would be made at all. *)
Theorem validated_config_attempts_every_request env s method url depth w :
  scanner.NewRequestWithContext_err env method url = None ->
  (config.Validate (scanner.config s) = None ->
   (scanner.requests w + 1
    <= scanner.requests (snd (scanner.makeRequest env s method url depth w))
    <= scanner.requests w + Z.to_nat (config.RetryCount (scanner.config s) + 1))%nat)
  /\ (config.RetryCount (scanner.config s) < 0 ->
      config.Validate (scanner.config s) <> None
      /\ scanner.requests (snd (scanner.makeRequest env s method url depth w))
         = scanner.requests w).
Proof.
  intros Hnew. split.
  - intros Hval. apply Validate_accepts in Hval as (_ & _ & _ & _ & Hrc).
    split; [|apply makeRequest_requests_le].
    rewrite makeRequest_world. apply retryLoop_requests_ge; [exact Hnew|].
    unfold scanner.retryIndices.
    destruct (Z.to_nat (config.RetryCount (scanner.config s) + 1)) eqn:Hn; [lia|].
    discriminate.
  - intros Hneg. split.
    + intros Hval. apply Validate_accepts in Hval. lia.
    + rewrite makeRequest_world. unfold scanner.retryIndices.
      replace (Z.to_nat (config.RetryCount (scanner.config s) + 1)) with O by lia.
      reflexivity.
Qed.

Lemma validated_config_attempts_every_request_witness :
  (1 <= scanner.requests
          (snd (scanner.makeRequest examples.env_third_time
                  (examples.plainScanner (examples.siteConfig false))
                  "GET" "http://test.local/a" 0 scanner.world0)) <= 1)%nat
  /\ scanner.requests
       (snd (scanner.makeRequest examples.env_third_time
               (examples.plainScanner
                  (examples.withRetryCount (-1) (examples.siteConfig false)))
               "GET" "http://test.local/a" 0 scanner.world0)) = 0%nat.
Proof.
  split.
  - apply (proj1 (validated_config_attempts_every_request examples.env_third_time
                    (examples.plainScanner (examples.siteConfig false))
                    "GET" "http://test.local/a" 0 scanner.world0 eq_refl)).
    reflexivity.
  - apply (proj2 (validated_config_attempts_every_request examples.env_third_time
                    (examples.plainScanner
                       (examples.withRetryCount (-1) (examples.siteConfig false)))
                    "GET" "http://test.local/a" 0 scanner.world0 eq_refl)).
    simpl. lia.
Defined.



(* ===================================================================== *)
(** * Progress accounting *)
(* ===================================================================== *)

Lemma sumIncrements_app ms1 ms2 :
  spec.sumIncrements (ms1 ++ ms2) = spec.sumIncrements ms1 + spec.sumIncrements ms2.
Proof. induction ms1 as [|[r|v|v|m e] ms1 IH]; simpl; lia. Qed.

Lemma sumMaxChanges_app ms1 ms2 :
  spec.sumMaxChanges (ms1 ++ ms2) = spec.sumMaxChanges ms1 + spec.sumMaxChanges ms2.
Proof. induction ms1 as [|[r|v|v|m e] ms1 IH]; simpl; lia. Qed.

Section Progress.

Context (env : scanner.Env) (a : app.App).

(** The loop over the paths increments the progress at most once per path,
    apart from what the recursive calls announce and increment. *)
Lemma scanPaths_progress_le recurse depth paths w ms w' :
  (forall r w0 ms0 w0', recurse r w0 = Some (ms0, w0') ->
     spec.sumIncrements ms0 <= spec.sumMaxChanges ms0) ->
  app.scanPaths recurse env a depth paths w = Some (ms, w') ->
  spec.sumIncrements ms <= Z.of_nat (length paths) + spec.sumMaxChanges ms.
Proof.
  intros Hrec. revert w ms w'.
  induction paths as [|path paths IH]; intros w ms w'; cbn [app.scanPaths scanner.pollDone].
  - intros [= <- _]. simpl. lia.
  - destruct (scanner.ctx_Done env (scanner.polls w)).
    { intros [= <- _]. simpl. lia. }
    destruct (scanner.ScanURL _ _ _ _ _ _) as [[result err] w2].
    assert (Hskip : forall ms w',
      match app.scanPaths recurse env a depth paths w2 with
      | Some (ms0, w3) => Some (app.progressIncrement 1 :: ms0, w3)
      | None => None
      end = Some (ms, w') ->
      spec.sumIncrements ms <= Z.of_nat (length (path :: paths)) + spec.sumMaxChanges ms).
    { clear ms w'. intros ms w'.
      destruct (app.scanPaths recurse env a depth paths w2) as [[ms0 w3]|] eqn:Hrest;
        [|discriminate].
      intros [= <- _]. specialize (IH _ _ _ Hrest). simpl. lia. }
    destruct err as [e|]; [apply Hskip|].
    destruct result as [r|]; [|apply Hskip].
    destruct (if app.isFound r then recurse r w2 else Some ([], w2))
      as [[sub w3]|] eqn:Hsub; [|discriminate].
    destruct (app.scanPaths recurse env a depth paths w3) as [[ms0 w4]|] eqn:Hrest;
      [|discriminate].
    intros [= <- _]. specialize (IH _ _ _ Hrest).
    assert (Hs : spec.sumIncrements sub <= spec.sumMaxChanges sub).
    { destruct (app.isFound r); [eapply Hrec; eauto|].
      injection Hsub as <- _. simpl. lia. }
    cbn [spec.sumIncrements spec.sumMaxChanges length].
    rewrite sumIncrements_app, sumMaxChanges_app. lia.
Qed.

(** Without cancellation it increments it exactly once per path. *)
Lemma scanPaths_progress_eq recurse depth paths w ms w' :
  (forall k, scanner.ctx_Done env k = false) ->
  (forall r w0 ms0 w0', recurse r w0 = Some (ms0, w0') ->
     spec.sumIncrements ms0 = spec.sumMaxChanges ms0) ->
  app.scanPaths recurse env a depth paths w = Some (ms, w') ->
  spec.sumIncrements ms = Z.of_nat (length paths) + spec.sumMaxChanges ms.
Proof.
  intros Hctx Hrec. revert w ms w'.
  induction paths as [|path paths IH]; intros w ms w'; cbn [app.scanPaths scanner.pollDone].
  - intros [= <- _]. reflexivity.
  - rewrite Hctx.
    destruct (scanner.ScanURL _ _ _ _ _ _) as [[result err] w2].
    assert (Hskip : forall ms w',
      match app.scanPaths recurse env a depth paths w2 with
      | Some (ms0, w3) => Some (app.progressIncrement 1 :: ms0, w3)
      | None => None
      end = Some (ms, w') ->
      spec.sumIncrements ms = Z.of_nat (length (path :: paths)) + spec.sumMaxChanges ms).
    { clear ms w'. intros ms w'.
      destruct (app.scanPaths recurse env a depth paths w2) as [[ms0 w3]|] eqn:Hrest;
        [|discriminate].
      intros [= <- _]. specialize (IH _ _ _ Hrest). simpl. lia. }
    destruct err as [e|]; [apply Hskip|].
    destruct result as [r|]; [|apply Hskip].
    destruct (if app.isFound r then recurse r w2 else Some ([], w2))
      as [[sub w3]|] eqn:Hsub; [|discriminate].
    destruct (app.scanPaths recurse env a depth paths w3) as [[ms0 w4]|] eqn:Hrest;
      [|discriminate].
    intros [= <- _]. specialize (IH _ _ _ Hrest).
    assert (Hs : spec.sumIncrements sub = spec.sumMaxChanges sub).
    { destruct (app.isFound r); [eapply Hrec; eauto|].
      injection Hsub as <- _. reflexivity. }
    cbn [spec.sumIncrements spec.sumMaxChanges length].
    rewrite sumIncrements_app, sumMaxChanges_app. lia.
Qed.

Lemma announce_sums (paths : list string) :
  let announce := if 0 <? Z.of_nat (length paths)
                  then [app.progressMaxChange (Z.of_nat (length paths))] else [] in
  spec.sumIncrements announce = 0
  /\ spec.sumMaxChanges announce = Z.of_nat (length paths).
Proof.
  cbn zeta. destruct (Z.ltb_spec 0 (Z.of_nat (length paths))); simpl; lia.
Qed.

(** A recursive scan never increments the progress by more than it has
    announced. *)
Lemma recursiveScan_progress_le fuel parent depth w ms w' :
  app.recursiveScan fuel env a parent depth w = Some (ms, w') ->
  spec.sumIncrements ms <= spec.sumMaxChanges ms.
Proof.
  revert parent depth w ms w'.
  induction fuel as [|fuel IH]; intros parent depth w ms w'; simpl;
    destruct (depth >? config.MaxDepth (app.config a));
    try (intros [= <- _]; simpl; lia); try discriminate.
  destruct (app.scanPaths _ env a depth _ w) as [[ms0 w1]|] eqn:Hloop; [|discriminate].
  intros [= <- _].
  pose proof (scanPaths_progress_le _ _ _ _ _ _
                (fun r w0 ms1 w0' H => IH r _ w0 ms1 w0' H) Hloop) as Hle.
  destruct (announce_sums (scanner.ExtractPaths (app.scanner a) parent)) as [Hi Hm].
  rewrite sumIncrements_app, sumMaxChanges_app, Hi, Hm. lia.
Qed.

Lemma recursiveScan_progress_eq fuel parent depth w ms w' :
  (forall k, scanner.ctx_Done env k = false) ->
  app.recursiveScan fuel env a parent depth w = Some (ms, w') ->
  spec.sumIncrements ms = spec.sumMaxChanges ms.
Proof.
  intros Hctx. revert parent depth w ms w'.
  induction fuel as [|fuel IH]; intros parent depth w ms w'; simpl;
    destruct (depth >? config.MaxDepth (app.config a));
    try (intros [= <- _]; reflexivity); try discriminate.
  destruct (app.scanPaths _ env a depth _ w) as [[ms0 w1]|] eqn:Hloop; [|discriminate].
  intros [= <- _].
  pose proof (scanPaths_progress_eq _ _ _ _ _ _ Hctx
                (fun r w0 ms1 w0' H => IH r _ w0 ms1 w0' H) Hloop) as Heq.
  destruct (announce_sums (scanner.ExtractPaths (app.scanner a) parent)) as [Hi Hm].
  rewrite sumIncrements_app, sumMaxChanges_app, Hi, Hm. lia.
Qed.

Lemma worker_progress_le fuel jobs w ms w' :
  app.worker fuel env a jobs w = Some (ms, w') ->
  spec.sumIncrements ms <= Z.of_nat (length jobs) + spec.sumMaxChanges ms.
Proof.
  revert w ms w'.
  induction jobs as [|word jobs IH]; intros w ms w'; cbn [app.worker scanner.pollDone].
  - intros [= <- _]. simpl. lia.
  - destruct (scanner.ctx_Done env (scanner.polls w)).
    { intros [= <- _]. simpl. lia. }
    destruct (scanner.ScanURL _ _ _ _ _ _) as [[result err] w2].
    assert (Hskip : forall ms w',
      match app.worker fuel env a jobs w2 with
      | Some (ms0, w3) => Some (app.progressIncrement 1 :: ms0, w3)
      | None => None
      end = Some (ms, w') ->
      spec.sumIncrements ms <= Z.of_nat (length (word :: jobs)) + spec.sumMaxChanges ms).
    { clear ms w'. intros ms w'.
      destruct (app.worker fuel env a jobs w2) as [[ms0 w3]|] eqn:Hrest; [|discriminate].
      intros [= <- _]. specialize (IH _ _ _ Hrest). simpl. lia. }
    destruct err as [e|]; [apply Hskip|].
    destruct result as [r|]; [|apply Hskip].
    destruct (if config.Recursive (app.config a) && app.isFound r
              then app.recursiveScan fuel env a r 1 w2 else Some ([], w2))
      as [[sub w3]|] eqn:Hsub; [|discriminate].
    destruct (app.worker fuel env a jobs w3) as [[ms0 w4]|] eqn:Hrest; [|discriminate].
    intros [= <- _]. specialize (IH _ _ _ Hrest).
    assert (Hs : spec.sumIncrements sub <= spec.sumMaxChanges sub).
    { destruct (config.Recursive (app.config a) && app.isFound r);
        [eapply recursiveScan_progress_le; eauto|].
      injection Hsub as <- _. simpl. lia. }
    cbn [spec.sumIncrements spec.sumMaxChanges length].
    rewrite sumIncrements_app, sumMaxChanges_app. lia.
Qed.

Lemma worker_progress_eq fuel jobs w ms w' :
  (forall k, scanner.ctx_Done env k = false) ->
  app.worker fuel env a jobs w = Some (ms, w') ->
  spec.sumIncrements ms = Z.of_nat (length jobs) + spec.sumMaxChanges ms.
Proof.
  intros Hctx. revert w ms w'.
  induction jobs as [|word jobs IH]; intros w ms w'; cbn [app.worker scanner.pollDone].
  - intros [= <- _]. reflexivity.
  - rewrite Hctx.
    destruct (scanner.ScanURL _ _ _ _ _ _) as [[result err] w2].
    assert (Hskip : forall ms w',
      match app.worker fuel env a jobs w2 with
      | Some (ms0, w3) => Some (app.progressIncrement 1 :: ms0, w3)
      | None => None
      end = Some (ms, w') ->
      spec.sumIncrements ms = Z.of_nat (length (word :: jobs)) + spec.sumMaxChanges ms).
    { clear ms w'. intros ms w'.
      destruct (app.worker fuel env a jobs w2) as [[ms0 w3]|] eqn:Hrest; [|discriminate].
      intros [= <- _]. specialize (IH _ _ _ Hrest). simpl. lia. }
    destruct err as [e|]; [apply Hskip|].
    destruct result as [r|]; [|apply Hskip].
    destruct (if config.Recursive (app.config a) && app.isFound r
              then app.recursiveScan fuel env a r 1 w2 else Some ([], w2))
      as [[sub w3]|] eqn:Hsub; [|discriminate].
    destruct (app.worker fuel env a jobs w3) as [[ms0 w4]|] eqn:Hrest; [|discriminate].
    intros [= <- _]. specialize (IH _ _ _ Hrest).
    assert (Hs : spec.sumIncrements sub = spec.sumMaxChanges sub).
    { destruct (config.Recursive (app.config a) && app.isFound r);
        [eapply recursiveScan_progress_eq; eauto|].
      injection Hsub as <- _. reflexivity. }
    cbn [spec.sumIncrements spec.sumMaxChanges length].
    rewrite sumIncrements_app, sumMaxChanges_app. lia.
Qed.

End Progress.

(** X7.  The progress messages of a worker add up: the increments it sends
    never exceed the number of its jobs plus the increases of the total that
    its recursive scans announce, and without cancellation they are equal. *)
Theorem worker_progress_adds_up env a fuel jobs w ms w' :
  app.worker fuel env a jobs w = Some (ms, w') ->
  spec.sumIncrements ms <= Z.of_nat (length jobs) + spec.sumMaxChanges ms
  /\ ((forall k, scanner.ctx_Done env k = false) ->
      spec.sumIncrements ms = Z.of_nat (length jobs) + spec.sumMaxChanges ms).
Proof.
  intros H. split.
  - eapply worker_progress_le; eauto.
  - intros Hctx. eapply worker_progress_eq; eauto.
Qed.

Lemma worker_progress_adds_up_witness :
  exists ms w',
    app.worker 2 examples.env_site (examples.siteApp true) ["index"; "missing"]
      scanner.world0 = Some (ms, w')
    /\ spec.sumMaxChanges ms = 2
    /\ spec.sumIncrements ms = 2 + spec.sumMaxChanges ms.
Proof.
  destruct (app.worker 2 examples.env_site (examples.siteApp true) ["index"; "missing"]
              scanner.world0) as [[ms w']|] eqn:Hw; [|vm_compute in Hw; discriminate].
  exists ms, w'. split; [reflexivity|].
  split.
  - vm_compute in Hw. injection Hw as <- _. reflexivity.
  - apply (proj2 (worker_progress_adds_up _ _ _ _ _ _ _ Hw)). reflexivity.
Defined.

(* ===================================================================== *)
(** * The dispatcher under cancellation, and recursion switched off *)
(* ===================================================================== *)

(** X8.  Whenever the dispatcher stops, it stops between two lines: the
    jobs sent are all the jobs of the first lines of the wordlist, so never
    more than [calculateTotalJobs] has counted. *)
Theorem scan_jobs_stops_between_lines env a lines w :
  exists k,
    (k <= length lines)%nat
    /\ fst (app.scan_jobs env a lines w) = flat_map (app.jobsOfWord a) (firstn k lines)
    /\ (length (fst (app.scan_jobs env a lines w))
        <= length (flat_map (app.jobsOfWord a) lines))%nat.
Proof.
  revert w. induction lines as [|word lines IH]; intros w.
  - exists O. simpl. auto.
  - cbn [app.scan_jobs scanner.pollDone].
    destruct (scanner.ctx_Done env (scanner.polls w)).
    + exists O. simpl. split; [lia|]. split; [reflexivity|lia].
    + match goal with
      | |- context [app.scan_jobs env a lines ?w1] =>
          destruct (IH w1) as (k & Hk & Hjobs & Hlen);
          destruct (app.scan_jobs env a lines w1) as [js w2]
      end.
      simpl in Hjobs, Hlen. exists (S k). cbn [fst firstn flat_map length].
      split; [lia|]. split; [rewrite Hjobs; reflexivity|].
      rewrite !length_app. lia.
Qed.

(** X9.  With [MaxDepth] below 1 the flag [Recursive] has no effect: a
    worker sends the same messages and makes the same requests as with
    recursion switched off. *)
Theorem recursion_needs_positive_MaxDepth env a fuel jobs w :
  config.MaxDepth (app.config a) < 1 ->
  app.worker fuel env a jobs w = app.worker fuel env (spec.withoutRecursion a) jobs w.
Proof.
  intros Hmax. revert w.
  induction jobs as [|word jobs IH]; intros w; [reflexivity|].
  cbn [app.worker scanner.pollDone].
  destruct (scanner.ctx_Done env (scanner.polls w)); [reflexivity|].
  change (app.scanner (spec.withoutRecursion a)) with (app.scanner a).
  change (config.Target (app.config (spec.withoutRecursion a)))
    with (config.Target (app.config a)).
  change (config.Recursive (app.config (spec.withoutRecursion a))) with false.
  destruct (scanner.ScanURL _ _ _ _ _ _) as [[result err] w2].
  destruct err as [e|]; [rewrite IH; reflexivity|].
  destruct result as [r|]; [|rewrite IH; reflexivity].
  assert (Hnone : (if config.Recursive (app.config a) && app.isFound r
                   then app.recursiveScan fuel env a r 1 w2 else Some ([], w2))
                  = Some ([], w2)).
  { destruct (config.Recursive (app.config a) && app.isFound r); [|reflexivity].
    assert (Hg : (1 >? config.MaxDepth (app.config a)) = true) by lia.
    destruct fuel; simpl; rewrite Hg; reflexivity. }
  rewrite Hnone. cbn [andb]. rewrite IH. reflexivity.
Qed.

(** The chain of pages with [MaxDepth = 0] (the site configuration has 2):
    only the page itself is scanned. *)
Lemma recursion_needs_positive_MaxDepth_witness :
  app.worker 1 examples.env_site examples.shallowApp ["index"] scanner.world0
  = app.worker 1 examples.env_site (spec.withoutRecursion examples.shallowApp)
      ["index"] scanner.world0.
Proof.
  apply (recursion_needs_positive_MaxDepth examples.env_site examples.shallowApp).
  simpl. lia.
Defined.

(* ===================================================================== *)
(** * The output manager *)
(* ===================================================================== *)

Lemma outputManager_not_cancelled env msgs : forall d w,
  (forall k, scanner.ctx_Done env k = false) ->
  fst (app.outputManager env msgs d w) = spec.handleAll msgs d.
Proof.
  induction msgs as [|msg msgs IH]; intros d w Hctx; [reflexivity|].
  cbn [app.outputManager scanner.pollDone]. rewrite Hctx. apply IH. exact Hctx.
Qed.

Lemma handleAll_progress msgs : forall d,
  spec.sumZ (app.progressAdded (spec.handleAll msgs d))
  = spec.sumZ (app.progressAdded d) + spec.sumIncrements msgs
  /\ goint.wrap (app.progressMax (spec.handleAll msgs d))
     = goint.wrap (app.progressMax d + spec.sumMaxChanges msgs).
Proof.
  assert (Hsum : forall l x, spec.sumZ (l ++ [x]) = spec.sumZ l + x).
  { induction l as [|y l IHl]; intros x; simpl; [lia|]. rewrite IHl. lia. }
  induction msgs as [|msg msgs IH]; intros d.
  - simpl. rewrite !Z.add_0_r. auto.
  - change (spec.handleAll (msg :: msgs) d)
      with (spec.handleAll msgs (app.handleMessage msg d)).
    destruct (IH (app.handleMessage msg d)) as [Ha Hm]. rewrite Ha, Hm.
    destruct msg as [r|v|v|m e];
      cbn [app.handleMessage app.progressAdded app.progressMax
           spec.sumIncrements spec.sumMaxChanges];
      rewrite ?Hsum;
      (split;
       [lia
       |first [reflexivity
              |unfold goint.add; rewrite wrap_wrap_add; f_equal; lia]]).
Qed.

Lemma handleAll_progressMax_range msgs d :
  goint.in_range (app.progressMax d) ->
  goint.in_range (app.progressMax (spec.handleAll msgs d)).
Proof.
  revert d. induction msgs as [|msg msgs IH]; intros d Hd; [exact Hd|].
  change (spec.handleAll (msg :: msgs) d) with (spec.handleAll msgs (app.handleMessage msg d)).
  apply IH. destruct msg; simpl; try exact Hd. apply wrap_range.
Qed.

(** X10.  On a scan by a single worker that is not cancelled, the progress
    bar ends exactly full: started with the total of [calculateTotalJobs],
    its maximum after all messages equals the sum of the increments added
    (as long as that number fits an [int]). *)
Theorem progress_bar_ends_full env envM a lines fuel w ms w' d wM :
  (forall k, scanner.ctx_Done env k = false) ->
  (forall k, scanner.ctx_Done envM k = false) ->
  app.worker fuel env a (flat_map (app.jobsOfWord a) lines) w = Some (ms, w') ->
  app.progressMax d = app.calculateTotalJobs a lines ->
  app.progressAdded d = [] ->
  goint.in_range (Z.of_nat (length (flat_map (app.jobsOfWord a) lines))
                  + spec.sumMaxChanges ms) ->
  let d' := fst (app.outputManager envM ms d wM) in
  spec.sumZ (app.progressAdded d') = app.progressMax d'.
Proof.
  intros Hctx HctxM Hw Hmax Hadd Hrange d'.
  subst d'. rewrite (outputManager_not_cancelled envM ms d wM HctxM).
  destruct (handleAll_progress ms d) as [Ha Hm].
  rewrite Ha, Hadd. simpl.
  rewrite (worker_progress_eq env a fuel _ w ms w' Hctx Hw).
  assert (Hin : goint.in_range (app.progressMax (spec.handleAll ms d))).
  { apply handleAll_progressMax_range. rewrite Hmax.
    unfold app.calculateTotalJobs. rewrite countJobs_wrap.
    - apply wrap_range.
    - unfold goint.in_range, goint.min_int, goint.max_int. lia. }
  rewrite <- (wrap_in_range _ Hin), Hm, Hmax.
  unfold app.calculateTotalJobs. rewrite countJobs_wrap
    by (unfold goint.in_range, goint.min_int, goint.max_int; lia).
  rewrite wrap_wrap_add. simpl. symmetry. apply wrap_in_range. exact Hrange.
Qed.

Lemma progress_bar_ends_full_witness :
  spec.sumZ (app.progressAdded
               (fst (app.outputManager examples.env_site examples.chainMessages
                       examples.display0 scanner.world0))) = 3
  /\ app.progressMax
       (fst (app.outputManager examples.env_site examples.chainMessages
               examples.display0 scanner.world0)) = 3.
Proof.
  assert (Hw : app.worker 2 examples.env_site (examples.siteApp true)
                 (flat_map (app.jobsOfWord (examples.siteApp true)) ["index"])
                 scanner.world0
               = Some (examples.chainMessages, scanner.mkWorld 3 3 0 0))
    by (vm_compute; reflexivity).
  pose proof (progress_bar_ends_full examples.env_site examples.env_site
                (examples.siteApp true) ["index"] 2%nat scanner.world0
                examples.chainMessages (scanner.mkWorld 3 3 0 0)
                examples.display0 scanner.world0
                (fun _ => eq_refl) (fun _ => eq_refl) Hw eq_refl eq_refl) as Hfull.
  cbn zeta in Hfull.
  assert (Hmax : app.progressMax
                   (fst (app.outputManager examples.env_site examples.chainMessages
                           examples.display0 scanner.world0)) = 3)
    by (vm_compute; reflexivity).
  split; [|exact Hmax].
  rewrite Hfull; [exact Hmax|].
  unfold goint.in_range, goint.min_int, goint.max_int. vm_compute. split; discriminate.
Defined.

(** X11.  Once the context is done the output manager drops every message
    it receives: nothing more is written, printed or counted. *)
Theorem outputManager_drops_after_cancellation env msgs d w :
  (forall k, (scanner.polls w <= k)%nat -> scanner.ctx_Done env k = true) ->
  fst (app.outputManager env msgs d w) = d
  /\ scanner.polls (snd (app.outputManager env msgs d w))
     = (scanner.polls w + length msgs)%nat.
Proof.
  revert w. induction msgs as [|msg msgs IH]; intros w Hdone.
  - simpl. split; [reflexivity|lia].
  - cbn [app.outputManager scanner.pollDone]. rewrite Hdone by lia.
    match goal with
    | |- context [app.outputManager env msgs d ?w1] => destruct (IH w1) as [Hd Hp]
    end.
    + intros k Hk. apply Hdone. simpl in Hk. lia.
    + rewrite Hd, Hp. simpl. split; [reflexivity|lia].
Qed.

Lemma outputManager_drops_after_cancellation_witness :
  fst (app.outputManager examples.env_cancelled examples.chainMessages
         examples.display0 scanner.world0) = examples.display0.
Proof.
  apply (outputManager_drops_after_cancellation examples.env_cancelled
           examples.chainMessages examples.display0 scanner.world0).
  intros k _. reflexivity.
Defined.

(** X12.  Whatever arrives and whenever the context is cancelled, the
    output manager prints a line only between clearing the progress bar and
    drawing it again: what it adds to the terminal is a sequence of such
    triples, and without cancellation there is one triple for each result
    and status message, in the order of arrival. *)
Theorem outputManager_brackets_every_line env msgs d w :
  exists prints,
    app.terminal (fst (app.outputManager env msgs d w))
    = app.terminal d
      ++ flat_map (fun e => [app.clearBar; e; app.renderBar]) prints
    /\ forallb spec.isPrint prints = true
    /\ ((forall k, scanner.ctx_Done env k = false) ->
        List.filter
          (fun e => match e with app.wroteResult _ => true | _ => false end) prints
        = map app.wroteResult (spec.resultsOf msgs)).
Proof.
  revert d w. induction msgs as [|msg msgs IH]; intros d w.
  - exists []. simpl. rewrite app_nil_r. auto.
  - cbn [app.outputManager scanner.pollDone].
    destruct (scanner.ctx_Done env (scanner.polls w)) eqn:Hdone.
    + match goal with
      | |- context [app.outputManager env msgs d ?w1] =>
          destruct (IH d w1) as (prints & Ht & Hp & Hr)
      end.
      exists prints. split; [exact Ht|]. split; [exact Hp|].
      intros Hctx. rewrite Hctx in Hdone. discriminate.
    + destruct msg as [r|v|v|m e]; cbn [app.handleMessage];
        match goal with
        | |- context [app.outputManager env msgs ?d1 ?w1] =>
            destruct (IH d1 w1) as (prints & Ht & Hp & Hr)
        end;
        cbn [app.terminal] in Ht.
      * exists (app.wroteResult r :: prints). rewrite Ht, <- app_assoc.
        split; [reflexivity|]. split; [exact Hp|].
        intros Hctx. simpl. rewrite (Hr Hctx). reflexivity.
      * exists prints. auto.
      * exists prints. auto.
      * exists (app.printedStatus m e :: prints). rewrite Ht, <- app_assoc.
        split; [reflexivity|]. split; [exact Hp|].
        intros Hctx. simpl. apply Hr. exact Hctx.
Qed.

Lemma outputManager_brackets_every_line_witness :
  exists prints,
    app.terminal (fst (app.outputManager examples.env_site examples.chainMessages
                         examples.display0 scanner.world0))
    = flat_map (fun e => [app.clearBar; e; app.renderBar]) prints
    /\ List.filter
         (fun e => match e with app.wroteResult _ => true | _ => false end) prints
       = map app.wroteResult (spec.resultsOf examples.chainMessages).
Proof.
  destruct (outputManager_brackets_every_line examples.env_site examples.chainMessages
              examples.display0 scanner.world0) as (prints & Ht & _ & Hr).
  exists prints. split; [exact Ht|]. apply Hr. intros k. reflexivity.
Defined.

(* ===================================================================== *)
(** * The writers *)
(* ===================================================================== *)

(** Induction over writers, through the list of a multiple writer. *)
Lemma Writer_nested_ind (P : output.Writer -> Prop) :
  (forall v, P (output.ConsoleWriter v)) ->
  (forall f rs, P (output.BufferedJSONWriter f rs)) ->
  (forall f rs, P (output.BufferedCSVWriter f rs)) ->
  (forall ws, Forall P ws -> P (output.MultiWriter ws)) ->
  forall w, P w.
Proof.
  intros Hc Hj Hv Hm. fix IH 1.
  intros [v|f rs|f rs|ws]; [apply Hc|apply Hj|apply Hv|].
  apply Hm. induction ws as [|x ws IHws]; constructor; [apply IH|exact IHws].
Qed.

Lemma Flush_MultiWriter_cons x rest io :
  output.Flush (output.MultiWriter (x :: rest)) io
  = if output.isBufferedWriter x then
      match output.Flush x io with
      | (Some e, io') => (Some e, io')
      | (None, io') => output.Flush (output.MultiWriter rest) io'
      end
    else output.Flush (output.MultiWriter rest) io.
Proof. reflexivity. Qed.

Lemma Close_MultiWriter_cons x rest io :
  output.Close (output.MultiWriter (x :: rest)) io
  = match output.Close x io with
    | (Some e, io') => (Some e, io')
    | (None, io') => output.Close (output.MultiWriter rest) io'
    end.
Proof. reflexivity. Qed.

Lemma Close_is_Flush_aux w : forall io, output.Close w io = output.Flush w io.
Proof.
  induction w as [v|f rs|f rs|ws IH] using Writer_nested_ind; intros io;
    try reflexivity.
  revert io. induction IH as [|x ws Hx _ IHws]; intros io; [reflexivity|].
  rewrite Close_MultiWriter_cons, Flush_MultiWriter_cons, Hx.
  destruct x as [v|f rs|f rs|xs]; cbn [output.isBufferedWriter].
  - cbn [output.Flush]. apply IHws.
  - destruct (output.Flush _ io) as [[e|] io']; [reflexivity|apply IHws].
  - destruct (output.Flush _ io) as [[e|] io']; [reflexivity|apply IHws].
  - destruct (output.Flush _ io) as [[e|] io']; [reflexivity|apply IHws].
Qed.

(** X13.  Closing a writer does to the files exactly what flushing it does:
    for every writer, however multiple writers are nested, [Close] and
    [Flush] give the same error and leave the same files and calls.  So a
    flush followed by a close flushes every buffered writer twice. *)
Theorem Close_is_Flush w io :
  output.Close w io = output.Flush w io
  /\ snd (output.Close w (snd (output.Flush w io)))
     = snd (output.Flush w (snd (output.Flush w io))).
Proof. split; rewrite Close_is_Flush_aux; reflexivity. Qed.

Lemma Flush_console_prefix pre rest io :
  Forall (fun x => output.isBufferedWriter x = false) pre ->
  output.Flush (output.MultiWriter (pre ++ rest)) io
  = output.Flush (output.MultiWriter rest) io.
Proof.
  induction 1 as [|x pre Hx _ IH]; [reflexivity|].
  change ((x :: pre) ++ rest) with (x :: (pre ++ rest)).
  rewrite Flush_MultiWriter_cons, Hx. exact IH.
Qed.

(** X14.  A multiple writer gives up at the first writer whose file cannot
    be created: the writers after it are neither flushed nor closed, so
    their buffered results reach no file. *)
Theorem MultiWriter_stops_at_first_failure format filename results pre rest io :
  Forall (fun x => output.isBufferedWriter x = false) pre ->
  results <> [] ->
  output.createFails io filename = true ->
  let w := output.MultiWriter (pre ++ spec.fileWriter format filename results :: rest) in
  let io' := output.mkIO (output.createFails io) (output.files io)
                         (output.calls io ++ [output.CallFlush filename]) in
  (exists e, output.Flush w io = (Some e, io'))
  /\ (exists e, output.Close w io = (Some e, io')).
Proof.
  intros Hpre Hne Hfail w io'.
  assert (Hflush : exists e, output.Flush w io = (Some e, io')).
  { subst w. rewrite Flush_console_prefix by exact Hpre.
    rewrite Flush_MultiWriter_cons.
    assert (Hdoc : forall doc,
      output.flushDocument filename results doc io = (Some "创建文件失败", io')).
    { intros doc. unfold output.flushDocument.
      destruct results; [contradiction|]. rewrite Hfail. reflexivity. }
    unfold spec.fileWriter. destruct (String.eqb format "json");
      cbn [output.isBufferedWriter output.Flush]; rewrite Hdoc; eauto. }
  split; [exact Hflush|]. rewrite Close_is_Flush_aux. exact Hflush.
Qed.

Lemma MultiWriter_stops_at_first_failure_witness :
  let w := output.MultiWriter
             [output.ConsoleWriter false;
              output.BufferedJSONWriter "results.json" [examples.pageResult "a" "x" 0];
              output.BufferedCSVWriter "results.csv" [examples.pageResult "a" "x" 0]] in
  output.files (snd (output.Flush w examples.io_readonly)) = ∅
  /\ output.files (snd (output.Close w examples.io_readonly)) = ∅.
Proof.
  destruct (MultiWriter_stops_at_first_failure "json" "results.json"
              [examples.pageResult "a" "x" 0] [output.ConsoleWriter false]
              [output.BufferedCSVWriter "results.csv" [examples.pageResult "a" "x" 0]]
              examples.io_readonly) as [[e1 H1] [e2 H2]].
  - repeat constructor.
  - discriminate.
  - reflexivity.
  - cbn zeta. split.
    + change (output.MultiWriter _) with
        (output.MultiWriter ([output.ConsoleWriter false]
           ++ spec.fileWriter "json" "results.json" [examples.pageResult "a" "x" 0]
           :: [output.BufferedCSVWriter "results.csv" [examples.pageResult "a" "x" 0]])).
      rewrite H1. reflexivity.
    + change (output.MultiWriter _) with
        (output.MultiWriter ([output.ConsoleWriter false]
           ++ spec.fileWriter "json" "results.json" [examples.pageResult "a" "x" 0]
           :: [output.BufferedCSVWriter "results.csv" [examples.pageResult "a" "x" 0]])).
      rewrite H2. reflexivity.
Defined.

Lemma writeResults_fixed a w results :
  (forall r, fst (output.Write w r) = w) ->
  app.writer a = Some w ->
  app.writer (app.writeResults a results) = Some w.
Proof.
  intros Hfix. revert a. induction results as [|r results IH]; intros a Hw; [exact Hw|].
  cbn [app.writeResults]. apply IH. cbn [app.writer]. rewrite Hw, Hfix. reflexivity.
Qed.

Lemma writeResults_nil_writer a results :
  app.writer a = None -> app.writer (app.writeResults a results) = None.
Proof.
  revert a. induction results as [|r results IH]; intros a Hw; [exact Hw|].
  cbn [app.writeResults]. apply IH. cbn [app.writer]. rewrite Hw. reflexivity.
Qed.

Lemma completionPath_appWriter format filename verbose a results io :
  app.writer a = Some (spec.appWriter format filename verbose []) ->
  output.files (app.completionPath a results io)
  = if output.createFails io filename then output.files io
    else match results with
         | [] => output.files io
         | _ :: _ => <[filename := spec.document format results]> (output.files io)
         end.
Proof.
  intros Hw. unfold app.completionPath, app.Run_afterScan.
  pose proof (writeResults_appWriter format filename verbose a [] results Hw) as Hw'.
  cbn [app] in Hw'. rewrite Hw'.
  rewrite (flushBufferedOutput_appWriter format filename verbose _ results) by exact Hw'.
  rewrite Close_appWriter.
  destruct (flushDocument_effect filename results (spec.document format results) io)
    as (Hf1 & _ & _ & Hfiles1).
  destruct (flushDocument_effect filename results (spec.document format results)
              (snd (output.flushDocument filename results
                      (spec.document format results) io)))
    as (_ & _ & _ & Hfiles2).
  cbn zeta in *. rewrite Hfiles2, Hf1, Hfiles1.
  destruct (output.createFails io filename); [reflexivity|].
  destruct results; [reflexivity|]. apply insert_insert_eq.
Qed.

(** X15.  Which output file a finished scan leaves.  [NewApp] rejects a
    format only when an output file is given and the format is none of
    console, json and csv.  With the writer it builds, the file named by
    [-o] is written exactly when it is given, the format is json or csv,
    there is at least one result and the file can be created, and it then
    holds all the results in order; no other file is touched. *)
Theorem output_file_of_a_finished_scan cfg :
  let o := config.Output cfg in
  (app.NewApp_writer cfg = None
   <-> config.File o <> EmptyString /\ config.Format o <> "console"
       /\ config.Format o <> "json" /\ config.Format o <> "csv")
  /\ forall a results io,
       app.writer a = app.NewApp_writer cfg ->
       output.files (app.completionPath a results io)
       = if negb (String.eqb (config.File o) EmptyString)
            && (String.eqb (config.Format o) "json" || String.eqb (config.Format o) "csv")
            && negb (output.createFails io (config.File o))
            && match results with [] => false | _ :: _ => true end
         then <[config.File o := spec.document (config.Format o) results]> (output.files io)
         else output.files io.
Proof.
  cbn zeta. unfold app.NewApp_writer, output.CreateBufferedWriter.
  destruct (String.eqb_spec (config.File (config.Output cfg)) EmptyString) as [Hfile|Hfile];
    cbn [negb andb].
  - split; [split; [discriminate|intros [H _]; contradiction]|].
    intros a results io Hw. unfold app.completionPath, app.Run_afterScan.
    rewrite (writeResults_fixed a _ results (fun _ => eq_refl) Hw).
    unfold app.flushBufferedOutput.
    rewrite (writeResults_fixed a _ results (fun _ => eq_refl) Hw). reflexivity.
  - destruct (String.eqb_spec (config.Format (config.Output cfg)) "console") as [Hc|Hc].
    { split; [split; [discriminate|intros (_ & H & _); contradiction]|].
      intros a results io Hw. unfold app.completionPath, app.Run_afterScan.
      rewrite (writeResults_fixed a _ results (fun _ => eq_refl) Hw).
      unfold app.flushBufferedOutput.
      rewrite (writeResults_fixed a _ results (fun _ => eq_refl) Hw).
      rewrite Hc. reflexivity. }
    destruct (String.eqb_spec (config.Format (config.Output cfg)) "json") as [Hj|Hj].
    { split; [split; [discriminate|intros (_ & _ & H & _); contradiction]|].
      intros a results io Hw. cbn [orb andb].
      rewrite (completionPath_appWriter (config.Format (config.Output cfg))
                 (config.File (config.Output cfg))
                 (config.Verbose (config.Output cfg)) a results io).
      - destruct (output.createFails io _); [reflexivity|]. destruct results; reflexivity.
      - rewrite Hw. unfold spec.appWriter, spec.fileWriter. rewrite Hj. reflexivity. }
    destruct (String.eqb_spec (config.Format (config.Output cfg)) "csv") as [Hv|Hv].
    { split; [split; [discriminate|intros (_ & _ & _ & H); contradiction]|].
      intros a results io Hw. cbn [orb andb].
      rewrite (completionPath_appWriter (config.Format (config.Output cfg))
                 (config.File (config.Output cfg))
                 (config.Verbose (config.Output cfg)) a results io).
      - destruct (output.createFails io _); [reflexivity|]. destruct results; reflexivity.
      - rewrite Hw. unfold spec.appWriter, spec.fileWriter. rewrite Hv. reflexivity. }
    split; [split; [intros _; repeat split; assumption|reflexivity]|].
    intros a results io Hw. cbn [orb andb].
    unfold app.completionPath, app.Run_afterScan, app.flushBufferedOutput.
    rewrite (writeResults_nil_writer a results Hw). reflexivity.
Qed.

Lemma output_file_of_a_finished_scan_witness :
  output.files (app.completionPath examples.jsonApp
                  [examples.pageResult "a" "x" 0; examples.pageResult "b" "y" 0]
                  examples.io0)
  = <["results.json" :=
        output.JSONDocument [examples.pageResult "a" "x" 0; examples.pageResult "b" "y" 0]]> ∅
  /\ output.files (app.completionPath examples.jsonApp
                     [examples.pageResult "a" "x" 0] examples.io_readonly)
     = ∅.
Proof.
  split.
  - exact (proj2 (output_file_of_a_finished_scan examples.jsonConfig)
             examples.jsonApp
             [examples.pageResult "a" "x" 0; examples.pageResult "b" "y" 0]
             examples.io0 eq_refl).
  - exact (proj2 (output_file_of_a_finished_scan examples.jsonConfig)
             examples.jsonApp [examples.pageResult "a" "x" 0]
             examples.io_readonly eq_refl).
Defined.

(* ===================================================================== *)
(** * The text of the output files *)
(* ===================================================================== *)

Section JSONText.

Context (encode : scanner.Result -> string).

Lemma JSONWriter_Write_later rs : forall t,
  fold_left (output.JSONWriter_Write encode) rs (output.mkJSONWriter t false)
  = output.mkJSONWriter
      (t +:+ fold_right (fun r acc => ("," +:+ output.nl) +:+ ("  " +:+ encode r) +:+ acc)
                        EmptyString rs)
      false.
Proof.
  induction rs as [|r rs IH]; intros t; cbn [fold_left fold_right].
  - rewrite append_empty_r. reflexivity.
  - unfold output.JSONWriter_Write at 2. cbn [output.first output.jsonText negb].
    rewrite IH, !append_assoc. reflexivity.
Qed.

Lemma flushJSONLoop_later rs : forall i t,
  0 < i ->
  output.flushJSONLoop encode i rs t
  = t +:+ fold_right (fun r acc => ("," +:+ output.nl) +:+ ("  " +:+ encode r) +:+ acc)
                     EmptyString rs.
Proof.
  induction rs as [|r rs IH]; intros i t Hi; cbn [output.flushJSONLoop fold_right].
  - rewrite append_empty_r. reflexivity.
  - destruct (Z.ltb_spec 0 i) as [_|]; [|lia].
    rewrite IH by lia. rewrite !append_assoc. reflexivity.
Qed.

Lemma Join_entries r rs :
  gostrings.Join (map (fun r => "  " +:+ encode r) (r :: rs)) ("," +:+ output.nl)
  = ("  " +:+ encode r)
    +:+ fold_right (fun r acc => ("," +:+ output.nl) +:+ ("  " +:+ encode r) +:+ acc)
                   EmptyString rs.
Proof.
  revert r. induction rs as [|x rs IH]; intros r.
  - cbn [map gostrings.Join fold_right]. rewrite append_empty_r. reflexivity.
  - change (gostrings.Join (map (fun r => "  " +:+ encode r) (r :: x :: rs))
              ("," +:+ output.nl))
      with (("  " +:+ encode r) +:+ ("," +:+ output.nl)
            +:+ gostrings.Join (map (fun r => "  " +:+ encode r) (x :: rs))
                  ("," +:+ output.nl)).
    rewrite IH. cbn [fold_right]. reflexivity.
Qed.

Lemma JSONWriter_stream_text rs :
  output.JSONWriter_Close (fold_left (output.JSONWriter_Write encode) rs output.NewJSONWriter)
  = spec.jsonArrayText encode rs.
Proof.
  unfold spec.jsonArrayText, output.JSONWriter_Close. destruct rs as [|r rs].
  - reflexivity.
  - cbn [fold_left]. unfold output.JSONWriter_Write at 2, output.NewJSONWriter.
    cbn [output.first output.jsonText negb].
    rewrite JSONWriter_Write_later, Join_entries. cbn [output.jsonText].
    rewrite !append_assoc. reflexivity.
Qed.

Lemma BufferedJSONWriter_text r rs :
  output.BufferedJSONWriter_Flush_text encode (r :: rs)
  = Some (spec.jsonArrayText encode (r :: rs)).
Proof.
  unfold output.BufferedJSONWriter_Flush_text, spec.jsonArrayText.
  cbn [output.flushJSONLoop]. destruct (Z.ltb_spec 0 0) as [|_]; [lia|].
  rewrite flushJSONLoop_later by lia. rewrite Join_entries, !append_assoc. reflexivity.
Qed.

End JSONText.

(** X16.  Both JSON writers produce the same file: a bracket, the entries
    each indented by two spaces and separated by a comma and a line feed,
    and the closing bracket on a line of its own.  The streaming writer
    writes it entry by entry and also for no results; the buffered writer
    writes it in one flush and writes no file at all for no results. *)
Theorem JSON_writers_write_the_same_array encode results :
  output.JSONWriter_Close
    (fold_left (output.JSONWriter_Write encode) results output.NewJSONWriter)
  = spec.jsonArrayText encode results
  /\ output.BufferedJSONWriter_Flush_text encode results
     = match results with
       | [] => None
       | _ :: _ => Some (spec.jsonArrayText encode results)
       end.
Proof.
  split; [apply JSONWriter_stream_text|].
  destruct results as [|r rs]; [reflexivity|apply BufferedJSONWriter_text].
Qed.

Lemma CSVWriter_Write_later rfc rs : forall rows,
  fold_left (output.CSVWriter_Write rfc) rs (output.mkCSVWriter rows true)
  = output.mkCSVWriter (rows ++ map (output.csvRecord rfc) rs) true.
Proof.
  induction rs as [|r rs IH]; intros rows; cbn [fold_left map].
  - rewrite app_nil_r. reflexivity.
  - unfold output.CSVWriter_Write at 2. cbn [output.header output.csvRows negb].
    rewrite IH, <- app_assoc. reflexivity.
Qed.

Lemma flushCSVLoop_rows rfc rs : forall rows,
  output.flushCSVLoop rfc rs rows = rows ++ map (output.csvRecord rfc) rs.
Proof.
  induction rs as [|r rs IH]; intros rows; cbn [output.flushCSVLoop map].
  - rewrite app_nil_r. reflexivity.
  - rewrite IH, <- app_assoc. reflexivity.
Qed.

(** X17.  Both CSV writers hand the same records to the encoder: the header
    once, before the first result, then one record for each result in
    order, every record with the seven fields of the header.  Without
    results the streaming writer writes no header and the buffered writer
    creates no file. *)
Theorem CSV_writers_write_the_same_rows rfc3339 results :
  let rows := match results with
              | [] => []
              | _ :: _ => output.csvHeader :: map (output.csvRecord rfc3339) results
              end in
  output.csvRows (fold_left (output.CSVWriter_Write rfc3339) results output.NewCSVWriter)
  = rows
  /\ output.BufferedCSVWriter_Flush_rows rfc3339 results
     = match results with [] => None | _ :: _ => Some rows end
  /\ Forall (fun row => length row = length output.csvHeader) rows.
Proof.
  destruct results as [|r rs]; cbn zeta.
  - repeat split. constructor.
  - repeat split.
    + cbn [fold_left]. unfold output.CSVWriter_Write at 2, output.NewCSVWriter.
      cbn [output.header output.csvRows negb].
      rewrite CSVWriter_Write_later. reflexivity.
    + unfold output.BufferedCSVWriter_Flush_rows. rewrite flushCSVLoop_rows. reflexivity.
    + constructor; [reflexivity|]. apply List.Forall_forall. intros row Hin.
      apply in_map_iff in Hin. destruct Hin as (x & <- & _). reflexivity.
Qed.

(* ===================================================================== *)
(** * Building the scanner *)
(* ===================================================================== *)



(** X19.  A scanner built by [New] from a configuration with no pattern and
    no word list never looks at the body: two results with the same status
    code and size get the same verdict.  So without content rules a scan
    without verbose output, which keeps no body, reports what a verbose
    scan reports. *)
Theorem filter_without_content_rules_ignores_body compile cfg s r r' :
  scanner.New compile cfg = Some s ->
  config.IncludeRegex (config.Filters cfg) = EmptyString ->
  config.ExcludeRegex (config.Filters cfg) = EmptyString ->
  config.IncludeWords (config.Filters cfg) = [] ->
  config.ExcludeWords (config.Filters cfg) = [] ->
  scanner.StatusCode r = scanner.StatusCode r' ->
  scanner.Size r = scanner.Size r' ->
  scanner.shouldIncludeResult s r = scanner.shouldIncludeResult s r'.
Proof.
  intros Hnew Hi He Hiw Hew Hstatus Hsize.
  unfold scanner.New in Hnew. rewrite Hi, He in Hnew. cbn in Hnew.
  injection Hnew as <-.
  unfold scanner.shouldIncludeResult.
  cbn [scanner.config scanner.includeRegex scanner.excludeRegex].
  rewrite Hiw, Hew, Hstatus, Hsize. reflexivity.
Qed.

Lemma filter_without_content_rules_ignores_body_witness :
  scanner.shouldIncludeResult (examples.plainScanner (examples.siteConfig false))
    (examples.pageResult "a" "secret" 0)
  = scanner.shouldIncludeResult (examples.plainScanner (examples.siteConfig false))
      (examples.quietResult "a" "secret" 0).
Proof.
  apply (filter_without_content_rules_ignores_body examples.compileLiteral
           (examples.siteConfig false)); reflexivity.
Defined.

(* ===================================================================== *)
(** * The logger *)
(* ===================================================================== *)

Lemma formatKeyvals_pairs k : forall n keyvals,
  length keyvals = (2 * n)%nat ->
  logger.formatKeyvals (keyvals ++ [k]) = logger.formatKeyvals keyvals.
Proof.
  induction n as [|n IH]; intros keyvals Hlen.
  - destruct keyvals; [reflexivity|discriminate].
  - destruct keyvals as [|a [|b rest]]; [discriminate|simpl in Hlen; lia|].
    change ((a :: b :: rest) ++ [k]) with (a :: b :: (rest ++ [k])).
    cbn [logger.formatKeyvals]. rewrite IH; [reflexivity|].
    simpl in Hlen. lia.
Qed.

(** X20.  A key given to the logger without a value is passed over: after
    complete pairs, one more argument changes nothing in the line that is
    logged. *)
Theorem logger_passes_over_a_key_without_value timestamp lvl msg keyvals k :
  Nat.even (length keyvals) = true ->
  logger.log timestamp lvl msg (keyvals ++ [k]) = logger.log timestamp lvl msg keyvals.
Proof.
  intros Heven. apply Nat.even_spec in Heven. destruct Heven as [n Hn].
  unfold logger.log. rewrite (formatKeyvals_pairs k n keyvals Hn). reflexivity.
Qed.

Lemma logger_passes_over_a_key_without_value_witness :
  logger.log "2024-01-01 00:00:00" logger.LevelWarn "retry" ["url"; "/a"; "attempt"]
  = logger.log "2024-01-01 00:00:00" logger.LevelWarn "retry" ["url"; "/a"].
Proof.
  apply (logger_passes_over_a_key_without_value "2024-01-01 00:00:00" logger.LevelWarn
           "retry" ["url"; "/a"] "attempt").
  reflexivity.
Defined.

(* ===================================================================== *)
(** * The flag of the extensions *)
(* ===================================================================== *)

Lemma plainByte_not_space c :
  spec.plainByte c = true -> gostrings.in_cutset c gostrings.asciiSpace = false.
Proof.
  unfold spec.plainByte. intros H.
  apply andb_true_iff in H. destruct H as [H _].
  apply andb_true_iff in H. destruct H as [_ H].
  apply negb_true_iff in H. exact H.
Qed.

Lemma plainByte_not_comma c : spec.plainByte c = true -> Ascii.eqb c ","%char = false.
Proof.
  unfold spec.plainByte. intros H.
  apply andb_true_iff in H. destruct H as [_ H].
  apply negb_true_iff in H. exact H.
Qed.

Lemma TrimLeft_plain s :
  spec.allBytes spec.plainByte s = true -> gostrings.TrimLeft s gostrings.asciiSpace = s.
Proof.
  destruct s as [|c s]; [reflexivity|]. cbn [spec.allBytes gostrings.TrimLeft].
  intros H. apply andb_true_iff in H. destruct H as [Hc _].
  rewrite (plainByte_not_space c Hc). reflexivity.
Qed.

Lemma TrimRight_plain s :
  spec.allBytes spec.plainByte s = true -> gostrings.TrimRight s gostrings.asciiSpace = s.
Proof.
  induction s as [|c s IH]; [reflexivity|]. cbn [spec.allBytes gostrings.TrimRight].
  intros H. apply andb_true_iff in H. destruct H as [Hc Hs].
  rewrite (IH Hs), (plainByte_not_space c Hc). destruct s; reflexivity.
Qed.

Lemma TrimSpace_plain s :
  spec.allBytes spec.plainByte s = true -> gostrings.TrimSpace s = s.
Proof.
  intros H. unfold gostrings.TrimSpace. rewrite (TrimLeft_plain s H).
  apply TrimRight_plain. exact H.
Qed.

Lemma plainExtension_parts x :
  spec.plainExtension x = true ->
  x <> EmptyString /\ gostrings.HasPrefix x "." = false
  /\ spec.allBytes spec.plainByte x = true.
Proof.
  unfold spec.plainExtension. intros H.
  apply andb_true_iff in H. destruct H as [H Hb].
  apply andb_true_iff in H. destruct H as [Hne Hdot].
  apply negb_true_iff in Hne, Hdot. repeat split; try assumption.
  intros ->. discriminate.
Qed.

Lemma normalizeExtension_plain x :
  spec.plainExtension x = true ->
  config.normalizeExtension x = x /\ config.normalizeExtension ("." +:+ x) = x.
Proof.
  intros H. destruct (plainExtension_parts x H) as (_ & Hdot & Hb).
  unfold config.normalizeExtension. split.
  - rewrite (TrimSpace_plain x Hb), Hdot. reflexivity.
  - change ("." +:+ x) with (String "."%char x).
    rewrite (TrimSpace_plain (String "."%char x)).
    + replace (gostrings.HasPrefix (String "."%char x) ".") with true
        by (destruct x; reflexivity).
      reflexivity.
    + cbn [spec.allBytes]. rewrite Hb. reflexivity.
Qed.

Lemma Split_nonempty s sep : gostrings.Split s sep <> [].
Proof.
  destruct s as [|c s]; cbn [gostrings.Split]; [discriminate|].
  destruct (Ascii.eqb c sep); [discriminate|].
  destruct (gostrings.Split s sep); discriminate.
Qed.

Lemma Split_plain x :
  spec.allBytes spec.plainByte x = true -> gostrings.Split x ","%char = [x].
Proof.
  induction x as [|c x IH]; [reflexivity|]. cbn [spec.allBytes gostrings.Split].
  intros H. apply andb_true_iff in H. destruct H as [Hc Hx].
  rewrite (plainByte_not_comma c Hc), (IH Hx). reflexivity.
Qed.

Lemma Split_plain_comma x rest :
  spec.allBytes spec.plainByte x = true ->
  gostrings.Split (x +:+ String ","%char rest) ","%char
  = x :: gostrings.Split rest ","%char.
Proof.
  induction x as [|c x IH]; [reflexivity|].
  cbn [spec.allBytes]. intros H. apply andb_true_iff in H. destruct H as [Hc Hx].
  change (String c x +:+ String ","%char rest) with (String c (x +:+ String ","%char rest)).
  cbn [gostrings.Split]. rewrite (plainByte_not_comma c Hc), (IH Hx). reflexivity.
Qed.

Lemma Split_Join_plain fields :
  fields <> [] ->
  List.Forall (fun x => spec.allBytes spec.plainByte x = true) fields ->
  gostrings.Split (gostrings.Join fields ",") ","%char = fields.
Proof.
  intros Hne Hall. induction Hall as [|x fields Hx Hall IH]; [contradiction|].
  destruct fields as [|y fields].
  - cbn [gostrings.Join]. apply Split_plain. exact Hx.
  - change (gostrings.Join (x :: y :: fields) ",")
      with (x +:+ String ","%char (gostrings.Join (y :: fields) ",")).
    rewrite (Split_plain_comma x _ Hx), IH; [reflexivity|discriminate].
Qed.

Lemma Join_first_nonempty x fields sep :
  x <> EmptyString -> gostrings.Join (x :: fields) sep <> EmptyString.
Proof.
  intros Hx. destruct x as [|c x]; [contradiction|].
  destruct fields; cbn [gostrings.Join]; discriminate.
Qed.

(** X21.  The flag [-e] is read back as written: a comma-separated list of
    plainly written extensions gives exactly those extensions, and writing
    each of them with a leading dot gives the same list. *)
Theorem extension_flag_round_trip fields defaults :
  fields <> [] ->
  List.Forall (fun x => spec.plainExtension x = true) fields ->
  config.ParseFlags_extensions (gostrings.Join fields ",") defaults = fields
  /\ config.ParseFlags_extensions
       (gostrings.Join (map (fun x => "." +:+ x) fields) ",") defaults
     = fields.
Proof.
  intros Hne Hall.
  assert (Hplain : List.Forall (fun x => spec.allBytes spec.plainByte x = true) fields).
  { eapply List.Forall_impl; [|exact Hall]. intros x Hx. apply (plainExtension_parts x Hx). }
  assert (Hdots : List.Forall (fun x => spec.allBytes spec.plainByte x = true)
                    (map (fun x => "." +:+ x) fields)).
  { apply List.Forall_forall. intros y Hy. apply in_map_iff in Hy.
    destruct Hy as (x & <- & Hin).
    change ("." +:+ x) with (String "."%char x). cbn [spec.allBytes].
    rewrite (proj1 (List.Forall_forall _ _) Hplain x Hin). reflexivity. }
  assert (Hnorm : map config.normalizeExtension fields = fields
                  /\ map config.normalizeExtension (map (fun x => "." +:+ x) fields)
                     = fields).
  { clear Hne Hplain Hdots. induction Hall as [|x fields Hx _ IH]; [split; reflexivity|].
    destruct IH as [IH1 IH2]. destruct (normalizeExtension_plain x Hx) as [H1 H2].
    cbn [map]. rewrite IH1, IH2, H1, H2. split; reflexivity. }
  destruct fields as [|x fields]; [contradiction|].
  unfold config.ParseFlags_extensions. split.
  - destruct (String.eqb_spec (gostrings.Join (x :: fields) ",") EmptyString) as [E|_].
    + exfalso. revert E. apply Join_first_nonempty.
      apply (plainExtension_parts x). inversion Hall; assumption.
    + cbn [negb]. rewrite Split_Join_plain by (assumption || discriminate).
      apply Hnorm.
  - destruct (String.eqb_spec
                (gostrings.Join (map (fun x => "." +:+ x) (x :: fields)) ",")
                EmptyString) as [E|_].
    + exfalso. revert E. cbn [map]. apply Join_first_nonempty. discriminate.
    + cbn [negb]. rewrite Split_Join_plain by (assumption || discriminate).
      apply Hnorm.
Qed.

Lemma extension_flag_round_trip_witness :
  config.ParseFlags_extensions "php,html" ["txt"] = ["php"; "html"]
  /\ config.ParseFlags_extensions ".php,.html" ["txt"] = ["php"; "html"].
Proof.
  apply (extension_flag_round_trip ["php"; "html"] ["txt"]).
  - discriminate.
  - repeat constructor.
Defined.

Lemma HasPrefix_nil s : gostrings.HasPrefix s EmptyString = true.
Proof. destruct s; reflexivity. Qed.

Lemma Split_length s :
  Z.of_nat (length (gostrings.Split s ","%char)) = gostrings.Count s "," + 1.
Proof.
  unfold gostrings.Count. induction s as [|c s IH]; [reflexivity|].
  cbn [gostrings.Split gostrings.count_from gostrings.HasPrefix String.length Nat.sub].
  rewrite HasPrefix_nil, andb_true_r. destruct (Ascii.eqb c ","%char).
  - cbn [length]. lia.
  - pose proof (Split_nonempty s ","%char) as Hne.
    destruct (gostrings.Split s ","%char) as [|f fs]; [contradiction|].
    cbn [length] in *. lia.
Qed.

(** X22.  Every comma of the flag [-e] starts a new extension, also an
    empty one: the configuration has one extension more than the flag has
    commas, so a line with the placeholder counts for that many jobs. *)
Theorem extension_flag_one_per_comma a extensions defaults line :
  extensions <> EmptyString ->
  config.Extensions (config.Scanner (app.config a))
  = config.ParseFlags_extensions extensions defaults ->
  gostrings.Contains line "%EXT%" = true ->
  app.calculateTotalJobs a [line] = goint.wrap (gostrings.Count extensions "," + 1).
Proof.
  intros Hne Hext Hline.
  unfold app.calculateTotalJobs. rewrite Hext. unfold config.ParseFlags_extensions.
  destruct (String.eqb_spec extensions EmptyString) as [|_]; [contradiction|].
  cbn [negb app.countJobs]. rewrite Hline, length_map, Split_length.
  unfold goint.add. f_equal.
Qed.

Lemma extension_flag_one_per_comma_witness :
  app.calculateTotalJobs (examples.siteApp false) ["index.%EXT%"] = 2.
Proof.
  apply (extension_flag_one_per_comma (examples.siteApp false) "php,txt" ["php"]
           "index.%EXT%").
  - discriminate.
  - reflexivity.
  - reflexivity.
Defined.
